(** * A shallow embedding of the CLAUDE.md test runner

    The development follows the TypeScript sources: the in-memory sandbox
    ([src/utils/virtual-fs.ts]), the evaluator pipeline
    ([src/evaluators/*.ts]), the process-based runner
    ([src/execution/claude-code-runner.ts]) and the suite driver
    ([src/runners/test-runner.ts]).

    Conventions of the embedding.
    - A JavaScript string is a [string]; a character is one code unit, and
      the model covers the code units 0..255.
    - Counts, token numbers and millisecond clocks are integers ([Z]);
      scores are exact rationals ([Qc]); the one place where the code can
      divide by zero keeps JavaScript's special values apart.
    - [Date.now()] is an explicit argument of the operation that reads it.
    - A JavaScript [Map] is an association list in insertion order.
    - A call that may throw returns a [Completion]. *)

From Stdlib Require Import Ascii String ZArith QArith Qcanon Qround.
From stdpp Require Import base option list strings gmap.

Set Warnings "-register-all,-clear-no-such-hyp".
Open Scope string_scope.

(** ** JavaScript strings *)

Module JsString.

(** [s.startsWith(p)] *)
Fixpoint startsWith (s p : string) {struct p} : bool :=
  match p with
  | EmptyString => true
  | String c p' =>
      match s with
      | EmptyString => false
      | String d s' => if Ascii.eqb c d then startsWith s' p' else false
      end
  end.

(** [s.indexOf(p)], with [None] for -1 *)
Fixpoint indexOf (s p : string) : option nat :=
  if startsWith s p then Some 0%nat
  else match s with
       | EmptyString => None
       | String _ s' => S <$> indexOf s' p
       end.

(** [s.includes(p)] *)
Definition includes (s p : string) : bool :=
  match indexOf s p with Some _ => true | None => false end.

(** [s.slice(n)] for [0 <= n] *)
Fixpoint slice (n : nat) (s : string) : string :=
  match n, s with
  | O, _ => s
  | S _, EmptyString => EmptyString
  | S n', String _ s' => slice n' s'
  end.

(** [s.substring(0, n)] *)
Fixpoint substring0 (n : nat) (s : string) : string :=
  match n, s with
  | O, _ => EmptyString
  | S _, EmptyString => EmptyString
  | S n', String c s' => String c (substring0 n' s')
  end.

(** [s.endsWith(p)] *)
Definition endsWith (s p : string) : bool :=
  if decide (String.length p ≤ String.length s)%nat
  then bool_decide (slice (String.length s - String.length p) s = p)
  else false.

(** [s.split(sep)] for a separator of one code unit *)
Fixpoint split (sep : ascii) (s : string) : list string :=
  match s with
  | EmptyString => [EmptyString]
  | String c s' =>
      if Ascii.eqb c sep then EmptyString :: split sep s'
      else match split sep s' with
           | [] => [String c EmptyString]
           | w :: ws => String c w :: ws
           end
  end.

(** GetSubstitution of ECMA-262 for a string pattern: there are no
    captures, so only [$$], [$&], [$`] and [$'] are rewritten; every
    other code unit of the template is copied. *)
Fixpoint GetSubstitution (matched preceding following template : string)
  : string :=
  match template with
  | EmptyString => EmptyString
  | String "$"%char (String "$"%char rest) =>
      String "$"%char (GetSubstitution matched preceding following rest)
  | String "$"%char (String "&"%char rest) =>
      matched ++ GetSubstitution matched preceding following rest
  | String "$"%char (String "`"%char rest) =>
      preceding ++ GetSubstitution matched preceding following rest
  | String "$"%char (String "'"%char rest) =>
      following ++ GetSubstitution matched preceding following rest
  | String c rest =>
      String c (GetSubstitution matched preceding following rest)
  end.

(** [s.replace(searchValue, replaceValue)] with two strings *)
Definition replace (s searchValue replaceValue : string) : string :=
  match indexOf s searchValue with
  | None => s
  | Some pos =>
      let preceding := substring0 pos s in
      let following := slice (pos + String.length searchValue) s in
      preceding
        ++ GetSubstitution searchValue preceding following replaceValue
        ++ following
  end.

(** A string is truthy when it is not empty. *)
Definition truthy (s : string) : bool :=
  match s with EmptyString => false | _ => true end.

(** [s.toLowerCase()]: the letters A-Z and the upper-case letters of
    the range 192..222 (all but the multiplication sign 215) move up by
    32; every other code unit below 256 is left alone. *)
Definition lowerChar (c : ascii) : ascii :=
  let n := nat_of_ascii c in
  if (Nat.leb 65 n && Nat.leb n 90)
     || (Nat.leb 192 n && Nat.leb n 222 && negb (Nat.eqb n 215))
  then ascii_of_nat (n + 32) else c.

Fixpoint toLowerCase (s : string) : string :=
  match s with
  | EmptyString => EmptyString
  | String c s' => String (lowerChar c) (toLowerCase s')
  end.

(** The class [\w] of regular expressions: letters, digits, underscore *)
Definition isWordChar (c : ascii) : bool :=
  let n := nat_of_ascii c in
  (Nat.leb 48 n && Nat.leb n 57) || (Nat.leb 65 n && Nat.leb n 90)
  || (Nat.leb 97 n && Nat.leb n 122) || Nat.eqb n 95.

(** [s.split(/\W+/)]: the pieces between the maximal runs of non-word
    code units, with an empty piece before a leading run and after a
    trailing one. *)
Fixpoint splitNonWord (s : string) : list string :=
  match s with
  | EmptyString => [EmptyString]
  | String c s' =>
      if isWordChar c then
        match splitNonWord s' with
        | [] => [String c EmptyString]
        | w :: ws => String c w :: ws
        end
      else
        match s' with
        | EmptyString => EmptyString :: splitNonWord s'
        | String d _ =>
            if isWordChar d then EmptyString :: splitNonWord s'
            else splitNonWord s'
        end
  end.

End JsString.

(** ** JavaScript [Map] with string keys, in insertion order *)

Module JsMap.

Abbreviation t V := (list (string * V)).

Section Ops.
Context {V : Type}.

Definition empty : t V := [].

Fixpoint get (k : string) (m : t V) : option V :=
  match m with
  | [] => None
  | (k', v) :: m' => if decide (k = k') then Some v else get k m'
  end.

Definition has (k : string) (m : t V) : bool :=
  match get k m with Some _ => true | None => false end.

(** [m.set(k, v)]: an existing key keeps its place. *)
Fixpoint set (k : string) (v : V) (m : t V) : t V :=
  match m with
  | [] => [(k, v)]
  | (k', v') :: m' =>
      if decide (k = k') then (k, v) :: m' else (k', v') :: set k v m'
  end.

(** [m.delete(k)]: the stripped map *)
Fixpoint remove (k : string) (m : t V) : t V :=
  match m with
  | [] => []
  | (k', v') :: m' =>
      if decide (k = k') then m' else (k', v') :: remove k m'
  end.

Definition keys (m : t V) : list string := m.*1.

End Ops.

End JsMap.

(** ** Node's [path] module (POSIX flavour)

    [normalize] drops empty and [.] segments, resolves [..] against the
    segments before it, and keeps one trailing separator; [join] glues the
    non-empty arguments with a separator and normalizes the result.  The
    sandbox below takes the two functions as parameters; this model is what
    the examples run on. *)

Module NodePath.

Definition isAbsolute (p : string) : bool := JsString.startsWith p "/".

(** The segments of a path, resolved from left to right; [acc] holds the
    segments kept so far, innermost first. *)
Fixpoint resolveSegments (allowAboveRoot : bool) (acc segs : list string)
  : list string :=
  match segs with
  | [] => rev acc
  | seg :: segs' =>
      if decide (seg = EmptyString) then resolveSegments allowAboveRoot acc segs'
      else if decide (seg = ".") then resolveSegments allowAboveRoot acc segs'
      else if decide (seg = "..") then
        match acc with
        | top :: acc' =>
            if decide (top = "..")
            then resolveSegments allowAboveRoot (".." :: acc) segs'
            else resolveSegments allowAboveRoot acc' segs'
        | [] =>
            if allowAboveRoot
            then resolveSegments allowAboveRoot [".."] segs'
            else resolveSegments allowAboveRoot [] segs'
        end
      else resolveSegments allowAboveRoot (seg :: acc) segs'
  end.

Fixpoint joinWith (sep : string) (l : list string) : string :=
  match l with
  | [] => EmptyString
  | [x] => x
  | x :: l' => x ++ sep ++ joinWith sep l'
  end.

Definition normalize (p : string) : string :=
  if decide (p = EmptyString) then "."
  else
    let absolute := isAbsolute p in
    let trailing := JsString.endsWith p "/" in
    let body :=
      joinWith "/" (resolveSegments (negb absolute) [] (JsString.split "/"%char p)) in
    if decide (body = EmptyString) then
      if absolute then "/" else if trailing then "./" else "."
    else
      (if absolute then "/" else EmptyString) ++ body ++ (if trailing then "/" else EmptyString).

Definition join (a b : string) : string :=
  if decide (a = EmptyString) then (if decide (b = EmptyString) then "." else normalize b)
  else if decide (b = EmptyString) then normalize a
  else normalize (a ++ "/" ++ b).

End NodePath.

(** ** The data model ([src/types/index.ts]) *)

Module VirtualFile.
Record t : Type := mk {
  path : string;
  content : string;
  createdAt : Z;
  modifiedAt : Z;
  permissions : string
}.
End VirtualFile.

Inductive OperationType : Type := op_read | op_write | op_delete | op_edit.

Module FileOperation.
Record t : Type := mk {
  type : OperationType;
  path : string;
  content : option string;
  timestamp : Z;
  success : bool
}.
End FileOperation.

(** ** The sandbox ([src/utils/virtual-fs.ts]) *)

Module VirtualFileSystem.

Record t : Type := mk {
  files : JsMap.t VirtualFile.t;
  operations : list FileOperation.t;
  workingDirectory : string;
  rootPath : string
}.

(** [new VirtualFileSystem(rootPath)] *)
Definition create (rootPath : string) : t :=
  {| files := JsMap.empty; operations := [];
     workingDirectory := rootPath; rootPath := rootPath |}.

Inductive EditResult : Type :=
| EditOk            (* { success: true,  message: 'File edited successfully' } *)
| FileNotFound      (* { success: false, message: 'File not found' } *)
| OldContentNotFound. (* { success: false, message: 'Old content not found in file' } *)

Definition edit_success (r : EditResult) : bool :=
  match r with EditOk => true | _ => false end.

Definition edit_message (r : EditResult) : string :=
  match r with
  | EditOk => "File edited successfully"
  | FileNotFound => "File not found"
  | OldContentNotFound => "Old content not found in file"
  end.

Section WithPath.
(** [path.join] and [path.normalize] of the platform *)
Variable path_join : string -> string -> string.
Variable path_normalize : string -> string.

Definition normalizePath (fs : t) (filePath : string) : string :=
  let filePath :=
    if negb (JsString.startsWith filePath "/")
    then path_join (workingDirectory fs) filePath
    else filePath in
  path_normalize filePath.

(** [write]: the result is [{ success, bytesWritten }]. *)
Definition write (fs : t) (filePath content : string) (now : Z)
  : (bool * nat) * t :=
  let normalizedPath := normalizePath fs filePath in
  let timestamp := now in
  let file :=
    {| VirtualFile.path := normalizedPath;
       VirtualFile.content := content;
       VirtualFile.createdAt :=
         match JsMap.get normalizedPath (files fs) with
         | Some old =>
             if decide (VirtualFile.createdAt old = 0%Z) then timestamp
             else VirtualFile.createdAt old
         | None => timestamp
         end;
       VirtualFile.modifiedAt := timestamp;
       VirtualFile.permissions := "rw-r--r--" |} in
  ((true, String.length content),
   {| files := JsMap.set normalizedPath file (files fs);
      operations := operations fs ++
        [ {| FileOperation.type := op_write;
             FileOperation.path := normalizedPath;
             FileOperation.content := Some content;
             FileOperation.timestamp := timestamp;
             FileOperation.success := true |} ];
      workingDirectory := workingDirectory fs;
      rootPath := rootPath fs |}).

(** [read]: [None] is JavaScript's [null]. *)
Definition read (fs : t) (filePath : string) (now : Z)
  : option string * t :=
  let normalizedPath := normalizePath fs filePath in
  let file := JsMap.get normalizedPath (files fs) in
  (VirtualFile.content <$> file,
   {| files := files fs;
      operations := operations fs ++
        [ {| FileOperation.type := op_read;
             FileOperation.path := normalizedPath;
             FileOperation.content := None;
             FileOperation.timestamp := now;
             FileOperation.success := bool_decide (is_Some file) |} ];
      workingDirectory := workingDirectory fs;
      rootPath := rootPath fs |}).

(** [edit]; [now1] and [now2] are the two clock readings. *)
Definition edit (fs : t) (filePath oldContent newContent : string)
    (now1 now2 : Z) : EditResult * t :=
  let normalizedPath := normalizePath fs filePath in
  match JsMap.get normalizedPath (files fs) with
  | None => (FileNotFound, fs)
  | Some file =>
      if negb (JsString.includes (VirtualFile.content file) oldContent)
      then (OldContentNotFound, fs)
      else
        let updatedContent :=
          JsString.replace (VirtualFile.content file) oldContent newContent in
        let file' :=
          {| VirtualFile.path := VirtualFile.path file;
             VirtualFile.content := updatedContent;
             VirtualFile.createdAt := VirtualFile.createdAt file;
             VirtualFile.modifiedAt := now1;
             VirtualFile.permissions := VirtualFile.permissions file |} in
        (EditOk,
         {| files := JsMap.set normalizedPath file' (files fs);
            operations := operations fs ++
              [ {| FileOperation.type := op_edit;
                   FileOperation.path := normalizedPath;
                   FileOperation.content := Some updatedContent;
                   FileOperation.timestamp := now2;
                   FileOperation.success := true |} ];
            workingDirectory := workingDirectory fs;
            rootPath := rootPath fs |})
  end.

(** [delete]: the result is [{ success }], the answer of [Map.delete]. *)
Definition delete (fs : t) (filePath : string) (now : Z) : bool * t :=
  let normalizedPath := normalizePath fs filePath in
  let success := JsMap.has normalizedPath (files fs) in
  (success,
   {| files := JsMap.remove normalizedPath (files fs);
      operations := operations fs ++
        [ {| FileOperation.type := op_delete;
             FileOperation.path := normalizedPath;
             FileOperation.content := None;
             FileOperation.timestamp := now;
             FileOperation.success := success |} ];
      workingDirectory := workingDirectory fs;
      rootPath := rootPath fs |}).

Definition exists_ (fs : t) (filePath : string) : bool :=
  JsMap.has (normalizePath fs filePath) (files fs).

(** [entries.add(x)] on a [Set] kept in insertion order *)
Definition set_add (x : string) (entries : list string) : list string :=
  if decide (x ∈ entries) then entries else entries ++ [x].

Definition listDirectory (fs : t) (dirPath : string) : list string :=
  let normalizedDir := normalizePath fs dirPath in
  foldl
    (fun entries kv =>
       let filePath := kv.1 in
       if JsString.startsWith filePath normalizedDir then
         let relativePath :=
           JsString.slice (String.length normalizedDir + 1) filePath in
         match JsString.split "/"%char relativePath with
         | part0 :: _ =>
             if JsString.truthy part0 then set_add part0 entries
             else entries
         | [] => entries
         end
       else entries)
    [] (files fs).

Definition getFileOperations (fs : t) : list FileOperation.t :=
  operations fs.

Definition reset (fs : t) : t :=
  {| files := JsMap.empty; operations := [];
     workingDirectory := rootPath fs; rootPath := rootPath fs |}.

End WithPath.

(** The name of an operation type, as the log spells it *)
Definition typeName (type : OperationType) : string :=
  match type with
  | op_read => "read"
  | op_write => "write"
  | op_delete => "delete"
  | op_edit => "edit"
  end.

Module Stats.
Record t : Type := mk {
  totalFiles : nat;
  totalOperations : nat;
  operationsByType : JsMap.t nat;
  totalBytes : nat
}.
End Stats.

(** [getStats]; the table [operationsByType] is an object keyed by the four
    type names. *)
Definition getStats (fs : t) : Stats.t :=
  {| Stats.totalFiles := length (files fs);
     Stats.totalOperations := length (operations fs);
     Stats.operationsByType :=
       foldl
         (fun acc op =>
            let type := typeName (FileOperation.type op) in
            JsMap.set type (default 0 (JsMap.get type acc) + 1)%nat acc)
         JsMap.empty (operations fs);
     Stats.totalBytes :=
       foldl
         (fun sum entry => (sum + String.length (VirtualFile.content entry.2))%nat)
         0%nat (files fs) |}.

End VirtualFileSystem.

(** A value that JavaScript treats as opaque data: tool parameters and tool
    results arrive as parsed JSON. *)
Inductive JsValue : Type :=
| JNull
| JBool (b : bool)
| JNumber (z : Z)
| JString (s : string)
| JArray (items : list JsValue)
| JObject (fields : list (string * JsValue)).

Module Test.
Record t : Type := mk {
  id : string;
  prompt : string;
  category : string;
  expectedBehavior : option string;
  evaluationCriteria : option (list (string * string));
  timeout : option Z
}.
End Test.

Module ToolCall.
Record t : Type := mk {
  toolName : string;
  parameters : JsValue;
  result : JsValue;
  executionTimeMs : Z;
  error : option string
}.
End ToolCall.

Inductive Role : Type := system | user | assistant.

Module Tokens.
Record t : Type := mk { input : Z; output : Z; thinking : option Z }.
End Tokens.

Module Message.
Record t : Type := mk {
  role : Role;
  content : string;
  thinking : option string;
  toolCalls : option (list ToolCall.t);
  timestamp : Z;
  tokens : option Tokens.t
}.
End Message.

Module ModelConfig.
Record t : Type := mk { model : string; temperature : Qc; maxTokens : Z }.
End ModelConfig.

Module ConversationHistory.
Record t : Type := mk {
  messages : list Message.t;
  totalDurationMs : Z;
  modelConfig : ModelConfig.t
}.
End ConversationHistory.

Module CommandExecution.
Record t : Type := mk {
  command : string;
  output : string;
  exitCode : Z;
  timestamp : Z;
  durationMs : Qc
}.
End CommandExecution.

(** ** Thrown values and completions *)

Module JsError.
(** An [Error] object *)
Record t : Type := mk { name : string; message : string }.

(** [Error.prototype.toString] *)
Definition toString (e : t) : string :=
  if decide (name e = EmptyString) then message e
  else if decide (message e = EmptyString) then name e
  else name e ++ ": " ++ message e.
End JsError.

Inductive Completion (A : Type) : Type :=
| Normal (a : A)
| Throw (e : JsError.t).
Arguments Normal {A} a.
Arguments Throw {A} e.

(** ** The data model, continued *)

Module ErrorEvent.
(** [message] is declared as a string.  [createFailedResult] stores
    [error.message || error] in it, which is the thrown value itself when
    the message of that value is empty. *)
Inductive Message : Type :=
| Text (text : string)
| Thrown (error : JsError.t).

Record t : Type := mk {
  type : string;
  message : Message;
  stack : option string;
  timestamp : Z;
  recovered : bool
}.
End ErrorEvent.

Module RawMetrics.
Record t : Type := mk {
  allToolCalls : list ToolCall.t;
  fileOperations : list FileOperation.t;
  commandsExecuted : list CommandExecution.t;
  errorsEncountered : list ErrorEvent.t;
  retryAttempts : Z
}.
End RawMetrics.

Module MetricScores.
Record t : Type := mk {
  correctness : Qc;
  speed : Qc;
  tokenEfficiency : Qc;
  documentation : Qc;
  codeQuality : Qc;
  security : Qc;
  instructionAdherence : Qc;
  consistency : Qc;
  errorRecovery : Qc
}.
End MetricScores.

Module TestResult.
Record t : Type := mk {
  id : option Z;
  testRunId : Z;
  testId : string;
  prompt : string;
  response : string;
  tokensInput : Z;
  tokensOutput : Z;
  tokensThinking : option Z;
  responseTimeMs : Z;
  scores : MetricScores.t;
  conversation : ConversationHistory.t;
  metricsRaw : RawMetrics.t
}.
End TestResult.

(** ** Numbers *)

Module JsMath.

Definition ofZ (z : Z) : Qc := Q2Qc (inject_Z z).
Definition ofNat (n : nat) : Qc := ofZ (Z.of_nat n).

Definition leb (a b : Qc) : bool := Qle_bool a b.
Definition ltb (a b : Qc) : bool := negb (Qle_bool b a).

(** [Math.min] and [Math.max] on finite numbers *)
Definition min (a b : Qc) : Qc := if leb a b then a else b.
Definition max (a b : Qc) : Qc := if leb a b then b else a.

(** [Math.floor] *)
Definition floor (a : Qc) : Z := Qfloor a.

Definition half : Qc := Q2Qc (1 # 2).

(** The value of [a / b] on integers; a zero divisor gives one of the
    three special values. *)
Inductive Quotient : Type :=
| Finite (q : Qc)
| PosInfinity
| NegInfinity
| NaN.

Definition div (a b : Z) : Quotient :=
  if decide (b = 0)%Z then
    if decide (0 < a)%Z then PosInfinity
    else if decide (a < 0)%Z then NegInfinity
    else NaN
  else Finite (ofZ a / ofZ b)%Qc.

End JsMath.

(** [JSON.stringify] on parsed JSON, for integers that print in plain
    decimal notation.  The functions that serialize tool parameters take the
    serializer as a parameter; this model is what the examples run on. *)

Module JSON.

Definition digit (n : nat) : ascii := ascii_of_nat (48 + n).

Fixpoint digitsOf (fuel : nat) (n : N) (acc : string) : string :=
  match fuel with
  | O => acc
  | S fuel' =>
      let acc' := String (digit (N.to_nat (n mod 10))) acc in
      if (n <? 10)%N then acc' else digitsOf fuel' (n / 10)%N acc'
  end.

Definition number (z : Z) : string :=
  let n := Z.abs_N z in
  let ds := digitsOf (S (N.size_nat n)) n EmptyString in
  if decide (z < 0)%Z then "-" ++ ds else ds.

Definition hexDigit (n : nat) : ascii :=
  if Nat.ltb n 10 then ascii_of_nat (48 + n) else ascii_of_nat (87 + n).

Definition backslash : ascii := ascii_of_nat 92.
Definition dquote : ascii := ascii_of_nat 34.

(** QuoteJSONString, code unit by code unit *)
Definition quoteChar (c : ascii) : string :=
  let n := nat_of_ascii c in
  if Nat.eqb n 34 then String backslash (String dquote EmptyString)
  else if Nat.eqb n 92 then String backslash (String backslash EmptyString)
  else if Nat.eqb n 8 then String backslash "b"
  else if Nat.eqb n 9 then String backslash "t"
  else if Nat.eqb n 10 then String backslash "n"
  else if Nat.eqb n 12 then String backslash "f"
  else if Nat.eqb n 13 then String backslash "r"
  else if Nat.ltb n 32 then
    String backslash "u00"
      ++ String (hexDigit (n / 16)) (String (hexDigit (n mod 16)) EmptyString)
  else String c EmptyString.

Fixpoint quoteBody (s : string) : string :=
  match s with
  | EmptyString => EmptyString
  | String c s' => quoteChar c ++ quoteBody s'
  end.

Definition quote (s : string) : string :=
  String dquote (quoteBody s ++ String dquote EmptyString).

Fixpoint stringify (v : JsValue) : string :=
  match v with
  | JNull => "null"
  | JBool true => "true"
  | JBool false => "false"
  | JNumber z => number z
  | JString s => quote s
  | JArray items =>
      "[" ++ NodePath.joinWith "," (map stringify items) ++ "]"
  | JObject fields =>
      "{" ++ NodePath.joinWith ","
               (map (fun kv => quote kv.1 ++ ":" ++ stringify kv.2) fields)
          ++ "}"
  end.

End JSON.

(** ** The evaluators ([src/evaluators/*.ts]) *)

Module BaseEvaluator.

Record t : Type := mk {
  metricName : string;
  description : string;
  evaluate :
    Test.t -> TestResult.t -> ConversationHistory.t -> RawMetrics.t ->
    Completion Qc
}.

Definition normalizeScoreIn (value min max : Qc) : Qc :=
  JsMath.min max (JsMath.max min value).

(** [normalizeScore(value)] with the default bounds 0 and 10 *)
Definition normalizeScore (value : Qc) : Qc :=
  normalizeScoreIn value (JsMath.ofZ 0) (JsMath.ofZ 10).

(** [calculatePercentageScore], on finite numbers, with the operations in
    the order of the code.  The numbers are exact here and floating-point
    numbers in the code, so the properties stated of this function are those
    that rounding keeps. *)
Definition calculatePercentageScore (achieved total : Qc) : Qc :=
  if decide (total = JsMath.ofZ 0) then JsMath.ofZ 10
  else
    let percentage := (achieved / total * JsMath.ofZ 100)%Qc in
    normalizeScore (percentage / JsMath.ofZ 10)%Qc.

End BaseEvaluator.

Module CorrectnessEvaluator.
Import JsMath BaseEvaluator.

Definition metricName : string := "correctness".
Definition description : string :=
  "Evaluates if the output correctly solves the problem".

Definition extractKeywords (text : string) : list string :=
  filter (fun word => 3 < String.length word)%nat
         (JsString.splitNonWord (JsString.toLowerCase text)).

Definition calculateKeywordMatch (expected actual : list string) : Qc :=
  if decide (length expected = 0)%nat then ofZ 1
  else
    let matches := filter (fun keyword => keyword ∈ actual) expected in
    (ofNat (length matches) / ofNat (length expected))%Qc.

(** The score after the error penalties *)
Definition errorPenalty (metrics : RawMetrics.t) (score : Qc) : Qc :=
  let errors := RawMetrics.errorsEncountered metrics in
  if decide (0 < length errors)%nat then
    let unrecoveredErrors :=
      filter (fun e => ErrorEvent.recovered e = false) errors in
    (score - ofNat (length unrecoveredErrors) * ofZ 2
           - (ofNat (length errors) - ofNat (length unrecoveredErrors)) * half)%Qc
  else score.

(** The score after the retry penalty *)
Definition retryPenalty (metrics : RawMetrics.t) (score : Qc) : Qc :=
  if decide (0 < RawMetrics.retryAttempts metrics)%Z
  then (score - ofZ (RawMetrics.retryAttempts metrics) * half)%Qc
  else score.

Definition evaluate (test : Test.t) (result : TestResult.t)
    (conversation : ConversationHistory.t) (metrics : RawMetrics.t) : Qc :=
  let score := ofZ 10 in
  let score := errorPenalty metrics score in
  let score := retryPenalty metrics score in
  let score :=
    if negb (JsString.truthy (TestResult.response result))
       || JsString.includes (TestResult.response result) "Test failed:"
    then ofZ 0 else score in
  let score :=
    match Test.expectedBehavior test with
    | Some expectedBehavior =>
        if JsString.truthy expectedBehavior then
          let keywords := extractKeywords expectedBehavior in
          let responseKeywords :=
            extractKeywords (TestResult.response result) in
          let matchRate := calculateKeywordMatch keywords responseKeywords in
          min score (matchRate * ofZ 10)%Qc
        else score
    | None => score
    end in
  normalizeScore score.

Definition evaluator : BaseEvaluator.t :=
  {| BaseEvaluator.metricName := metricName;
     BaseEvaluator.description := description;
     BaseEvaluator.evaluate := fun t r c m => Normal (evaluate t r c m) |}.

End CorrectnessEvaluator.

Module SpeedEvaluator.
Import JsMath BaseEvaluator.

Definition metricName : string := "speed".
Definition description : string :=
  "Evaluates response time and execution efficiency".

Definition excellent : Z := 2000.
Definition good : Z := 5000.
Definition acceptable : Z := 10000.
Definition slow : Z := 20000.

Definition evaluate (test : Test.t) (result : TestResult.t)
    (conversation : ConversationHistory.t) (metrics : RawMetrics.t) : Qc :=
  let responseTime := TestResult.responseTimeMs result in
  if decide (responseTime ≤ excellent)%Z then ofZ 10
  else if decide (responseTime ≤ good)%Z then ofZ 8
  else if decide (responseTime ≤ acceptable)%Z then ofZ 6
  else if decide (responseTime ≤ slow)%Z then ofZ 4
  else
    let overSlowBy := (responseTime - slow)%Z in
    let penalty := (overSlowBy / 10000)%Z in
    normalizeScore (ofZ 3 - ofZ penalty)%Qc.

Definition evaluator : BaseEvaluator.t :=
  {| BaseEvaluator.metricName := metricName;
     BaseEvaluator.description := description;
     BaseEvaluator.evaluate := fun t r c m => Normal (evaluate t r c m) |}.

End SpeedEvaluator.

Module TokenEfficiencyEvaluator.
Import JsMath BaseEvaluator.

Definition metricName : string := "tokenEfficiency".
Definition description : string := "Evaluates token usage optimization".

(** The banding of [outputTokens / inputTokens].  A comparison with NaN
    is false, so NaN falls through every branch; [+Infinity > 5] and
    [Math.min(3, Math.floor(+Infinity))] is 3; [-Infinity < 0.5]. *)
Definition ratioScore (outputRatio : Quotient) : Qc :=
  match outputRatio with
  | NaN => ofZ 10
  | NegInfinity => ofZ 6
  | PosInfinity => (ofZ 5 - ofZ 3)%Qc
  | Finite r =>
      if ltb r half then ofZ 6
      else if ltb (ofZ 5) r then
        (ofZ 5 - min (ofZ 3) (ofZ (floor ((r - ofZ 5) / ofZ 2))))%Qc
      else if ltb (ofZ 3) r then ofZ 8
      else ofZ 10
  end.

Definition totalScore (totalTokens : Z) : Qc :=
  if decide (10000 < totalTokens)%Z then ofZ 5
  else if decide (5000 < totalTokens)%Z then ofZ 7
  else if decide (3000 < totalTokens)%Z then ofZ 9
  else ofZ 10.

Section WithSerializer.
Variable JSON_stringify : JsValue -> string.

Definition signature (call : ToolCall.t) : string :=
  ToolCall.toolName call ++ ":" ++ JSON_stringify (ToolCall.parameters call).

(** One step of the inner [forEach]: the state is the signature table
    and the running number of duplicates. *)
Definition countStep (st : gmap string nat * nat) (call : ToolCall.t)
  : gmap string nat * nat :=
  let '(toolCallSignatures, duplicates) := st in
  let signature := signature call in
  let count := (default 0 (toolCallSignatures !! signature) + 1)%nat in
  let toolCallSignatures := <[signature := count]> toolCallSignatures in
  (toolCallSignatures,
   if decide (1 < count)%nat then S duplicates else duplicates).

Definition countDuplicateToolCalls (conversation : ConversationHistory.t)
  : nat :=
  (foldl
     (fun st message =>
        match Message.toolCalls message with
        | Some calls => foldl countStep st calls
        | None => st
        end)
     (∅, 0%nat)
     (ConversationHistory.messages conversation)).2.

Definition evaluate (test : Test.t) (result : TestResult.t)
    (conversation : ConversationHistory.t) (metrics : RawMetrics.t) : Qc :=
  let inputTokens := TestResult.tokensInput result in
  let outputTokens := TestResult.tokensOutput result in
  let thinkingTokens :=
    match TestResult.tokensThinking result with
    | Some n => n
    | None => 0%Z
    end in
  let totalTokens := (inputTokens + outputTokens + thinkingTokens)%Z in
  let outputRatio := div outputTokens inputTokens in
  let ratioScore := ratioScore outputRatio in
  let totalScore := totalScore totalTokens in
  let wasteScore := ofZ 10 in
  let duplicateTools := countDuplicateToolCalls conversation in
  let wasteScore :=
    if decide (0 < duplicateTools)%nat
    then (wasteScore - ofNat duplicateTools * ofZ 2)%Qc
    else wasteScore in
  let finalScore := ((ratioScore + totalScore + wasteScore) / ofZ 3)%Qc in
  normalizeScore finalScore.

Definition evaluator : BaseEvaluator.t :=
  {| BaseEvaluator.metricName := metricName;
     BaseEvaluator.description := description;
     BaseEvaluator.evaluate := fun t r c m => Normal (evaluate t r c m) |}.

End WithSerializer.

End TokenEfficiencyEvaluator.

Module CodeQualityEvaluator.
Import JsMath BaseEvaluator.

Definition metricName : string := "codeQuality".
Definition description : string :=
  "Evaluates code structure, readability, and best practices".

Definition countEditsWithoutRead (fileOps : list FileOperation.t) : nat :=
  (foldl
     (fun st op =>
        let '(readFiles, editsWithoutRead) := st in
        match FileOperation.type op with
        | op_read => ({[FileOperation.path op]} ∪ readFiles, editsWithoutRead)
        | op_edit =>
            if decide (FileOperation.path op ∈ readFiles)
            then st else (readFiles, S editsWithoutRead)
        | op_write => st
        | op_delete => st
        end)
     ((∅ : gset string), 0%nat) fileOps).2.

Definition errorHandlingKeywords : list string :=
  ["try"; "catch"; "error"; "exception"; "handle"; "validate"].

Definition checkErrorHandling (conversation : ConversationHistory.t) : bool :=
  existsb
    (fun msg =>
       match Message.role msg with
       | assistant =>
           existsb
             (fun keyword =>
                JsString.includes
                  (JsString.toLowerCase (Message.content msg)) keyword)
             errorHandlingKeywords
       | _ => false
       end)
    (ConversationHistory.messages conversation).

Definition checkFileStructure (fileOps : list FileOperation.t) : bool :=
  let paths := map FileOperation.path fileOps in
  existsb
    (fun path =>
       JsString.includes path "/"
       && Nat.ltb 2 (length (JsString.split "/"%char path)))
    paths.

(** [ops.sort((a, b) => a.timestamp - b.timestamp)]: the sort is stable. *)
Fixpoint insertByTimestamp (op : FileOperation.t) (sorted : list FileOperation.t)
  : list FileOperation.t :=
  match sorted with
  | [] => [op]
  | op' :: rest =>
      if decide (FileOperation.timestamp op ≤ FileOperation.timestamp op')%Z
      then op :: sorted
      else op' :: insertByTimestamp op rest
  end.

Definition sortByTimestamp (ops : list FileOperation.t) : list FileOperation.t :=
  foldr insertByTimestamp [] ops.

(** The loop over [i = 1 .. ops.length - 1]: the pair (consistent, total). *)
Fixpoint countSequences (ops : list FileOperation.t) : nat * nat :=
  match ops with
  | prev :: (cur :: _) as rest =>
      let '(consistentSequences, totalSequences) := countSequences rest in
      (if bool_decide (FileOperation.path cur = FileOperation.path prev)
          || bool_decide
               (Z.abs (FileOperation.timestamp cur - FileOperation.timestamp prev)
                < 5000)%Z
       then S consistentSequences else consistentSequences,
       S totalSequences)
  | _ => (0%nat, 0%nat)
  end.

Definition checkOperationConsistency (metrics : RawMetrics.t) : Qc :=
  let ops := sortByTimestamp (RawMetrics.fileOperations metrics) in
  if decide (length ops < 2)%nat then ofZ 1
  else
    let '(consistentSequences, totalSequences) := countSequences ops in
    if decide (0 < totalSequences)%nat
    then (ofNat consistentSequences / ofNat totalSequences)%Qc
    else ofZ 1.

Definition evaluate (test : Test.t) (result : TestResult.t)
    (conversation : ConversationHistory.t) (metrics : RawMetrics.t) : Qc :=
  let score := ofZ 8 in
  let fileOps := RawMetrics.fileOperations metrics in
  let editsWithoutRead := countEditsWithoutRead fileOps in
  let score :=
    if decide (0 < editsWithoutRead)%nat
    then (score - ofNat editsWithoutRead * Q2Qc (3 # 2))%Qc else score in
  let hasErrorHandling := checkErrorHandling conversation in
  let score :=
    if negb hasErrorHandling
       && bool_decide (0 < length (RawMetrics.errorsEncountered metrics))%nat
    then (score - ofZ 2)%Qc else score in
  let hasGoodStructure := checkFileStructure fileOps in
  let score := if hasGoodStructure then (score + ofZ 1)%Qc else score in
  let consistency := checkOperationConsistency metrics in
  let score := (score + (consistency * ofZ 2 - ofZ 1))%Qc in
  normalizeScore score.

Definition evaluator : BaseEvaluator.t :=
  {| BaseEvaluator.metricName := metricName;
     BaseEvaluator.description := description;
     BaseEvaluator.evaluate := fun t r c m => Normal (evaluate t r c m) |}.

End CodeQualityEvaluator.

(** The placeholder of [evaluator-manager.ts] *)
Module PlaceholderEvaluator.
Import JsMath BaseEvaluator.

Definition evaluate (test : Test.t) (result : TestResult.t)
    (conversation : ConversationHistory.t) (metrics : RawMetrics.t) : Qc :=
  let score := ofZ 7 in
  let score :=
    if decide (0 < length (RawMetrics.errorsEncountered metrics))%nat
    then (score - ofZ 1)%Qc else score in
  let score :=
    if decide (String.length (TestResult.response result) < 50)%nat
    then (score - ofZ 2)%Qc
    else if decide (500 < String.length (TestResult.response result))%nat
         then (score + ofZ 1)%Qc else score in
  normalizeScore score.

Definition create (metricName description : string) : BaseEvaluator.t :=
  {| BaseEvaluator.metricName := metricName;
     BaseEvaluator.description := description;
     BaseEvaluator.evaluate := fun t r c m => Normal (evaluate t r c m) |}.

End PlaceholderEvaluator.

Module EvaluatorManager.

(** The manager is its registry. *)
Abbreviation t := (JsMap.t BaseEvaluator.t).

Definition registerEvaluator (evaluator : BaseEvaluator.t) (this : t) : t :=
  JsMap.set (BaseEvaluator.metricName evaluator) evaluator this.

(** The neutral score of a unit that throws *)
Definition defaultScore : Qc := JsMath.ofZ 5.

(** [object[key] = value] on a plain object, for a value that is a number
    or a string: the key [__proto__] reaches the setter of the prototype,
    which ignores such a value, and no property is created.  The properties
    are kept in the order of their creation. *)
Definition assign {V : Type} (key : string) (value : V) (object : JsMap.t V)
  : JsMap.t V :=
  if decide (key = "__proto__") then object else JsMap.set key value object.

(** [evaluateAll]: the object [scores], keyed by metric name *)
Definition evaluateAll (this : t) (test : Test.t) (result : TestResult.t)
  : JsMap.t Qc :=
  foldl
    (fun scores entry =>
       let '(metricName, evaluator) := entry in
       match BaseEvaluator.evaluate evaluator test result
               (TestResult.conversation result) (TestResult.metricsRaw result)
       with
       | Normal score => assign metricName score scores
       | Throw error => assign metricName defaultScore scores
       end)
    JsMap.empty this.

Definition getEvaluatorDescriptions (this : t) : JsMap.t string :=
  foldl
    (fun descriptions entry =>
       assign entry.1 (BaseEvaluator.description entry.2) descriptions)
    JsMap.empty this.

Section WithSerializer.
Variable JSON_stringify : JsValue -> string.

Definition registerDefaultEvaluators (this : t) : t :=
  let this := registerEvaluator CorrectnessEvaluator.evaluator this in
  let this := registerEvaluator SpeedEvaluator.evaluator this in
  let this :=
    registerEvaluator (TokenEfficiencyEvaluator.evaluator JSON_stringify) this in
  let this := registerEvaluator CodeQualityEvaluator.evaluator this in
  let this := registerEvaluator
    (PlaceholderEvaluator.create "documentation"
       "Quality of explanations and comments") this in
  let this := registerEvaluator
    (PlaceholderEvaluator.create "security" "Security best practices") this in
  let this := registerEvaluator
    (PlaceholderEvaluator.create "instructionAdherence"
       "Following CLAUDE.md instructions") this in
  let this := registerEvaluator
    (PlaceholderEvaluator.create "consistency"
       "Consistent behavior across similar prompts") this in
  registerEvaluator
    (PlaceholderEvaluator.create "errorRecovery"
       "Ability to handle and recover from errors") this.

(** [new EvaluatorManager()] *)
Definition create : t := registerDefaultEvaluators JsMap.empty.

End WithSerializer.

End EvaluatorManager.

(** ** The process-based runner ([src/execution/claude-code-runner.ts]) *)

(** What the operating system answers during one [executeTest]: the clock
    readings, the file-system calls and the fate of the spawned process. *)
Module World.

(** How the child process ends by itself: its ['close'] event with the
    exit code, or its ['error'] event with the message of the error. *)
Inductive Ending : Type :=
| Closes (code : option Z)
| Fails (message : string).

(** The spawned child process.  An instant is the number of an iteration
    of the event loop, counted from [spawn]; within one iteration the timers
    phase comes before the phases that deliver the events of the child. *)
Record Process : Type := mkProcess {
  ending : option (Z * Ending);   (* the instant and the kind of the first
                                     ['close'] or ['error'] event; [None]
                                     when the child does not end by itself *)
  stdoutBy : Z -> string;         (* the data that stdout delivered by an instant *)
  stderrBy : Z -> string          (* the same for stderr *)
}.

Record t : Type := mk {
  now_start : Z;                          (* [Date.now()] on entry *)
  now_workspace : Z;                      (* [Date.now()] in the workspace id *)
  mkdir : string -> option JsError.t;     (* [fs.mkdir]: the rejection, if any *)
  writeFile : string -> string -> option JsError.t;
  now_spawn : Z;                          (* [Date.now()] before [spawn] *)
  spawn : list string -> string -> Completion Process;
  timerAt : Z -> Z;                       (* [setTimeout(f, delay)]: the instant at
                                             which [f] runs unless the timer is
                                             cleared before *)
  nowAt : Z -> Z;                         (* [Date.now()] in a handler that runs
                                             at an instant *)
  listFilesRecursively : string -> list string;
  now_file : string -> Z;                 (* [Date.now()] when a file is recorded *)
  now_error : Z;                          (* [Date.now()] in the error event *)
  now_failure : Z                         (* [Date.now()] in [createFailedResult] *)
}.

End World.

Module ExecutionResult.
Record t : Type := mk {
  output : string;
  exitCode : Z;
  duration : Z;
  error : option string
}.
End ExecutionResult.

Module ClaudeCodeRunnerConfig.
Record t : Type := mk {
  workspaceDir : option string;
  timeout : option Z;
  useSkipPermissions : option bool
}.
End ClaudeCodeRunnerConfig.

Module ClaudeCodeRunner.

(** The runner is its completed configuration. *)
Record t : Type := mk {
  workspaceDir : string;
  timeout : Z;
  useSkipPermissions : bool
}.

(** [a || b] on an optional string *)
Definition orString (a : option string) (b : string) : string :=
  match a with
  | Some s => if JsString.truthy s then s else b
  | None => b
  end.

(** [a || b] on an optional number *)
Definition orNumber (a : option Z) (b : Z) : Z :=
  match a with
  | Some n => if decide (n = 0)%Z then b else n
  | None => b
  end.

Definition create (config : ClaudeCodeRunnerConfig.t) : t :=
  {| workspaceDir :=
       orString (ClaudeCodeRunnerConfig.workspaceDir config) "./test-workspaces";
     timeout := orNumber (ClaudeCodeRunnerConfig.timeout config) 120000;
     useSkipPermissions :=
       default true (ClaudeCodeRunnerConfig.useSkipPermissions config) |}.

(** [Math.ceil(text.length / 4)] *)
Definition estimateTokens (text : string) : Z :=
  ((Z.of_nat (String.length text) + 3) / 4)%Z.

Definition runClaudeCode (this : t) (w : World.t)
    (workspacePath prompt : string) (timeout : Z)
  : Completion ExecutionResult.t :=
  let startTime := World.now_spawn w in
  let args := ["--working-directory"; workspacePath] in
  let args :=
    if useSkipPermissions this
    then (args ++ ["--dangerously-skip-permissions"])%list else args in
  let args := (args ++ [prompt])%list in
  match World.spawn w args workspacePath with
  | Throw e => Throw e
  | Normal claudeProcess =>
      (* [setTimeout(..., timeout)]: of the three handlers the one that
         runs first resolves the promise; the handlers of the child clear
         the timer *)
      let fires := World.timerAt w timeout in
      let timedOut :=
        {| ExecutionResult.output :=
             World.stdoutBy claudeProcess fires
               ++ String (ascii_of_nat 10) "[TIMEOUT]";
           ExecutionResult.exitCode := 124;
           ExecutionResult.duration := World.nowAt w fires - startTime;
           ExecutionResult.error := Some "Process timed out" |} in
      match World.ending claudeProcess with
      | None => Normal timedOut
      | Some (instant, ending) =>
          if bool_decide (fires ≤ instant)%Z then Normal timedOut
          else
            match ending with
            | World.Closes code =>
                let output := World.stdoutBy claudeProcess instant in
                let errorOutput := World.stderrBy claudeProcess instant in
                Normal {| ExecutionResult.output :=
                            if JsString.truthy output then output
                            else errorOutput;
                          ExecutionResult.exitCode := orNumber code 0;
                          ExecutionResult.duration :=
                            World.nowAt w instant - startTime;
                          ExecutionResult.error :=
                            if JsString.truthy errorOutput
                            then Some errorOutput else None |}
            | World.Fails message =>
                Normal {| ExecutionResult.output :=
                            "Error executing claude: " ++ message;
                          ExecutionResult.exitCode := 1;
                          ExecutionResult.duration :=
                            World.nowAt w instant - startTime;
                          ExecutionResult.error := Some message |}
            end
      end
  end.

Definition collectMetrics (w : World.t) (workspacePath : string)
    (executionResult : ExecutionResult.t) : RawMetrics.t :=
  let files := World.listFilesRecursively w workspacePath in
  let fileOperations :=
    map (fun file =>
           {| FileOperation.type := op_write;
              FileOperation.path := file;
              FileOperation.content := None;
              FileOperation.timestamp := World.now_file w file;
              FileOperation.success := true |})
        (filter (fun file => JsString.endsWith file "CLAUDE.md" = false) files) in
  let commandsExecuted := [] in
  let hasError :=
    match ExecutionResult.error executionResult with
    | Some e => JsString.truthy e
    | None => false
    end in
  let errorsEncountered :=
    if hasError || negb (Z.eqb (ExecutionResult.exitCode executionResult) 0)
    then [ {| ErrorEvent.type := "execution_error";
              ErrorEvent.message :=
                ErrorEvent.Text
                  (orString (ExecutionResult.error executionResult)
                            "Process exited with non-zero code");
              ErrorEvent.stack := None;
              ErrorEvent.timestamp := World.now_error w;
              ErrorEvent.recovered := false |} ]
    else [] in
  {| RawMetrics.allToolCalls := [];
     RawMetrics.fileOperations := fileOperations;
     RawMetrics.commandsExecuted := commandsExecuted;
     RawMetrics.errorsEncountered := errorsEncountered;
     RawMetrics.retryAttempts := 0 |}.

Section WithPath.
Variable path_join : string -> string -> string.

Definition executeTest (this : t) (w : World.t)
    (claudeMdContent : string) (test : Test.t) (testRunId : Z)
  : Completion TestResult.t :=
  let startTime := World.now_start w in
  let workspaceId :=
    "test-" ++ JSON.number testRunId ++ "-" ++ Test.id test ++ "-"
            ++ JSON.number (World.now_workspace w) in
  let workspacePath := path_join (workspaceDir this) workspaceId in
  match World.mkdir w workspacePath with
  | Some e => Throw e
  | None =>
  let claudeMdPath := path_join workspacePath "CLAUDE.md" in
  match World.writeFile w claudeMdPath claudeMdContent with
  | Some e => Throw e
  | None =>
  match runClaudeCode this w workspacePath (Test.prompt test)
          (orNumber (Test.timeout test) (timeout this)) with
  | Throw e => Throw e
  | Normal executionResult =>
  let rawMetrics := collectMetrics w workspacePath executionResult in
  let scores :=
    {| MetricScores.correctness := JsMath.ofZ 7;
       MetricScores.speed :=
         if decide (ExecutionResult.duration executionResult < 30000)%Z
         then JsMath.ofZ 9 else JsMath.ofZ 6;
       MetricScores.tokenEfficiency := JsMath.ofZ 7;
       MetricScores.documentation := JsMath.ofZ 7;
       MetricScores.codeQuality := JsMath.ofZ 7;
       MetricScores.security := JsMath.ofZ 7;
       MetricScores.instructionAdherence := JsMath.ofZ 7;
       MetricScores.consistency := JsMath.ofZ 7;
       MetricScores.errorRecovery :=
         if decide (ExecutionResult.exitCode executionResult = 0)%Z
         then JsMath.ofZ 8 else JsMath.ofZ 4 |} in
  let output := ExecutionResult.output executionResult in
  Normal
    {| TestResult.id := None;
       TestResult.testRunId := testRunId;
       TestResult.testId := Test.id test;
       TestResult.prompt := Test.prompt test;
       TestResult.response := output;
       TestResult.tokensInput :=
         estimateTokens (Test.prompt test ++ claudeMdContent);
       TestResult.tokensOutput := estimateTokens output;
       TestResult.tokensThinking := None;
       TestResult.responseTimeMs := ExecutionResult.duration executionResult;
       TestResult.scores := scores;
       TestResult.conversation :=
         {| ConversationHistory.messages :=
              [ {| Message.role := user;
                   Message.content := Test.prompt test;
                   Message.thinking := None;
                   Message.toolCalls := None;
                   Message.timestamp := startTime;
                   Message.tokens :=
                     Some {| Tokens.input := estimateTokens (Test.prompt test);
                             Tokens.output := 0;
                             Tokens.thinking := None |} |};
                {| Message.role := assistant;
                   Message.content := output;
                   Message.thinking := None;
                   Message.toolCalls := None;
                   Message.timestamp :=
                     (startTime + ExecutionResult.duration executionResult)%Z;
                   Message.tokens :=
                     Some {| Tokens.input := 0;
                             Tokens.output := estimateTokens output;
                             Tokens.thinking := None |} |} ];
            ConversationHistory.totalDurationMs :=
              ExecutionResult.duration executionResult;
            ConversationHistory.modelConfig :=
              {| ModelConfig.model := "claude-code";
                 ModelConfig.temperature := JsMath.ofZ 0;
                 ModelConfig.maxTokens := 0 |} |};
       TestResult.metricsRaw := rawMetrics |}
  end end end.

End WithPath.

End ClaudeCodeRunner.

(** ** The suite driver ([src/runners/test-runner.ts]) *)

Module ClaudeFile.
Record t : Type := mk {
  id : option Z;
  name : string;
  content : string;
  hash : string;
  createdAt : Z;
  description : option string
}.
End ClaudeFile.

Module TestSuite.
Record t : Type := mk {
  id : string;
  version : string;
  name : string;
  description : option string;
  tests : list Test.t
}.
End TestSuite.

Inductive RunStatus : Type := pending | running | completed | failed.

Module TestRun.
Record t : Type := mk {
  id : option Z;
  claudeFileId : option Z;
  testSuiteVersion : string;
  startedAt : Z;
  completedAt : option Z;
  status : RunStatus
}.
End TestRun.

Module TestSummary.
Record t : Type := mk {
  totalTests : nat;
  passedTests : nat;
  failedTests : nat;
  averageScores : MetricScores.t;
  totalTokensUsed : Z;
  totalTimeMs : Z;
  successRate : Qc
}.
End TestSummary.

(** The configuration object the driver is built from; [run.ts] also passes
    the three model settings that [createFailedResult] reads. *)
Module TestRunnerConfig.
Record t : Type := mk {
  workspaceDir : option string;
  timeout : option Z;
  useSkipPermissions : option bool;
  model : option string;
  temperature : option Qc;
  maxTokens : option Z
}.
End TestRunnerConfig.

(** The observers of a suite run; a callback answers with the value it
    throws, if it throws. *)
Module Callbacks.
Record t : Type := mk {
  onTestStart : option (Test.t -> option JsError.t);
  onTestComplete : option (Test.t -> TestResult.t -> option JsError.t);
  onProgress : option (nat -> nat -> option JsError.t)
}.
End Callbacks.

Module TestRunner.

Record t : Type := mk {
  runner : ClaudeCodeRunner.t;
  config : TestRunnerConfig.t;
  evaluatorManager : EvaluatorManager.t
}.

Definition extractErrors (conversation : ConversationHistory.t)
  : list ErrorEvent.t :=
  foldl
    (fun (errors : list ErrorEvent.t) msg =>
       match Message.toolCalls msg with
       | Some calls =>
           foldl
             (fun (errors : list ErrorEvent.t) call =>
                match ToolCall.error call with
                | Some e =>
                    if JsString.truthy e then
                      (errors ++
                        [ {| ErrorEvent.type := "tool_error";
                             ErrorEvent.message := ErrorEvent.Text e;
                             ErrorEvent.stack := None;
                             ErrorEvent.timestamp := Message.timestamp msg;
                             ErrorEvent.recovered := false |} ])%list
                    else errors
                | None => errors
                end)
             errors calls
       | None => errors
       end)
    [] (ConversationHistory.messages conversation).

(** [`${error.message || error}`] *)
Definition errorText (error : JsError.t) : string :=
  if JsString.truthy (JsError.message error) then JsError.message error
  else JsError.toString error.

Definition zeroScores : MetricScores.t :=
  {| MetricScores.correctness := JsMath.ofZ 0;
     MetricScores.speed := JsMath.ofZ 0;
     MetricScores.tokenEfficiency := JsMath.ofZ 0;
     MetricScores.documentation := JsMath.ofZ 0;
     MetricScores.codeQuality := JsMath.ofZ 0;
     MetricScores.security := JsMath.ofZ 0;
     MetricScores.instructionAdherence := JsMath.ofZ 0;
     MetricScores.consistency := JsMath.ofZ 0;
     MetricScores.errorRecovery := JsMath.ofZ 0 |}.

(** [error.message || error]: the message when it is not empty, the thrown
    value itself otherwise. *)
Definition messageOrError (error : JsError.t) : ErrorEvent.Message :=
  if JsString.truthy (JsError.message error)
  then ErrorEvent.Text (JsError.message error)
  else ErrorEvent.Thrown error.

(** [createFailedResult]; [now] is its clock reading. *)
Definition createFailedResult (this : t) (test : Test.t) (testRunId : Z)
    (error : JsError.t) (now : Z) : TestResult.t :=
  {| TestResult.id := None;
     TestResult.testRunId := testRunId;
     TestResult.testId := Test.id test;
     TestResult.prompt := Test.prompt test;
     TestResult.response := "Test failed: " ++ errorText error;
     TestResult.tokensInput := 0;
     TestResult.tokensOutput := 0;
     TestResult.tokensThinking := None;
     TestResult.responseTimeMs := 0;
     TestResult.scores := zeroScores;
     TestResult.conversation :=
       {| ConversationHistory.messages := [];
          ConversationHistory.totalDurationMs := 0;
          ConversationHistory.modelConfig :=
            {| ModelConfig.model :=
                 ClaudeCodeRunner.orString
                   (TestRunnerConfig.model (config this)) EmptyString;
               ModelConfig.temperature :=
                 default (JsMath.ofZ 0) (TestRunnerConfig.temperature (config this));
               ModelConfig.maxTokens :=
                 ClaudeCodeRunner.orNumber
                   (TestRunnerConfig.maxTokens (config this)) 0 |} |};
     TestResult.metricsRaw :=
       {| RawMetrics.allToolCalls := [];
          RawMetrics.fileOperations := [];
          RawMetrics.commandsExecuted := [];
          RawMetrics.errorsEncountered :=
            [ {| ErrorEvent.type := "test_failure";
                 ErrorEvent.message := messageOrError error;
                 ErrorEvent.stack := None;
                 ErrorEvent.timestamp := now;
                 ErrorEvent.recovered := false |} ];
          RawMetrics.retryAttempts := 0 |} |}.

(** The sum of one score over the results.  The sums and the averages of
    [calculateSummary] are exact here and floating-point numbers in the
    code, so what is stated of the summary is what rounding keeps. *)
Definition sumScores (f : MetricScores.t -> Qc) (results : list TestResult.t)
  : Qc :=
  foldl (fun acc r => (acc + f (TestResult.scores r))%Qc) (JsMath.ofZ 0) results.

Definition calculateSummary (results : list TestResult.t) : TestSummary.t :=
  let totalTests := length results in
  let failedTests :=
    length (filter
              (fun r => MetricScores.correctness (TestResult.scores r)
                        = JsMath.ofZ 0) results) in
  let passedTests := (totalTests - failedTests)%nat in
  let avg f :=
    if decide (0 < totalTests)%nat
    then (sumScores f results / JsMath.ofNat totalTests)%Qc
    else JsMath.ofZ 0 in
  {| TestSummary.totalTests := totalTests;
     TestSummary.passedTests := passedTests;
     TestSummary.failedTests := failedTests;
     TestSummary.averageScores :=
       {| MetricScores.correctness := avg MetricScores.correctness;
          MetricScores.speed := avg MetricScores.speed;
          MetricScores.tokenEfficiency := avg MetricScores.tokenEfficiency;
          MetricScores.documentation := avg MetricScores.documentation;
          MetricScores.codeQuality := avg MetricScores.codeQuality;
          MetricScores.security := avg MetricScores.security;
          MetricScores.instructionAdherence :=
            avg MetricScores.instructionAdherence;
          MetricScores.consistency := avg MetricScores.consistency;
          MetricScores.errorRecovery := avg MetricScores.errorRecovery |};
     TestSummary.totalTokensUsed :=
       foldl (fun sum r =>
                (sum + TestResult.tokensInput r + TestResult.tokensOutput r
                 + default 0 (TestResult.tokensThinking r))%Z) 0%Z results;
     TestSummary.totalTimeMs :=
       foldl (fun sum r => (sum + TestResult.responseTimeMs r)%Z) 0%Z results;
     TestSummary.successRate :=
       if decide (0 < totalTests)%nat
       then (JsMath.ofNat passedTests / JsMath.ofNat totalTests)%Qc
       else JsMath.ofZ 0 |}.

(** [callbacks?.f?.(...)]: nothing happens when the observer is absent. *)
Definition notify {A : Type} (callbacks : option Callbacks.t)
    (f : Callbacks.t -> option A) (call : A -> option JsError.t)
  : option JsError.t :=
  match callbacks with
  | Some cb => match f cb with Some g => call g | None => None end
  | None => None
  end.

Section WithRuntime.
Variable path_join : string -> string -> string.
Variable JSON_stringify : JsValue -> string.

Definition create (config : TestRunnerConfig.t) : t :=
  {| runner :=
       ClaudeCodeRunner.create
         {| ClaudeCodeRunnerConfig.workspaceDir :=
              TestRunnerConfig.workspaceDir config;
            ClaudeCodeRunnerConfig.timeout := TestRunnerConfig.timeout config;
            ClaudeCodeRunnerConfig.useSkipPermissions :=
              TestRunnerConfig.useSkipPermissions config |};
     config := config;
     evaluatorManager := EvaluatorManager.create JSON_stringify |}.

(** [countRetries]: the state of the two nested [forEach] loops is the
    number of retries and the last tool call seen. *)
Definition retryStep (st : nat * option ToolCall.t) (call : ToolCall.t)
  : nat * option ToolCall.t :=
  let '(retries, lastToolCall) := st in
  (match lastToolCall with
   | Some last =>
       if bool_decide (ToolCall.toolName last = ToolCall.toolName call)
          && bool_decide (JSON_stringify (ToolCall.parameters last)
                          = JSON_stringify (ToolCall.parameters call))
       then S retries else retries
   | None => retries
   end,
   Some call).

Definition countRetries (conversation : ConversationHistory.t) : nat :=
  (foldl
     (fun st msg =>
        match Message.toolCalls msg with
        | Some calls => foldl retryStep st calls
        | None => st
        end)
     (0%nat, None)
     (ConversationHistory.messages conversation)).1.

(** The body of the [for] loop of [runTestSuite] for the test at
    position [i]; [world i] is the environment of its execution.  The
    answer is the grown [results] array, or the value that escapes. *)
Definition runOne (this : t) (world : nat -> World.t)
    (claudeFile : ClaudeFile.t) (testRunId : Z)
    (callbacks : option Callbacks.t) (total : nat)
    (i : nat) (test : Test.t) (results : list TestResult.t)
  : Completion (list TestResult.t) :=
  match notify callbacks Callbacks.onTestStart (fun g => g test) with
  | Some e => Throw e
  | None =>
      let handler (results : list TestResult.t) (error : JsError.t) :=
        let failedResult :=
          createFailedResult this test testRunId error
            (World.now_failure (world i)) in
        let results := (results ++ [failedResult])%list in
        match notify callbacks Callbacks.onTestComplete
                (fun g => g test failedResult) with
        | Some e => Throw e
        | None => Normal results
        end in
      let attempt :=
        match ClaudeCodeRunner.executeTest path_join (runner this) (world i)
                (ClaudeFile.content claudeFile) test testRunId with
        | Normal result =>
            let results := (results ++ [result])%list in
            match notify callbacks Callbacks.onTestComplete
                    (fun g => g test result) with
            | Some e => handler results e
            | None => Normal results
            end
        | Throw error => handler results error
        end in
      match attempt with
      | Throw e => Throw e
      | Normal results =>
          let completed := S i in
          match notify callbacks Callbacks.onProgress
                  (fun g => g completed total) with
          | Some e => Throw e
          | None => Normal results
          end
      end
  end.

Fixpoint runLoop (this : t) (world : nat -> World.t)
    (claudeFile : ClaudeFile.t) (testRunId : Z)
    (callbacks : option Callbacks.t) (total : nat)
    (i : nat) (tests : list Test.t) (results : list TestResult.t)
  : Completion (list TestResult.t) :=
  match tests with
  | [] => Normal results
  | test :: tests' =>
      match runOne this world claudeFile testRunId callbacks total
              i test results with
      | Throw e => Throw e
      | Normal results =>
          runLoop this world claudeFile testRunId callbacks total
            (S i) tests' results
      end
  end.

(** [runTestSuite]; [startedAt] and [completedAt] are the two dates. *)
Definition runTestSuite (this : t) (world : nat -> World.t)
    (claudeFile : ClaudeFile.t) (testSuite : TestSuite.t) (testRunId : Z)
    (callbacks : option Callbacks.t) (startedAt completedAt : Z)
  : Completion (TestRun.t * list TestResult.t * TestSummary.t) :=
  match runLoop this world claudeFile testRunId callbacks
          (length (TestSuite.tests testSuite)) 0
          (TestSuite.tests testSuite) [] with
  | Throw e => Throw e
  | Normal results =>
      let testRun :=
        {| TestRun.id := Some testRunId;
           TestRun.claudeFileId := ClaudeFile.id claudeFile;
           TestRun.testSuiteVersion := TestSuite.version testSuite;
           TestRun.startedAt := startedAt;
           TestRun.completedAt := Some completedAt;
           TestRun.status := completed |} in
      Normal (testRun, results, calculateSummary results)
  end.

End WithRuntime.

End TestRunner.

(** ** The simulated shell of the API client ([src/api/claude-client.ts]) *)

Module ClaudeClient.

(** The client, as far as the simulated shell goes: its sandbox and its
    command history. *)
Record t : Type := mk {
  virtualFS : VirtualFileSystem.t;
  commandHistory : list CommandExecution.t
}.

(** The two fields as the constructor leaves them *)
Definition create : t :=
  {| virtualFS := VirtualFileSystem.create "/workspace";
     commandHistory := [] |}.

Definition getVirtualFS (this : t) : VirtualFileSystem.t := virtualFS this.

Definition getCommandHistory (this : t) : list CommandExecution.t :=
  commandHistory this.

Section WithPath.
Variable path_join : string -> string -> string.
Variable path_normalize : string -> string.

Definition reset (this : t) : t :=
  {| virtualFS := VirtualFileSystem.reset (virtualFS this);
     commandHistory := [] |}.

(** [executeVirtualCommand]: the answer is [{ output, exitCode }].  [now] is
    the clock reading of the history record, [random] the value of
    [Math.random()], [nowRead] the clock reading of the sandbox when [cat]
    reads a file. *)
Definition executeVirtualCommand (this : t) (command : string)
    (now : Z) (random : Qc) (nowRead : Z) : (string * Z) * t :=
  let finish (fs : VirtualFileSystem.t) (output : string) (exitCode : Z) :=
    ((output, exitCode),
     {| virtualFS := fs;
        commandHistory :=
          commandHistory this ++
            [ {| CommandExecution.command := command;
                 CommandExecution.output := output;
                 CommandExecution.exitCode := exitCode;
                 CommandExecution.timestamp := now;
                 CommandExecution.durationMs := (random * JsMath.ofZ 100)%Qc |} ]
     |}) in
  let argument := JsString.split " "%char command !! 1%nat in
  if JsString.startsWith command "ls" then
    let path :=
      match argument with
      | Some a => if JsString.truthy a then a else "/workspace"
      | None => "/workspace"
      end in
    let files :=
      VirtualFileSystem.listDirectory path_join path_normalize
        (virtualFS this) path in
    finish (virtualFS this)
      (NodePath.joinWith (String (ascii_of_nat 10) EmptyString) files) 0%Z
  else if JsString.startsWith command "cat" then
    match argument with
    | Some path =>
        if JsString.truthy path then
          let '(content, fs) :=
            VirtualFileSystem.read path_join path_normalize
              (virtualFS this) path nowRead in
          match content with
          | Some text =>
              if JsString.truthy text then finish fs text 0%Z
              else finish fs
                     ("cat: " ++ path ++ ": No such file or directory") 1%Z
          | None =>
              finish fs ("cat: " ++ path ++ ": No such file or directory") 1%Z
          end
        else finish (virtualFS this) EmptyString 0%Z
    | None => finish (virtualFS this) EmptyString 0%Z
    end
  else if JsString.startsWith command "echo" then
    finish (virtualFS this) (JsString.slice 5 command) 0%Z
  else if decide (command = "pwd") then
    finish (virtualFS this) "/workspace" 0%Z
  else
    finish (virtualFS this) ("Command simulated: " ++ command) 0%Z.

End WithPath.

End ClaudeClient.

(** ** Sample data for the examples *)

Module Sample.

Definition writeCall : ToolCall.t :=
  {| ToolCall.toolName := "file_write";
     ToolCall.parameters :=
       JObject [("path", JString "/a.txt"); ("content", JString "x")];
     ToolCall.result := JObject [("success", JBool true)];
     ToolCall.executionTimeMs := 1;
     ToolCall.error := None |}.

Definition readCall : ToolCall.t :=
  {| ToolCall.toolName := "file_read";
     ToolCall.parameters := JObject [("path", JString "/a.txt")];
     ToolCall.result := JObject [("content", JString "x")];
     ToolCall.executionTimeMs := 1;
     ToolCall.error := None |}.

Definition turn (timestamp : Z) (calls : option (list ToolCall.t)) : Message.t :=
  {| Message.role := assistant;
     Message.content := "working";
     Message.thinking := None;
     Message.toolCalls := calls;
     Message.timestamp := timestamp;
     Message.tokens := None |}.

Definition modelConfig : ModelConfig.t :=
  {| ModelConfig.model := "claude-code";
     ModelConfig.temperature := JsMath.ofZ 0;
     ModelConfig.maxTokens := 0 |}.

Definition conversationOf (messages : list Message.t) : ConversationHistory.t :=
  {| ConversationHistory.messages := messages;
     ConversationHistory.totalDurationMs := 10;
     ConversationHistory.modelConfig := modelConfig |}.

Definition test : Test.t :=
  {| Test.id := "t1";
     Test.prompt := "Create a file named hello.txt";
     Test.category := "basic";
     Test.expectedBehavior := Some "creates hello file";
     Test.evaluationCriteria := None;
     Test.timeout := Some 30000%Z |}.

Definition metrics : RawMetrics.t :=
  {| RawMetrics.allToolCalls := [];
     RawMetrics.fileOperations := [];
     RawMetrics.commandsExecuted := [];
     RawMetrics.errorsEncountered :=
       [ {| ErrorEvent.type := "tool_error";
            ErrorEvent.message := ErrorEvent.Text "boom";
            ErrorEvent.stack := None;
            ErrorEvent.timestamp := 5;
            ErrorEvent.recovered := true |} ];
     RawMetrics.retryAttempts := 2 |}.

Definition scores : MetricScores.t :=
  {| MetricScores.correctness := JsMath.ofZ 7;
     MetricScores.speed := JsMath.ofZ 7;
     MetricScores.tokenEfficiency := JsMath.ofZ 7;
     MetricScores.documentation := JsMath.ofZ 7;
     MetricScores.codeQuality := JsMath.ofZ 7;
     MetricScores.security := JsMath.ofZ 7;
     MetricScores.instructionAdherence := JsMath.ofZ 7;
     MetricScores.consistency := JsMath.ofZ 7;
     MetricScores.errorRecovery := JsMath.ofZ 7 |}.

Definition resultWith (response : string) : TestResult.t :=
  {| TestResult.id := None;
     TestResult.testRunId := 1;
     TestResult.testId := "t1";
     TestResult.prompt := "Create a file named hello.txt";
     TestResult.response := response;
     TestResult.tokensInput := 120;
     TestResult.tokensOutput := 40;
     TestResult.tokensThinking := None;
     TestResult.responseTimeMs := 2500;
     TestResult.scores := scores;
     TestResult.conversation :=
       conversationOf [turn 1 (Some [writeCall]); turn 2 None];
     TestResult.metricsRaw := metrics |}.

(** A unit registered under the name of the speed metric that always throws *)
Definition brokenSpeed : BaseEvaluator.t :=
  {| BaseEvaluator.metricName := "speed";
     BaseEvaluator.description := "always throws";
     BaseEvaluator.evaluate :=
       fun _ _ _ _ =>
         Throw {| JsError.name := "Error"; JsError.message := "not ready" |} |}.

(** A test without expected-behaviour keywords *)
Definition plainTest : Test.t :=
  {| Test.id := "t2";
     Test.prompt := "Refactor the parser";
     Test.category := "refactoring";
     Test.expectedBehavior := None;
     Test.evaluationCriteria := None;
     Test.timeout := Some 30000%Z |}.

(** The process exits normally after two seconds. *)
Definition okWorld : World.t :=
  {| World.now_start := 1000;
     World.now_workspace := 1001;
     World.mkdir := fun _ => None;
     World.writeFile := fun _ _ => None;
     World.now_spawn := 1002;
     World.spawn :=
       fun _ _ =>
         Normal {| World.ending := Some (2000%Z, World.Closes (Some 0%Z));
                   World.stdoutBy := fun _ => "Created hello.txt";
                   World.stderrBy := fun _ => EmptyString |};
     World.timerAt := fun delay => delay;
     World.nowAt := fun instant => (1002 + instant)%Z;
     World.listFilesRecursively :=
       fun dir => [dir ++ "/CLAUDE.md"; dir ++ "/hello.txt"];
     World.now_file := fun _ => 3003%Z;
     World.now_error := 3004;
     World.now_failure := 3005 |}.

(** The child does not end by itself: the timer of thirty seconds fires
    first. *)
Definition timeoutWorld : World.t :=
  {| World.now_start := 1000;
     World.now_workspace := 1001;
     World.mkdir := fun _ => None;
     World.writeFile := fun _ _ => None;
     World.now_spawn := 1002;
     World.spawn :=
       fun _ _ =>
         Normal {| World.ending := None;
                   World.stdoutBy := fun _ => "partial output";
                   World.stderrBy := fun _ => EmptyString |};
     World.timerAt := fun delay => delay;
     World.nowAt := fun instant => (1005 + instant)%Z;
     World.listFilesRecursively := fun dir => [dir ++ "/CLAUDE.md"];
     World.now_file := fun _ => 31006%Z;
     World.now_error := 31007;
     World.now_failure := 31008 |}.

(** The workspace cannot be created. *)
Definition brokenWorld : World.t :=
  {| World.now_start := 1000;
     World.now_workspace := 1001;
     World.mkdir :=
       fun _ => Some {| JsError.name := "Error";
                        JsError.message := "EACCES: permission denied" |};
     World.writeFile := fun _ _ => None;
     World.now_spawn := 1002;
     World.spawn :=
       fun _ _ =>
         Normal {| World.ending := Some (1%Z, World.Fails "unreachable");
                   World.stdoutBy := fun _ => EmptyString;
                   World.stderrBy := fun _ => EmptyString |};
     World.timerAt := fun delay => delay;
     World.nowAt := fun instant => (1002 + instant)%Z;
     World.listFilesRecursively := fun _ => [];
     World.now_file := fun _ => 1004%Z;
     World.now_error := 1005;
     World.now_failure := 1006 |}.

(** The environment of a suite of three tests: the first succeeds, the
    second cannot start, the third times out. *)
Definition worlds (i : nat) : World.t :=
  match i with
  | O => okWorld
  | S O => brokenWorld
  | _ => timeoutWorld
  end.

Definition runnerConfig : TestRunnerConfig.t :=
  {| TestRunnerConfig.workspaceDir := None;
     TestRunnerConfig.timeout := Some 30000%Z;
     TestRunnerConfig.useSkipPermissions := None;
     TestRunnerConfig.model := Some "claude-3-5-sonnet-20241022";
     TestRunnerConfig.temperature := None;
     TestRunnerConfig.maxTokens := Some 4096%Z |}.

Definition claudeFile : ClaudeFile.t :=
  {| ClaudeFile.id := Some 1%Z;
     ClaudeFile.name := "basic";
     ClaudeFile.content := "Always read files before editing them";
     ClaudeFile.hash := "abc";
     ClaudeFile.createdAt := 0;
     ClaudeFile.description := None |}.

Definition suite : TestSuite.t :=
  {| TestSuite.id := "basic";
     TestSuite.version := "1.0";
     TestSuite.name := "Basic";
     TestSuite.description := None;
     TestSuite.tests := [test; plainTest; plainTest] |}.

(** Observers that return normally *)
Definition observers : Callbacks.t :=
  {| Callbacks.onTestStart := Some (fun _ => None);
     Callbacks.onTestComplete := Some (fun _ _ => None);
     Callbacks.onProgress := None |}.


Definition runner : ClaudeCodeRunner.t :=
  ClaudeCodeRunner.create
    {| ClaudeCodeRunnerConfig.workspaceDir := None;
       ClaudeCodeRunnerConfig.timeout := None;
       ClaudeCodeRunnerConfig.useSkipPermissions := None |}.

Definition testRunner : TestRunner.t :=
  TestRunner.create JSON.stringify runnerConfig.

(** A run without errors and retries *)
Definition cleanMetrics : RawMetrics.t :=
  {| RawMetrics.allToolCalls := [];
     RawMetrics.fileOperations := [];
     RawMetrics.commandsExecuted := [];
     RawMetrics.errorsEncountered := [];
     RawMetrics.retryAttempts := 0 |}.

(** A result that took [responseTimeMs] milliseconds *)
Definition resultAt (responseTimeMs : Z) : TestResult.t :=
  {| TestResult.id := None;
     TestResult.testRunId := 1;
     TestResult.testId := "t2";
     TestResult.prompt := "Refactor the parser";
     TestResult.response := "Refactored the parser";
     TestResult.tokensInput := 120;
     TestResult.tokensOutput := 40;
     TestResult.tokensThinking := None;
     TestResult.responseTimeMs := responseTimeMs;
     TestResult.scores := scores;
     TestResult.conversation := conversationOf [turn 1 None];
     TestResult.metricsRaw := cleanMetrics |}.

(** A sandbox with two files *)
Definition sandbox : VirtualFileSystem.t :=
  (VirtualFileSystem.write NodePath.join NodePath.normalize
     (VirtualFileSystem.write NodePath.join NodePath.normalize
        (VirtualFileSystem.create "/workspace") "a.txt" "abcabc" 1).2
     "b.txt" "old" 2).2.

(** A test with a timeout of five milliseconds *)
Definition quickTest : Test.t :=
  {| Test.id := "t3";
     Test.prompt := "Summarize the repository";
     Test.category := "analysis";
     Test.expectedBehavior := None;
     Test.evaluationCriteria := None;
     Test.timeout := Some 5%Z |}.

(** The child does not end by itself, and the timer runs by the clock of
    the event loop: the callback of a timer of five milliseconds runs when
    [Date.now()] has advanced by four. *)
Definition earlyTimerWorld : World.t :=
  {| World.now_start := 1000;
     World.now_workspace := 1001;
     World.mkdir := fun _ => None;
     World.writeFile := fun _ _ => None;
     World.now_spawn := 1002;
     World.spawn :=
       fun _ _ =>
         Normal {| World.ending := None;
                   World.stdoutBy := fun _ => "thinking";
                   World.stderrBy := fun _ => EmptyString |};
     World.timerAt := fun delay => delay;
     World.nowAt := fun instant => (1001 + instant)%Z;
     World.listFilesRecursively := fun dir => [dir ++ "/CLAUDE.md"];
     World.now_file := fun _ => 1007%Z;
     World.now_error := 1008;
     World.now_failure := 1009 |}.

End Sample.

(** ** Vocabulary of the specification *)

(** [p] occurs in [s] at position [k]. *)
Definition occursAt (s p : string) (k : nat) : Prop :=
  JsString.startsWith (JsString.slice k s) p = true.

(** [p] is a substring of [s]. *)
Definition isSubstring (p s : string) : Prop :=
  ∃ pre post, s = pre ++ p ++ post.

(** The string holds a dollar sign. *)
Fixpoint hasDollar (s : string) : bool :=
  match s with
  | EmptyString => false
  | String c s' => Ascii.eqb c "$"%char || hasDollar s'
  end.

(** The keys of a [Map] are pairwise distinct; on the association list
    this is the representation invariant of the sandbox. *)
Definition sandbox_wf (fs : VirtualFileSystem.t) : Prop :=
  NoDup (JsMap.keys (VirtualFileSystem.files fs)).

(** The score that [evaluateAll] records for one unit: its own value, or
    the neutral default when it throws. *)
Definition recordedScore (evaluator : BaseEvaluator.t)
    (test : Test.t) (result : TestResult.t) : Qc :=
  match BaseEvaluator.evaluate evaluator test result
          (TestResult.conversation result) (TestResult.metricsRaw result) with
  | Normal score => score
  | Throw _ => EvaluatorManager.defaultScore
  end.

(** A manager after [new EvaluatorManager()] and the registration of
    [extra], in order. *)
Definition managerWith (JSON_stringify : JsValue -> string)
    (extra : list BaseEvaluator.t) : EvaluatorManager.t :=
  foldl (fun this evaluator => EvaluatorManager.registerEvaluator evaluator this)
        (EvaluatorManager.create JSON_stringify) extra.

(** The nine metric names of [MetricScores], in registration order *)
Definition defaultMetricNames : list string :=
  ["correctness"; "speed"; "tokenEfficiency"; "codeQuality"; "documentation";
   "security"; "instructionAdherence"; "consistency"; "errorRecovery"].

(** A score lies in the closed interval from 0 to 10. *)
Definition inRange (score : Qc) : Prop :=
  (JsMath.ofZ 0 <= score)%Qc ∧ (score <= JsMath.ofZ 10)%Qc.

(** All tool calls of a transcript, message after message. *)
Definition transcriptCalls (conversation : ConversationHistory.t)
  : list ToolCall.t :=
  mjoin ((fun message => default [] (Message.toolCalls message))
           <$> ConversationHistory.messages conversation).

(** The pair (tool name, serialized parameters) of a call *)
Definition callKey (JSON_stringify : JsValue -> string) (call : ToolCall.t)
  : string * string :=
  (ToolCall.toolName call, JSON_stringify (ToolCall.parameters call)).

(** How many elements equal the element just before them. *)
Fixpoint adjacentRepeats {A : Type} `{EqDecision A} (l : list A) : nat :=
  match l with
  | x :: (y :: _) as rest =>
      ((if decide (x = y) then 1 else 0) + adjacentRepeats rest)%nat
  | _ => 0%nat
  end.

(** How many different signatures a list holds. *)
Definition distinctCount (signatures : list string) : nat :=
  size (list_to_set signatures : gset string).

(** The transcript with one more message at its end *)
Definition extend (conversation : ConversationHistory.t) (message : Message.t)
  : ConversationHistory.t :=
  {| ConversationHistory.messages :=
       ConversationHistory.messages conversation ++ [message];
     ConversationHistory.totalDurationMs :=
       ConversationHistory.totalDurationMs conversation;
     ConversationHistory.modelConfig :=
       ConversationHistory.modelConfig conversation |}.

(** The file-system calls of [executeTest] succeed. *)
Definition workspaceReady (w : World.t) : Prop :=
  (∀ dir, World.mkdir w dir = None)
  ∧ (∀ file content, World.writeFile w file content = None).

(** [spawn] starts the child [claudeProcess]. *)
Definition spawns (w : World.t) (claudeProcess : World.Process) : Prop :=
  ∀ args cwd, World.spawn w args cwd = Normal claudeProcess.

(** The execution exceeds the timeout: the timer set with the delay
    [timeout] runs before the child ends. *)
Definition timesOut (w : World.t) (claudeProcess : World.Process)
    (timeout : Z) : Prop :=
  match World.ending claudeProcess with
  | Some (instant, _) => (World.timerAt w timeout ≤ instant)%Z
  | None => True
  end.

(** The world [w] with another timer service *)
Definition withTimer (timerAt : Z -> Z) (w : World.t) : World.t :=
  {| World.now_start := World.now_start w;
     World.now_workspace := World.now_workspace w;
     World.mkdir := World.mkdir w;
     World.writeFile := World.writeFile w;
     World.now_spawn := World.now_spawn w;
     World.spawn := World.spawn w;
     World.timerAt := timerAt;
     World.nowAt := World.nowAt w;
     World.listFilesRecursively := World.listFilesRecursively w;
     World.now_file := World.now_file w;
     World.now_error := World.now_error w;
     World.now_failure := World.now_failure w |}.

(** The timeout that [executeTest] passes to [runClaudeCode] *)
Definition configuredTimeout (runner : ClaudeCodeRunner.t) (test : Test.t) : Z :=
  ClaudeCodeRunner.orNumber (Test.timeout test) (ClaudeCodeRunner.timeout runner).

(** No observer of the suite run throws. *)
Definition quiet (callbacks : option Callbacks.t) : Prop :=
  match callbacks with
  | None => True
  | Some cb =>
      (∀ g, Callbacks.onTestStart cb = Some g → ∀ test, g test = None)
      ∧ (∀ g, Callbacks.onTestComplete cb = Some g →
              ∀ test result, g test result = None)
      ∧ (∀ g, Callbacks.onProgress cb = Some g →
              ∀ completed total, g completed total = None)
  end.

(** The result that the suite run records for the test at position [i]. *)
Definition recordedResult (path_join : string -> string -> string)
    (this : TestRunner.t) (world : nat -> World.t)
    (claudeFile : ClaudeFile.t) (testRunId : Z) (i : nat) (test : Test.t)
  : TestResult.t :=
  match ClaudeCodeRunner.executeTest path_join (TestRunner.runner this) (world i)
          (ClaudeFile.content claudeFile) test testRunId with
  | Normal result => result
  | Throw error =>
      TestRunner.createFailedResult this test testRunId error
        (World.now_failure (world i))
  end.

(** The string holds the code unit [c]. *)
Fixpoint containsChar (c : ascii) (s : string) : bool :=
  match s with
  | EmptyString => false
  | String d s' => Ascii.eqb d c || containsChar c s'
  end.

(** The name that one stored path contributes to the listing of the
    directory [normalizedDir], if it contributes one. *)
Definition childName (normalizedDir filePath : string) : option string :=
  if JsString.startsWith filePath normalizedDir then
    match JsString.split "/"%char
            (JsString.slice (String.length normalizedDir + 1) filePath) with
    | part0 :: _ => if JsString.truthy part0 then Some part0 else None
    | [] => None
    end
  else None.

#[global] Instance OperationType_eq_dec : EqDecision OperationType.
Proof. solve_decision. Defined.

(** How many records of the log have the type [type]. *)
Definition countType (type : OperationType) (ops : list FileOperation.t) : nat :=
  length (filter (fun op => FileOperation.type op = type) ops).

(** The speed score as a whole number of points, by response time *)
Definition speedPoints (responseTime : Z) : Z :=
  if decide (responseTime ≤ 2000)%Z then 10
  else if decide (responseTime ≤ 5000)%Z then 8
  else if decide (responseTime ≤ 10000)%Z then 6
  else if decide (responseTime ≤ 20000)%Z then 4
  else Z.max 0 (3 - (responseTime - 20000) / 10000).

(** Every code unit of the string passes the test [P]. *)
Fixpoint allChars (P : ascii -> bool) (s : string) : bool :=
  match s with
  | EmptyString => true
  | String c s' => P c && allChars P s'
  end.

(** The code unit is its own lower case. *)
Definition isLowerCase (c : ascii) : bool :=
  bool_decide (JsString.lowerChar c = c).

(** [executeTest] throws for the test at position [i] of a suite run. *)
Definition throws (path_join : string -> string -> string)
    (this : TestRunner.t) (world : nat -> World.t)
    (claudeFile : ClaudeFile.t) (testRunId : Z) (i : nat) (test : Test.t)
  : bool :=
  match ClaudeCodeRunner.executeTest path_join (TestRunner.runner this) (world i)
          (ClaudeFile.content claudeFile) test testRunId with
  | Normal _ => false
  | Throw _ => true
  end.

(** The tool call carries an error text. *)
Definition hasError (call : ToolCall.t) : bool :=
  match ToolCall.error call with
  | Some e => JsString.truthy e
  | None => false
  end.

(** The side of a scan through a serialized text: outside of a string
    literal, inside of one, or inside just after a backslash. *)
Inductive ScanMode : Type := Outside | Inside | Escaped.

(** One code unit of the scan.  The state is the nesting depth of the
    brackets read outside of string literals, and the side.  The scan stops
    at a backslash outside of a string literal and at a colon outside of a
    string literal that is not enclosed in a bracket. *)
Definition scanStep (st : Z * ScanMode) (c : ascii) : option (Z * ScanMode) :=
  let '(depth, mode) := st in
  match mode with
  | Escaped => Some (depth, Inside)
  | Inside =>
      if Ascii.eqb c JSON.backslash then Some (depth, Escaped)
      else if Ascii.eqb c JSON.dquote then Some (depth, Outside)
      else Some (depth, Inside)
  | Outside =>
      if Ascii.eqb c JSON.dquote then Some (depth, Inside)
      else if Ascii.eqb c JSON.backslash then None
      else if Ascii.eqb c "{"%char || Ascii.eqb c "["%char
      then Some ((depth + 1)%Z, Outside)
      else if Ascii.eqb c "}"%char || Ascii.eqb c "]"%char
      then Some ((depth - 1)%Z, Outside)
      else if Ascii.eqb c ":"%char
      then (if decide (0 < depth)%Z then Some (depth, Outside) else None)
      else Some (depth, Outside)
  end.

Fixpoint scan (st : Z * ScanMode) (s : string) : option (Z * ScanMode) :=
  match s with
  | EmptyString => Some st
  | String c s' =>
      match scanStep st c with
      | Some st' => scan st' s'
      | None => None
      end
  end.

(** One scan is outside of a string literal and the other inside. *)
Definition opposite (m1 m2 : ScanMode) : Prop :=
  (m1 = Outside ∧ m2 = Inside) ∨ (m1 = Inside ∧ m2 = Outside).

(** A code unit that means nothing to the scan outside of a string *)
Definition isPlain (c : ascii) : bool :=
  negb (Ascii.eqb c JSON.dquote) && negb (Ascii.eqb c JSON.backslash)
  && negb (Ascii.eqb c "{"%char) && negb (Ascii.eqb c "["%char)
  && negb (Ascii.eqb c "}"%char) && negb (Ascii.eqb c "]"%char)
  && negb (Ascii.eqb c ":"%char).

(** How many different pairs (tool name, serialized parameters) a list
    holds. *)
Definition distinctKeys (keys : list (string * string)) : nat :=
  size (list_to_set keys : gset (string * string)).

(** * Properties *)

(** ** The insertion-ordered map *)

Section JsMapFacts.
Context {V : Type}.
Implicit Types (m : JsMap.t V) (k : string) (v : V).

Lemma JsMap_get_set_eq m k v : JsMap.get k (JsMap.set k v m) = Some v.
Proof.
  induction m as [|[k' v'] m IH]; simpl.
  - by rewrite decide_True.
  - destruct (decide (k = k')) as [->|Hne]; simpl.
    + by rewrite decide_True.
    + by rewrite decide_False.
Qed.

Lemma JsMap_get_set_ne m k k' v :
  k ≠ k' → JsMap.get k' (JsMap.set k v m) = JsMap.get k' m.
Proof.
  intros Hne. induction m as [|[k0 v0] m IH]; simpl.
  - rewrite decide_False; [done | congruence].
  - destruct (decide (k = k0)) as [->|Hne0]; simpl.
    + rewrite !decide_False; [done | congruence | congruence].
    + destruct (decide (k' = k0)); [done | apply IH].
Qed.

Lemma JsMap_get_None m k : JsMap.get k m = None ↔ k ∉ JsMap.keys m.
Proof.
  unfold JsMap.keys. induction m as [|[k' v'] m IH]; simpl.
  - split; [intros _; apply not_elem_of_nil | done].
  - rewrite not_elem_of_cons. destruct (decide (k = k')) as [->|Hne].
    + split; [done | intros [? _]; done].
    + rewrite IH. tauto.
Qed.

Lemma JsMap_has_keys m k : JsMap.has k m = true ↔ k ∈ JsMap.keys m.
Proof.
  unfold JsMap.has. destruct (JsMap.get k m) eqn:Hget.
  - split; [intros _ | done].
    destruct (decide (k ∈ (JsMap.keys m : list string))) as [|Hn]; [done|].
    apply JsMap_get_None in Hn. congruence.
  - apply JsMap_get_None in Hget. split; [done | intros; contradiction].
Qed.

Lemma JsMap_keys_set_in m k v :
  k ∈ JsMap.keys m → JsMap.keys (JsMap.set k v m) = JsMap.keys m.
Proof.
  unfold JsMap.keys. induction m as [|[k' v'] m IH]; simpl.
  - intros H. by apply elem_of_nil in H.
  - intros H. destruct (decide (k = k')) as [->|Hne]; simpl; [done|].
    apply elem_of_cons in H as [?|H]; [done|]. f_equal. by apply IH.
Qed.

Lemma JsMap_keys_set_notin m k v :
  k ∉ JsMap.keys m → JsMap.keys (JsMap.set k v m) = (JsMap.keys m ++ [k])%list.
Proof.
  unfold JsMap.keys. induction m as [|[k' v'] m IH]; simpl; [done|].
  intros H. apply not_elem_of_cons in H as [Hne H].
  rewrite decide_False; [|done]. simpl. f_equal. by apply IH.
Qed.

Lemma JsMap_NoDup_set m k v :
  NoDup (JsMap.keys m) → NoDup (JsMap.keys (JsMap.set k v m)).
Proof.
  intros Hnd. destruct (decide (k ∈ (JsMap.keys m : list string))) as [Hin|Hnin].
  - by rewrite JsMap_keys_set_in.
  - rewrite JsMap_keys_set_notin; [|done].
    apply NoDup_app. split_and!; [done | | apply NoDup_singleton].
    intros x Hx Hx'. apply list_elem_of_singleton in Hx'. by subst.
Qed.

Lemma JsMap_keys_remove m k x :
  x ∈ JsMap.keys (JsMap.remove k m) → x ∈ JsMap.keys m.
Proof.
  unfold JsMap.keys. induction m as [|[k' v'] m IH]; simpl; [done|].
  destruct (decide (k = k')); simpl.
  - intros. apply elem_of_cons. by right.
  - rewrite !elem_of_cons. intros [?|?]; [by left | right; by apply IH].
Qed.

Lemma JsMap_NoDup_remove m k :
  NoDup (JsMap.keys m) → NoDup (JsMap.keys (JsMap.remove k m)).
Proof.
  unfold JsMap.keys. induction m as [|[k' v'] m IH]; simpl; [done|].
  intros [Hnin Hnd]%NoDup_cons. destruct (decide (k = k')); simpl; [done|].
  apply NoDup_cons. split; [|by apply IH].
  intros Hin. apply Hnin. by apply (JsMap_keys_remove m k).
Qed.

Lemma JsMap_get_remove_eq m k :
  NoDup (JsMap.keys m) → JsMap.get k (JsMap.remove k m) = None.
Proof.
  unfold JsMap.keys. induction m as [|[k' v'] m IH]; simpl; [done|].
  intros [Hnin Hnd]%NoDup_cons. destruct (decide (k = k')) as [->|Hne]; simpl.
  - by apply JsMap_get_None.
  - rewrite decide_False; [|done]. by apply IH.
Qed.

Lemma JsMap_elem_functional m k v1 v2 :
  NoDup (JsMap.keys m) → (k, v1) ∈ m → (k, v2) ∈ m → v1 = v2.
Proof.
  unfold JsMap.keys. induction m as [|[k' v'] m IH]; simpl.
  - intros _ H. by apply elem_of_nil in H.
  - intros [Hnin Hnd]%NoDup_cons. rewrite !elem_of_cons.
    intros [H1|H1] [H2|H2].
    + congruence.
    + injection H1 as -> ->. exfalso. apply Hnin.
      by apply (list_elem_of_fmap_2 fst _ (k', v2)).
    + injection H2 as -> ->. exfalso. apply Hnin.
      by apply (list_elem_of_fmap_2 fst _ (k', v1)).
    + by apply IH.
Qed.

Lemma JsMap_NoDup_entries m : NoDup (JsMap.keys m) → NoDup m.
Proof. apply NoDup_fmap_1. Qed.

End JsMapFacts.

(** ** Strings *)

Section JsStringFacts.
Import JsString.
Implicit Types (s p t : string) (k j : nat).

Lemma startsWith_true s p : startsWith s p = true ↔ ∃ t, s = p ++ t.
Proof.
  revert s. induction p as [|c p IH]; intros s; simpl.
  - split; [intros _; by exists s | done].
  - destruct s as [|d s].
    + split; [done | intros [t Ht]; discriminate].
    + destruct (Ascii.eqb c d) eqn:Hcd.
      * apply Ascii.eqb_eq in Hcd as ->. rewrite IH.
        split; intros [t Ht]; exists t; [by rewrite Ht | by injection Ht].
      * apply Ascii.eqb_neq in Hcd.
        split; [done | intros [t Ht]; injection Ht; congruence].
Qed.

Lemma slice_app p t : slice (String.length p) (p ++ t) = t.
Proof. induction p as [|c p IH]; [by destruct t | exact IH]. Qed.

Lemma slice_add k j s : slice (k + j) s = slice j (slice k s).
Proof.
  revert s. induction k as [|k IH]; intros s; simpl; [done|].
  destruct s; simpl; [by destruct j | apply IH].
Qed.

Lemma substring0_slice k s : s = substring0 k s ++ slice k s.
Proof.
  revert s. induction k as [|k IH]; intros s; simpl; [done|].
  destruct s as [|c s]; simpl; [done|]. exact (f_equal (String c) (IH s)).
Qed.

Lemma substring0_app p t : substring0 (String.length p) (p ++ t) = p.
Proof.
  induction p as [|c p IH]; [by destruct t | exact (f_equal (String c) IH)].
Qed.

Lemma string_app_assoc s p t : (s ++ p) ++ t = s ++ p ++ t.
Proof.
  induction s as [|c s IH]; [done | exact (f_equal (String c) IH)].
Qed.

Lemma occursAt_decompose s p k :
  occursAt s p k → s = substring0 k s ++ p ++ slice (k + String.length p) s.
Proof.
  unfold occursAt. intros [t Ht]%startsWith_true.
  rewrite slice_add, Ht, slice_app, <- Ht. apply substring0_slice.
Qed.

Lemma occursAt_app pre p post : occursAt (pre ++ p ++ post) p (String.length pre).
Proof. unfold occursAt. rewrite slice_app. apply startsWith_true. by exists post. Qed.

(** [indexOf] finds the first occurrence. *)
Lemma indexOf_Some s p k :
  indexOf s p = Some k ↔ occursAt s p k ∧ ∀ j, (j < k)%nat → ¬ occursAt s p j.
Proof.
  unfold occursAt. revert k. induction s as [|c s IH]; intros k.
  - simpl. destruct p as [|d p]; simpl.
    + split.
      * intros [= <-]. split; [done | lia].
      * intros [_ Hmin]. destruct k as [|k]; [done|].
        exfalso. apply (Hmin 0%nat); [lia | done].
    + split; [done|]. intros [H _]. by destruct k.
  - cbn [indexOf]. destruct (startsWith (String c s) p) eqn:Hsw.
    + split.
      * intros [= <-]. split; [done | lia].
      * intros [_ Hmin]. destruct k as [|k]; [done|].
        exfalso. apply (Hmin 0%nat); [lia | done].
    + split.
      * destruct (indexOf s p) as [k'|] eqn:Hidx; [|done].
        intros [= <-]. destruct (proj1 (IH k') eq_refl) as [Hocc Hmin].
        split; [done|].
        intros [|j] Hj; simpl; [by rewrite Hsw|]. apply Hmin. lia.
      * intros [Hocc Hmin]. destruct k as [|k]; [simpl in Hocc; congruence|].
        assert (indexOf s p = Some k) as ->; [|done].
        apply IH. split; [done|]. intros j Hj. apply (Hmin (S j)). lia.
Qed.

Lemma indexOf_None s p : indexOf s p = None ↔ ∀ k, ¬ occursAt s p k.
Proof.
  unfold occursAt. induction s as [|c s IH].
  - simpl. destruct p as [|d p]; simpl.
    + split; [done | intros H; by destruct (H 0%nat)].
    + split; [|done]. intros _ [|k]; done.
  - cbn [indexOf]. destruct (startsWith (String c s) p) eqn:Hsw.
    + split; [done | intros H; by destruct (H 0%nat)].
    + destruct (indexOf s p) as [k'|] eqn:Hidx.
      * split; [done|]. intros H. exfalso.
        apply indexOf_Some in Hidx as [Hocc _]. by apply (H (S k')).
      * split; [|done]. intros _ [|k]; simpl; [by rewrite Hsw|].
        by apply IH.
Qed.

Lemma isSubstring_occursAt p s : isSubstring p s ↔ ∃ k, occursAt s p k.
Proof.
  split.
  - intros (pre & post & ->). exists (String.length pre). apply occursAt_app.
  - intros [k Hk]. apply occursAt_decompose in Hk. by eexists _, _.
Qed.

Lemma includes_true s p : includes s p = true ↔ isSubstring p s.
Proof.
  unfold includes. rewrite isSubstring_occursAt.
  destruct (indexOf s p) as [k|] eqn:Hidx.
  - apply indexOf_Some in Hidx as [Hocc _]. split; [by exists k | done].
  - split; [done|]. intros [k Hk]. exfalso.
    by apply (proj1 (indexOf_None s p) Hidx k).
Qed.

Lemma includes_false s p : includes s p = false ↔ ¬ isSubstring p s.
Proof.
  rewrite <- includes_true. destruct (includes s p); split; try done.
Qed.

(** A template without a dollar sign is its own substitution. *)
Lemma GetSubstitution_plain matched preceding following template :
  hasDollar template = false →
  GetSubstitution matched preceding following template = template.
Proof.
  induction template as [|c t IH]; simpl; [done|].
  intros [Hc Ht]%orb_false_iff. rewrite (IH Ht).
  destruct (Ascii.eqb_spec c "$"%char) as [->|Hne]; [done|].
  by destruct c as [[] [] [] [] [] [] [] []].
Qed.

(** Without a dollar sign in the replacement, [replace] rewrites the
    first occurrence and nothing else. *)
Lemma replace_first s p r k :
  indexOf s p = Some k → hasDollar r = false →
  replace s p r = substring0 k s ++ r ++ slice (k + String.length p) s.
Proof.
  intros Hidx Hr. unfold replace. rewrite Hidx. cbn zeta.
  by rewrite GetSubstitution_plain.
Qed.

End JsStringFacts.

(** ** The sandbox *)

Section SandboxFacts.
Import VirtualFileSystem.
Variable path_join : string -> string -> string.
Variable path_normalize : string -> string.

Local Abbreviation normalizePath := (normalizePath path_join path_normalize).
Local Abbreviation write := (write path_join path_normalize).
Local Abbreviation read := (read path_join path_normalize).
Local Abbreviation edit := (edit path_join path_normalize).
Local Abbreviation delete := (delete path_join path_normalize).
Local Abbreviation exists_ := (exists_ path_join path_normalize).
Local Abbreviation listDirectory := (listDirectory path_join path_normalize).

Implicit Types (fs : t) (p c : string) (now : Z).

Lemma create_wf root : sandbox_wf (create root).
Proof. apply NoDup_nil_2. Qed.

Lemma write_wf fs p c now : sandbox_wf fs → sandbox_wf (write fs p c now).2.
Proof. apply JsMap_NoDup_set. Qed.

Lemma read_wf fs p now : sandbox_wf fs → sandbox_wf (read fs p now).2.
Proof. done. Qed.

Lemma edit_wf fs p old new now1 now2 :
  sandbox_wf fs → sandbox_wf (edit fs p old new now1 now2).2.
Proof.
  intros Hwf. unfold VirtualFileSystem.edit.
  destruct (JsMap.get _ _); [|done].
  destruct (negb _); [done|]. by apply JsMap_NoDup_set.
Qed.

Lemma delete_wf fs p now : sandbox_wf fs → sandbox_wf (delete fs p now).2.
Proof. apply JsMap_NoDup_remove. Qed.

Lemma reset_wf fs : sandbox_wf (reset fs).
Proof. apply NoDup_nil_2. Qed.

Lemma normalizePath_write fs p c now q :
  normalizePath (write fs p c now).2 q = normalizePath fs q.
Proof. done. Qed.

(** What [edit] answers, case by case.  In the third case the new content
    is the old one with the first occurrence of [old] replaced by the
    substitution of [new]; this is [new] itself when [new] holds no
    dollar sign. *)
Lemma edit_not_found fs p old new now1 now2 :
  JsMap.get (normalizePath fs p) (files fs) = None →
  edit fs p old new now1 now2 = (FileNotFound, fs).
Proof. intros H. unfold VirtualFileSystem.edit. by rewrite H. Qed.

Lemma edit_fragment_not_found fs p old new now1 now2 file :
  JsMap.get (normalizePath fs p) (files fs) = Some file →
  ¬ isSubstring old (VirtualFile.content file) →
  edit fs p old new now1 now2 = (OldContentNotFound, fs).
Proof.
  intros H Hsub%includes_false. unfold VirtualFileSystem.edit.
  by rewrite H, Hsub.
Qed.

Lemma edit_plain fs p old new now1 now2 file pre post :
  JsMap.get (normalizePath fs p) (files fs) = Some file →
  VirtualFile.content file = pre ++ old ++ post →
  (∀ j, (j < String.length pre)%nat → ¬ occursAt (pre ++ old ++ post) old j) →
  hasDollar new = false →
  (edit fs p old new now1 now2).1 = EditOk
  ∧ (read (edit fs p old new now1 now2).2 p now2).1 = Some (pre ++ new ++ post).
Proof.
  intros Hget Hcontent Hfirst Hnew.
  assert (JsString.indexOf (VirtualFile.content file) old
          = Some (String.length pre)) as Hidx.
  { rewrite Hcontent. apply indexOf_Some. split; [apply occursAt_app | done]. }
  assert (JsString.includes (VirtualFile.content file) old = true) as Hinc.
  { unfold JsString.includes. by rewrite Hidx. }
  unfold VirtualFileSystem.edit. rewrite Hget, Hinc. simpl. split; [done|].
  unfold VirtualFileSystem.read, VirtualFileSystem.normalizePath. simpl.
  rewrite JsMap_get_set_eq. simpl. f_equal.
  rewrite (replace_first _ _ _ _ Hidx Hnew), Hcontent.
  by rewrite substring0_app, slice_add, !slice_app.
Qed.

End SandboxFacts.

Section SandboxClaims.
Import VirtualFileSystem.
Variable path_join : string -> string -> string.
Variable path_normalize : string -> string.

Local Abbreviation normalizePath := (normalizePath path_join path_normalize).
Local Abbreviation write := (write path_join path_normalize).
Local Abbreviation read := (read path_join path_normalize).
Local Abbreviation delete := (delete path_join path_normalize).
Local Abbreviation exists_ := (exists_ path_join path_normalize).
Local Abbreviation listDirectory := (listDirectory path_join path_normalize).

Implicit Types (fs : t) (p c : string) (now : Z).

(** C2. In any sandbox state, [write(p, c)] followed by [read(p')] returns
    exactly [c] whenever [p'] normalizes to the same path as [p]; the
    spelling [p' = p] is the plain case. *)
Theorem write_then_read fs p p' c now now' :
  normalizePath fs p' = normalizePath fs p →
  (read (write fs p c now).2 p' now').1 = Some c.
Proof.
  intros Hsame. unfold VirtualFileSystem.read.
  rewrite normalizePath_write, Hsame. cbn [fst].
  unfold VirtualFileSystem.write. cbn [snd files].
  by rewrite JsMap_get_set_eq.
Qed.

(** C6. After [reset()], whatever the state was, [listDirectory("/")]
    is empty, as is the listing of every other directory, and so is the
    operation log: no file entry and no log record survives. *)
Theorem reset_clears fs :
  listDirectory (reset fs) "/" = []
  ∧ getFileOperations (reset fs) = []
  ∧ files (reset fs) = JsMap.empty
  ∧ (∀ dirPath, listDirectory (reset fs) dirPath = [])
  ∧ (∀ p, exists_ (reset fs) p = false).
Proof.
  unfold VirtualFileSystem.listDirectory, getFileOperations,
    VirtualFileSystem.exists_, reset.
  cbn [files operations foldl JsMap.empty JsMap.has JsMap.get].
  by split_and!.
Qed.

(** C9, as the code has it. [delete(p)] answers [success = true] exactly
    when [p] has an entry, so [false] for a path that was never written;
    either way [p] has no entry afterwards and the attempt is logged with
    the same flag. *)
Theorem delete_reports_presence fs p now :
  sandbox_wf fs →
  (delete fs p now).1 = exists_ fs p
  ∧ exists_ (delete fs p now).2 p = false
  ∧ (exists_ fs p = false → (delete fs p now).1 = false)
  ∧ FileOperation.success <$> last (operations (delete fs p now).2)
    = Some (exists_ fs p).
Proof.
  intros Hwf. split_and!.
  - done.
  - unfold VirtualFileSystem.exists_, VirtualFileSystem.delete,
      VirtualFileSystem.normalizePath, JsMap.has. cbn [snd files workingDirectory].
    by rewrite JsMap_get_remove_eq.
  - done.
  - unfold VirtualFileSystem.delete. cbn [snd operations].
    by rewrite last_snoc.
Qed.

End SandboxClaims.

(** C2 on the sample sandbox: a relative spelling and an absolute one with
    a detour name the same file. *)
Lemma write_then_read_witness :
  let fs :=
    (VirtualFileSystem.write NodePath.join NodePath.normalize
       (VirtualFileSystem.create "/workspace") "notes/old.txt" "zzz" 1).2 in
  VirtualFileSystem.normalizePath NodePath.join NodePath.normalize fs
    "/workspace/docs/../notes//a.txt"
  = VirtualFileSystem.normalizePath NodePath.join NodePath.normalize fs
      "notes/a.txt"
  ∧ (VirtualFileSystem.read NodePath.join NodePath.normalize
       (VirtualFileSystem.write NodePath.join NodePath.normalize fs
          "notes/a.txt" "hello" 2).2
       "/workspace/docs/../notes//a.txt" 3).1 = Some "hello".
Proof.
  split; [reflexivity|].
  apply (write_then_read NodePath.join NodePath.normalize). reflexivity.
Defined.

(** C9. On a fresh sandbox, [delete] of a path that was never written
    answers [success = false]. *)
Lemma delete_never_written :
  (VirtualFileSystem.delete NodePath.join NodePath.normalize
     (VirtualFileSystem.create "/workspace") "/never.txt" 0).1 = false.
Proof. reflexivity. Qed.

(** C9 on the sample sandbox: deleting a file that was written answers
    [true], and the file is gone. *)
Lemma delete_reports_presence_witness :
  let fs :=
    (VirtualFileSystem.write NodePath.join NodePath.normalize
       (VirtualFileSystem.create "/workspace") "a.txt" "x" 1).2 in
  sandbox_wf fs
  ∧ (VirtualFileSystem.delete NodePath.join NodePath.normalize fs "a.txt" 2).1
    = true
  ∧ VirtualFileSystem.exists_ NodePath.join NodePath.normalize
      (VirtualFileSystem.delete NodePath.join NodePath.normalize fs "a.txt" 2).2
      "a.txt" = false.
Proof.
  intros fs.
  assert (sandbox_wf fs) as Hwf by (apply write_wf, create_wf).
  destruct (delete_reports_presence NodePath.join NodePath.normalize
              fs "a.txt" 2 Hwf) as (H1 & H2 & _).
  split; [exact Hwf|]. split; [rewrite H1; reflexivity | exact H2].
Defined.

(** C3. Editing ["abc"] with the fragment ["b"] and the new text ["$&$&"]
    succeeds and leaves ["abbc"]: the dollar patterns of the new text are
    expanded, so the first occurrence is not replaced by the new text
    itself, which would give ["a$&$&c"]. *)
Theorem edit_expands_dollar_patterns :
  let fs :=
    (VirtualFileSystem.write NodePath.join NodePath.normalize
       (VirtualFileSystem.create "/workspace") "/a.txt" "abc" 1).2 in
  let r := VirtualFileSystem.edit NodePath.join NodePath.normalize
             fs "/a.txt" "b" "$&$&" 2 3 in
  r.1 = VirtualFileSystem.EditOk
  ∧ (VirtualFileSystem.read NodePath.join NodePath.normalize r.2 "/a.txt" 4).1
    = Some "abbc"
  ∧ "abbc" ≠ "a" ++ "$&$&" ++ "c".
Proof. split_and!; [reflexivity | reflexivity | discriminate]. Qed.

(** ** Numbers and the clamp *)

Section JsMathFacts.
Import JsMath BaseEvaluator.
Implicit Types (a b v : Qc).

Lemma leb_le a b : leb a b = true ↔ (a <= b)%Qc.
Proof. apply Qle_bool_iff. Qed.

Lemma leb_false_le a b : leb a b = false → (b <= a)%Qc.
Proof.
  intros H. apply Qclt_le_weak, Qcnot_le_lt. intros Hle%leb_le. congruence.
Qed.

Lemma ofZ_le (x y : Z) : (x ≤ y)%Z → (ofZ x <= ofZ y)%Qc.
Proof.
  intros H. unfold ofZ, Qcle, Q2Qc. cbn [this].
  rewrite !Qred_correct. by rewrite <- Zle_Qle.
Qed.

Lemma ofNat_nonneg (n : nat) : (ofZ 0 <= ofNat n)%Qc.
Proof. apply ofZ_le. lia. Qed.

Lemma Qc_mult_nonneg a b :
  (ofZ 0 <= a)%Qc → (ofZ 0 <= b)%Qc → (ofZ 0 <= a * b)%Qc.
Proof.
  intros Ha Hb. replace (ofZ 0) with (ofZ 0 * b)%Qc.
  - by apply Qcmult_le_compat_r.
  - apply Qcmult_0_l.
Qed.

Lemma Qc_inv_nonneg a : (ofZ 0 <= a)%Qc → (ofZ 0 <= / a)%Qc.
Proof.
  unfold ofZ, Qcle, Qcinv, Q2Qc. cbn [this]. rewrite !Qred_correct.
  apply Qinv_le_0_compat.
Qed.

Lemma Qc_div_nonneg a b :
  (ofZ 0 <= a)%Qc → (ofZ 0 <= b)%Qc → (ofZ 0 <= a / b)%Qc.
Proof. intros Ha Hb. apply Qc_mult_nonneg; [done | by apply Qc_inv_nonneg]. Qed.

Lemma min_zero_nonneg b : (ofZ 0 <= b)%Qc → min (ofZ 0) b = ofZ 0.
Proof. intros H%leb_le. unfold min. by rewrite H. Qed.

Lemma zero_le_ten : (ofZ 0 <= ofZ 10)%Qc.
Proof. by apply ofZ_le. Qed.

(** Whatever goes through the clamp lies between 0 and 10. *)
Lemma normalizeScore_range v :
  (ofZ 0 <= normalizeScore v)%Qc ∧ (normalizeScore v <= ofZ 10)%Qc.
Proof.
  unfold normalizeScore, normalizeScoreIn, min, max.
  destruct (leb (ofZ 0) v) eqn:H0.
  - apply leb_le in H0. destruct (leb (ofZ 10) v) eqn:H10.
    + split; [apply zero_le_ten | apply Qcle_refl].
    + split; [done | by apply leb_false_le].
  - destruct (leb (ofZ 10) (ofZ 0)) eqn:H10.
    + split; [apply zero_le_ten | apply Qcle_refl].
    + split; [apply Qcle_refl | apply zero_le_ten].
Qed.

Lemma normalizeScore_zero : normalizeScore (ofZ 0) = ofZ 0.
Proof. reflexivity. Qed.

Lemma calculateKeywordMatch_nonneg expected actual :
  (ofZ 0 <= CorrectnessEvaluator.calculateKeywordMatch expected actual)%Qc.
Proof.
  unfold CorrectnessEvaluator.calculateKeywordMatch. case_decide.
  - by apply ofZ_le.
  - apply Qc_div_nonneg; apply ofNat_nonneg.
Qed.

End JsMathFacts.

(** ** The correctness evaluator *)

(** C4. Whatever the test, the conversation and the metrics are, the
    correctness evaluator returns exactly 0 when the response is empty or
    contains the marker ['Test failed:']; the error counts, the retry
    count and the keyword matching make no difference. *)
Theorem correctness_zero_on_failure
    (test : Test.t) (result : TestResult.t)
    (conversation : ConversationHistory.t) (metrics : RawMetrics.t) :
  TestResult.response result = EmptyString
  ∨ isSubstring "Test failed:" (TestResult.response result) →
  CorrectnessEvaluator.evaluate test result conversation metrics = JsMath.ofZ 0.
Proof.
  intros Hfail. unfold CorrectnessEvaluator.evaluate.
  assert (negb (JsString.truthy (TestResult.response result))
          || JsString.includes (TestResult.response result) "Test failed:"
          = true) as ->.
  { destruct Hfail as [-> | Hsub%includes_true]; [done|].
    rewrite Hsub. apply orb_true_r. }
  destruct (Test.expectedBehavior test) as [expectedBehavior|];
    [destruct (JsString.truthy expectedBehavior)|];
    try apply normalizeScore_zero.
  rewrite min_zero_nonneg; [apply normalizeScore_zero|].
  apply Qc_mult_nonneg; [apply calculateKeywordMatch_nonneg | by apply ofZ_le].
Qed.

(** ** The evaluator pipeline *)

Section PipelineFacts.
Import JsMath BaseEvaluator.
Variable JSON_stringify : JsValue -> string.

Lemma JsMap_set_fresh {V : Type} (m : JsMap.t V) k v :
  k ∉ JsMap.keys m → JsMap.set k v m = (m ++ [(k, v)])%list.
Proof.
  unfold JsMap.keys. induction m as [|[k' v'] m IH]; simpl; [done|].
  intros [Hne Hnin]%not_elem_of_cons.
  rewrite decide_False; [|done]. f_equal. by apply IH.
Qed.

Lemma JsMap_set_elem {V : Type} (m : JsMap.t V) k v kv :
  kv ∈ JsMap.set k v m → kv = (k, v) ∨ kv ∈ m.
Proof.
  induction m as [|[k' v'] m IH]; simpl.
  - intros ->%list_elem_of_singleton. by left.
  - destruct (decide (k = k')) as [->|Hne]; rewrite !elem_of_cons.
    + intros [->|?]; [by left | right; by right].
    + intros [->|H]; [right; by left|].
      destruct (IH H) as [->|?]; [by left | right; by right].
Qed.

Lemma JsMap_get_elem {V : Type} (m : JsMap.t V) k v :
  JsMap.get k m = Some v → (k, v) ∈ m.
Proof.
  induction m as [|[k' v'] m IH]; simpl; [done|].
  destruct (decide (k = k')) as [->|Hne].
  - intros [= ->]. apply elem_of_cons. by left.
  - intros H. apply elem_of_cons. right. by apply IH.
Qed.

Lemma JsMap_get_fmap {V W : Type} (f : V → W) (m : JsMap.t V) k :
  JsMap.get k (prod_map id f <$> m) = f <$> JsMap.get k m.
Proof.
  induction m as [|[k' v'] m IH]; simpl; [done|].
  by destruct (decide (k = k')).
Qed.

Lemma JsMap_get_own {V : Type} (m : JsMap.t V) k :
  k ≠ "__proto__" →
  JsMap.get k (filter (fun kv => kv.1 ≠ "__proto__") m) = JsMap.get k m.
Proof.
  intros Hk. induction m as [|[k' v'] m IH]; [done|].
  rewrite filter_cons. cbn [fst JsMap.get].
  destruct (decide (k' ≠ "__proto__")) as [Hk'|Hk'%dec_stable]; cbn [JsMap.get].
  - by rewrite IH.
  - rewrite decide_False by congruence. apply IH.
Qed.

Lemma JsMap_keys_own {V : Type} (m : JsMap.t V) k :
  k ∈ JsMap.keys (filter (fun kv => kv.1 ≠ "__proto__") m)
  ↔ k ∈ JsMap.keys m ∧ k ≠ "__proto__".
Proof.
  unfold JsMap.keys. rewrite !list_elem_of_fmap. split.
  - intros ([k' v] & -> & [Hk Hin]%list_elem_of_filter). split; [|done].
    by exists (k', v).
  - intros [([k' v] & -> & Hin) Hk]. exists (k', v). split; [done|].
    by apply list_elem_of_filter.
Qed.

(** The loop of [evaluateAll], started from the scores [acc]. *)
Lemma evaluateAll_loop test result (m : EvaluatorManager.t) (acc : JsMap.t Qc) :
  NoDup (JsMap.keys acc ++ JsMap.keys m) →
  foldl
    (fun scores entry =>
       let '(metricName, evaluator) := entry in
       match BaseEvaluator.evaluate evaluator test result
               (TestResult.conversation result) (TestResult.metricsRaw result)
       with
       | Normal score => EvaluatorManager.assign metricName score scores
       | Throw error =>
           EvaluatorManager.assign metricName EvaluatorManager.defaultScore scores
       end) acc m
  = (acc ++ (prod_map id (fun e => recordedScore e test result)
               <$> filter (fun kv => kv.1 ≠ "__proto__") m))%list.
Proof.
  revert acc. induction m as [|[k e] m IH]; intros acc Hnd.
  - cbn [foldl]. by rewrite filter_nil, app_nil_r.
  - assert (k ∉ JsMap.keys acc) as Hfresh.
    { apply NoDup_app in Hnd as (_ & Hdisj & _). intros Hin.
      apply (Hdisj k Hin). apply elem_of_cons. by left. }
    assert (NoDup (JsMap.keys acc ++ JsMap.keys m)) as Hskip.
    { apply NoDup_app in Hnd as (Hacc & Hdisj & [_ Hm]%NoDup_cons).
      apply NoDup_app. split_and!; [done | | done].
      intros x Hx Hx'. apply (Hdisj x Hx). apply elem_of_cons. by right. }
    assert (∀ v, NoDup (JsMap.keys (JsMap.set k v acc) ++ JsMap.keys m)) as Hnd'.
    { intros v. rewrite JsMap_set_fresh; [|done]. unfold JsMap.keys in *.
      rewrite fmap_app, <- app_assoc. exact Hnd. }
    cbn [foldl]. rewrite filter_cons. cbn [fst]. unfold EvaluatorManager.assign.
    destruct (decide (k = "__proto__")) as [Hk|Hk].
    + rewrite decide_False by (by intros ?).
      destruct (evaluate e test result _ _); by apply IH.
    + rewrite decide_True by done. rewrite fmap_cons.
      unfold prod_map at 1. cbn [fst snd id]. unfold recordedScore at 1.
      destruct (evaluate e test result _ _) as [score|err];
        rewrite IH by apply Hnd'; rewrite JsMap_set_fresh by done;
        by rewrite <- app_assoc.
Qed.

(** [evaluateAll] records one score per registered unit, in order. *)
Lemma evaluateAll_fmap test result (m : EvaluatorManager.t) :
  NoDup (JsMap.keys m) →
  EvaluatorManager.evaluateAll m test result
  = prod_map id (fun e => recordedScore e test result)
      <$> filter (fun kv => kv.1 ≠ "__proto__") m.
Proof. intros Hnd. unfold EvaluatorManager.evaluateAll. by rewrite evaluateAll_loop. Qed.

Lemma create_entries :
  EvaluatorManager.create JSON_stringify
  = [ ("correctness", CorrectnessEvaluator.evaluator);
      ("speed", SpeedEvaluator.evaluator);
      ("tokenEfficiency", TokenEfficiencyEvaluator.evaluator JSON_stringify);
      ("codeQuality", CodeQualityEvaluator.evaluator);
      ("documentation",
       PlaceholderEvaluator.create "documentation"
         "Quality of explanations and comments");
      ("security",
       PlaceholderEvaluator.create "security" "Security best practices");
      ("instructionAdherence",
       PlaceholderEvaluator.create "instructionAdherence"
         "Following CLAUDE.md instructions");
      ("consistency",
       PlaceholderEvaluator.create "consistency"
         "Consistent behavior across similar prompts");
      ("errorRecovery",
       PlaceholderEvaluator.create "errorRecovery"
         "Ability to handle and recover from errors") ].
Proof. reflexivity. Qed.

Lemma managerWith_NoDup extra : NoDup (JsMap.keys (managerWith JSON_stringify extra)).
Proof.
  unfold managerWith.
  assert (NoDup (JsMap.keys (EvaluatorManager.create JSON_stringify))) as H.
  { rewrite create_entries. unfold JsMap.keys. simpl.
    apply (bool_decide_unpack _). by vm_compute. }
  revert H. generalize (EvaluatorManager.create JSON_stringify).
  induction extra as [|e extra IH]; intros m Hm; simpl; [done|].
  apply IH. by apply JsMap_NoDup_set.
Qed.

Lemma managerWith_elem extra k e :
  (k, e) ∈ managerWith JSON_stringify extra →
  (k, e) ∈ EvaluatorManager.create JSON_stringify ∨ e ∈ extra.
Proof.
  unfold managerWith. generalize (EvaluatorManager.create JSON_stringify).
  induction extra as [|e' extra IH]; intros m; simpl; [by left|].
  intros [H|H]%IH.
  - apply JsMap_set_elem in H as [[= _ ->]|H]; [right | by left].
    apply elem_of_cons. by left.
  - right. apply elem_of_cons. by right.
Qed.

Lemma inRange_ofZ (z : Z) : (0 ≤ z ≤ 10)%Z → inRange (ofZ z).
Proof. intros [? ?]. split; by apply ofZ_le. Qed.

Lemma speed_inRange test result conversation metrics :
  inRange (SpeedEvaluator.evaluate test result conversation metrics).
Proof.
  unfold SpeedEvaluator.evaluate.
  repeat case_decide; try (apply inRange_ofZ; lia). apply normalizeScore_range.
Qed.

(** Each of the nine default units returns, and returns a score in range. *)
Lemma default_units_inRange k e test result :
  (k, e) ∈ EvaluatorManager.create JSON_stringify →
  inRange (recordedScore e test result).
Proof.
  rewrite create_entries. unfold recordedScore.
  rewrite !elem_of_cons, elem_of_nil.
  intros H. repeat destruct H as [H|H]; try done;
    injection H as -> ->; cbn [evaluate CorrectnessEvaluator.evaluator
      SpeedEvaluator.evaluator TokenEfficiencyEvaluator.evaluator
      CodeQualityEvaluator.evaluator PlaceholderEvaluator.create];
    first [apply speed_inRange | apply normalizeScore_range].
Qed.

End PipelineFacts.

Section PipelineClaims.
Import JsMath BaseEvaluator.
Variable JSON_stringify : JsValue -> string.

Lemma JsMap_keys_set_incl {V : Type} (m : JsMap.t V) k v x :
  x ∈ JsMap.keys m → x ∈ JsMap.keys (JsMap.set k v m).
Proof.
  intros Hx. destruct (decide (k ∈ (JsMap.keys m : list string))) as [Hin|Hnin].
  - by rewrite JsMap_keys_set_in.
  - rewrite JsMap_keys_set_notin by done. apply elem_of_app. by left.
Qed.

Lemma managerWith_keeps_defaults extra name :
  name ∈ defaultMetricNames → name ∈ JsMap.keys (managerWith JSON_stringify extra).
Proof.
  unfold managerWith.
  assert (JsMap.keys (EvaluatorManager.create JSON_stringify) = defaultMetricNames)
    as <- by (by rewrite create_entries).
  generalize (EvaluatorManager.create JSON_stringify).
  induction extra as [|e extra IH]; intros m Hin; simpl; [done|].
  apply IH. by apply JsMap_keys_set_incl.
Qed.

(** C1. For every test and result, and for every manager obtained from
    the nine defaults by further registrations, [evaluateAll] returns an
    object in which each registered name appears exactly once (the nine
    default names among them; the name [__proto__], which no property
    assignment can create, is the one exception); the entry of a unit is the
    value the unit returns, whatever the other units do, and the neutral 5
    when the unit throws; and every entry lies in [0,10] as soon as the
    units registered on top of the defaults return values in that range.
    With the nine defaults alone the keys are exactly the nine metric names
    and every value lies in [0,10]. *)
Theorem evaluateAll_complete
    (extra : list BaseEvaluator.t) (test : Test.t) (result : TestResult.t) :
  let this := managerWith JSON_stringify extra in
  let scores := EvaluatorManager.evaluateAll this test result in
  NoDup (JsMap.keys scores)
  ∧ (∀ name, name ∈ JsMap.keys scores
             ↔ name ∈ JsMap.keys this ∧ name ≠ "__proto__")
  ∧ (∀ name, name ∈ defaultMetricNames → name ∈ JsMap.keys scores)
  ∧ (∀ name evaluator score,
       name ≠ "__proto__" →
       JsMap.get name this = Some evaluator →
       evaluate evaluator test result (TestResult.conversation result)
         (TestResult.metricsRaw result) = Normal score →
       JsMap.get name scores = Some score)
  ∧ (∀ name evaluator error,
       name ≠ "__proto__" →
       JsMap.get name this = Some evaluator →
       evaluate evaluator test result (TestResult.conversation result)
         (TestResult.metricsRaw result) = Throw error →
       JsMap.get name scores = Some (ofZ 5))
  ∧ ((∀ evaluator score,
        evaluator ∈ extra →
        evaluate evaluator test result (TestResult.conversation result)
          (TestResult.metricsRaw result) = Normal score →
        inRange score) →
     ∀ name score, JsMap.get name scores = Some score → inRange score)
  ∧ JsMap.keys
      (EvaluatorManager.evaluateAll (EvaluatorManager.create JSON_stringify)
         test result) = defaultMetricNames
  ∧ (∀ name score,
       JsMap.get name
         (EvaluatorManager.evaluateAll (EvaluatorManager.create JSON_stringify)
            test result) = Some score →
       inRange score).
Proof.
  intros this scores.
  pose proof (managerWith_NoDup JSON_stringify extra) as Hnd.
  assert (scores = prod_map id (fun e => recordedScore e test result)
                     <$> filter (fun kv => kv.1 ≠ "__proto__") this)
    as Hscores by (by apply evaluateAll_fmap).
  assert (JsMap.keys scores
          = JsMap.keys (filter (fun kv => kv.1 ≠ "__proto__") this)) as Hkeys.
  { rewrite Hscores. unfold JsMap.keys. rewrite <- list_fmap_compose.
    apply list_fmap_ext. by intros _ [? ?] _. }
  assert (∀ name evaluator, name ≠ "__proto__" →
            JsMap.get name this = Some evaluator →
            JsMap.get name scores = Some (recordedScore evaluator test result))
    as Hget.
  { intros name e Hname He.
    by rewrite Hscores, JsMap_get_fmap, JsMap_get_own, He. }
  assert (∀ extra' m,
            m = managerWith JSON_stringify extra' →
            (∀ evaluator score,
               evaluator ∈ extra' →
               evaluate evaluator test result (TestResult.conversation result)
                 (TestResult.metricsRaw result) = Normal score →
               inRange score) →
            ∀ name score,
              JsMap.get name (EvaluatorManager.evaluateAll m test result)
              = Some score → inRange score) as Hrange.
  { intros extra' m -> Hextra name score.
    rewrite evaluateAll_fmap by apply managerWith_NoDup.
    rewrite JsMap_get_fmap.
    destruct (JsMap.get name _) as [e|] eqn:He; [|done]. intros [= <-].
    apply JsMap_get_elem, list_elem_of_filter in He as [_ He].
    apply managerWith_elem in He as [He|He].
    - by eapply default_units_inRange.
    - unfold recordedScore.
      destruct (evaluate e test result _ _) as [v|err] eqn:Hv.
      + by eapply Hextra.
      + by apply inRange_ofZ. }
  split_and!.
  - rewrite Hkeys. unfold JsMap.keys. apply NoDup_fmap_fst.
    + intros k v1 v2 [_ H1]%list_elem_of_filter [_ H2]%list_elem_of_filter.
      by eapply JsMap_elem_functional.
    + apply NoDup_filter. by eapply JsMap_NoDup_entries.
  - intros name. rewrite Hkeys. apply JsMap_keys_own.
  - intros name Hname. rewrite Hkeys. apply JsMap_keys_own. split.
    + by apply managerWith_keeps_defaults.
    + intros ->. revert Hname. apply (bool_decide_unpack _). by vm_compute.
  - intros name e score Hname He Hv. rewrite (Hget _ _ Hname He).
    unfold recordedScore. by rewrite Hv.
  - intros name e err Hname He Hv. rewrite (Hget _ _ Hname He).
    unfold recordedScore. by rewrite Hv.
  - by apply (Hrange extra).
  - change (EvaluatorManager.create JSON_stringify)
      with (managerWith JSON_stringify []).
    rewrite evaluateAll_fmap by apply managerWith_NoDup.
    unfold managerWith. cbn [foldl]. by rewrite create_entries.
  - apply (Hrange []); [done|]. intros e score He. by apply elem_of_nil in He.
Qed.

End PipelineClaims.

(** C1 with a unit that throws registered under the name [speed]: the
    nine names are there, the entry of the thrower is 5, the placeholder
    for [documentation] keeps its own score 4, and all entries are in
    range. *)
Lemma evaluateAll_complete_witness :
  let result := Sample.resultWith "done" in
  let scores :=
    EvaluatorManager.evaluateAll (managerWith JSON.stringify [Sample.brokenSpeed])
      Sample.test result in
  JsMap.keys scores = defaultMetricNames
  ∧ JsMap.get "speed" scores = Some (JsMath.ofZ 5)
  ∧ JsMap.get "documentation" scores = Some (JsMath.ofZ 4)
  ∧ ∀ name score, JsMap.get name scores = Some score → inRange score.
Proof.
  intros result scores.
  destruct (evaluateAll_complete JSON.stringify [Sample.brokenSpeed]
              Sample.test result)
    as (_ & _ & _ & Hnormal & Hthrow & Hrange & _).
  split_and!.
  - apply (bool_decide_unpack _). by vm_compute.
  - eapply (Hthrow "speed" Sample.brokenSpeed); [discriminate | reflexivity..].
  - unfold scores.
    rewrite (Hnormal "documentation" _ _ ltac:(discriminate) eq_refl eq_refl).
    apply (f_equal Some), Qc_is_canon. reflexivity.
  - apply Hrange. intros e score ->%list_elem_of_singleton. discriminate.
Defined.

(** ** The serializer *)

Section SerializerFacts.

Lemma scan_app st a b :
  scan st (a ++ b) = scan st a ≫= fun st' => scan st' b.
Proof.
  revert st. induction a as [|c a IH]; intros st; [done|].
  change (String c a ++ b) with (String c (a ++ b)). cbn [scan].
  destruct (scanStep st c) as [st'|]; [apply IH | done].
Qed.

(** A scan that succeeds succeeds from every greater depth, with the same
    change of depth. *)
Lemma scan_shift s : ∀ depth mode k result,
  (0 ≤ k)%Z →
  scan (depth, mode) s = Some result →
  scan ((depth + k)%Z, mode) s = Some ((result.1 + k)%Z, result.2).
Proof.
  induction s as [|c s IH]; intros depth mode k result Hk; cbn [scan].
  - by intros [= <-].
  - destruct (scanStep (depth, mode) c) as [[depth' mode']|] eqn:Hstep; [|done].
    intros Hrest.
    assert (scanStep ((depth + k)%Z, mode) c = Some ((depth' + k)%Z, mode'))
      as ->; [|by apply IH].
    unfold scanStep in *. destruct mode.
    + repeat case_match; simplify_eq; try done; try (f_equal; f_equal; lia).
    + repeat case_match; by simplify_eq.
    + by simplify_eq.
Qed.

(** Two scans of one text, one started outside and one inside of a
    string, stay on opposite sides for as long as both go on. *)
Lemma scan_opposite s : ∀ st1 st2 r1 r2,
  opposite st1.2 st2.2 →
  scan st1 s = Some r1 → scan st2 s = Some r2 →
  opposite r1.2 r2.2.
Proof.
  induction s as [|c s IH]; intros [d1 m1] [d2 m2] r1 r2 Hopp; cbn [scan].
  - by intros [= <-] [= <-].
  - destruct (scanStep (d1, m1) c) as [st1'|] eqn:H1; [|done].
    destruct (scanStep (d2, m2) c) as [st2'|] eqn:H2; [|done].
    apply IH. unfold scanStep in H1, H2. cbn [snd] in Hopp.
    destruct Hopp as [[-> ->]|[-> ->]];
      destruct (Ascii.eqb c JSON.dquote) eqn:Hq;
      destruct (Ascii.eqb c JSON.backslash) eqn:Hb;
      try (apply Ascii.eqb_eq in Hq; subst c; vm_compute in Hb; discriminate);
      try done; repeat case_match; simplify_eq; cbn; (by left) || (by right).
Qed.

Lemma scan_plain s : ∀ depth rest,
  allChars isPlain s = true →
  scan (depth, Outside) (s ++ rest) = scan (depth, Outside) rest.
Proof.
  induction s as [|c s IH]; intros depth rest; [done|].
  cbn [allChars]. intros [Hc Hs]%andb_true_iff.
  change (String c s ++ rest) with (String c (s ++ rest)). cbn [scan].
  assert (scanStep (depth, Outside) c = Some (depth, Outside)) as ->;
    [|by apply IH].
  unfold isPlain in Hc. unfold scanStep.
  repeat (apply andb_true_iff in Hc as [Hc ?]).
  repeat match goal with H : negb _ = true |- _ =>
    apply negb_true_iff in H; rewrite H end.
  done.
Qed.

Lemma digit_plain n : (n < 10)%nat → isPlain (JSON.digit n) = true.
Proof. intros H. do 10 (destruct n as [|n]; [done|]). lia. Qed.

Lemma digitsOf_plain fuel : ∀ n acc,
  allChars isPlain acc = true →
  allChars isPlain (JSON.digitsOf fuel n acc) = true.
Proof.
  induction fuel as [|fuel IH]; intros n acc Hacc; [done|].
  cbn [JSON.digitsOf].
  assert (allChars isPlain
            (String (JSON.digit (N.to_nat (n mod 10))) acc) = true) as Hacc'.
  { cbn [allChars]. rewrite Hacc, digit_plain; [done|].
    pose proof (N.mod_upper_bound n 10 ltac:(done)). lia. }
  destruct (n <? 10)%N; [done | by apply IH].
Qed.

Lemma number_plain z : allChars isPlain (JSON.number z) = true.
Proof.
  unfold JSON.number.
  pose proof (digitsOf_plain (S (N.size_nat (Z.abs_N z))) (Z.abs_N z)
                EmptyString eq_refl) as H.
  case_decide; [|done].
  change ("-" ++ ?s) with (String "-" s). cbn [allChars]. by rewrite H.
Qed.

Lemma quoteChar_scan c depth rest :
  scan (depth, Inside) (JSON.quoteChar c ++ rest) = scan (depth, Inside) rest.
Proof. destruct c as [[] [] [] [] [] [] [] []]; reflexivity. Qed.

Lemma quoteBody_scan s : ∀ depth rest,
  scan (depth, Inside) (JSON.quoteBody s ++ rest) = scan (depth, Inside) rest.
Proof.
  induction s as [|c s IH]; intros depth rest; [done|].
  cbn [JSON.quoteBody]. by rewrite string_app_assoc, quoteChar_scan.
Qed.

Lemma quote_scan s depth rest :
  scan (depth, Outside) (JSON.quote s ++ rest) = scan (depth, Outside) rest.
Proof.
  unfold JSON.quote.
  change (String JSON.dquote ?a ++ rest) with (String JSON.dquote (a ++ rest)).
  cbn [scan scanStep]. rewrite Ascii.eqb_refl.
  by rewrite string_app_assoc, quoteBody_scan.
Qed.

Lemma JsValue_nested_ind (P : JsValue → Prop) :
  P JNull → (∀ b, P (JBool b)) → (∀ z, P (JNumber z)) → (∀ s, P (JString s)) →
  (∀ items, Forall P items → P (JArray items)) →
  (∀ fields, Forall (fun kv => P kv.2) fields → P (JObject fields)) →
  ∀ v, P v.
Proof.
  intros Hnull Hbool Hnumber Hstring Harray Hobject.
  fix IH 1. intros [| b | z | s | items | fields].
  - exact Hnull.
  - apply Hbool.
  - apply Hnumber.
  - apply Hstring.
  - apply Harray. induction items as [|x items IHitems]; constructor;
      [apply IH | exact IHitems].
  - apply Hobject. induction fields as [|[k x] fields IHfields]; constructor;
      [apply IH | exact IHfields].
Qed.

Lemma scan_open (c : ascii) depth rest :
  c = "["%char ∨ c = "{"%char →
  scan (depth, Outside) (String c rest) = scan ((depth + 1)%Z, Outside) rest.
Proof. by intros [->| ->]. Qed.

Lemma scan_close (c : ascii) depth rest :
  c = "]"%char ∨ c = "}"%char →
  scan ((depth + 1)%Z, Outside) (String c rest) = scan (depth, Outside) rest.
Proof.
  intros Hc.
  assert (scan ((depth + 1)%Z, Outside) (String c rest)
          = scan ((depth + 1 - 1)%Z, Outside) rest) as ->
    by (by destruct Hc as [->| ->]).
  do 2 f_equal. lia.
Qed.

Lemma scan_comma depth rest :
  scan (depth, Outside) (String "," rest) = scan (depth, Outside) rest.
Proof. reflexivity. Qed.

Lemma scan_colon depth rest :
  (0 < depth)%Z →
  scan (depth, Outside) (String ":" rest) = scan (depth, Outside) rest.
Proof.
  intros Hdepth.
  assert (scan (depth, Outside) (String ":" rest)
          = if decide (0 < depth)%Z then scan (depth, Outside) rest else None)
    as -> by (cbv [scan scanStep]; cbn; by case_decide).
  by rewrite decide_True.
Qed.

(** A list of texts that each scan from [depth] back to [depth], joined by
    commas. *)
Lemma joinWith_scan (texts : list string) depth :
  Forall (fun text => ∀ rest,
            scan (depth, Outside) (text ++ rest) = scan (depth, Outside) rest)
         texts →
  ∀ rest,
    scan (depth, Outside) (NodePath.joinWith "," texts ++ rest)
    = scan (depth, Outside) rest.
Proof.
  induction texts as [|text [|text' texts] IH]; intros Hall rest; [done| |].
  - apply Forall_cons in Hall as [Htext _]. apply Htext.
  - apply Forall_cons in Hall as [Htext Hrest].
    change (NodePath.joinWith "," (text :: text' :: texts))
      with (text ++ "," ++ NodePath.joinWith "," (text' :: texts)).
    rewrite string_app_assoc, Htext.
    change (("," ++ ?a) ++ rest) with (String "," (a ++ rest)).
    rewrite scan_comma. by apply IH.
Qed.

(** A JSON text scans from any depth back to that depth. *)
Lemma stringify_scan v : ∀ depth rest,
  (0 ≤ depth)%Z →
  scan (depth, Outside) (JSON.stringify v ++ rest) = scan (depth, Outside) rest.
Proof.
  induction v as [| b | z | s | items IH | fields IH] using JsValue_nested_ind;
    intros depth rest Hdepth.
  - reflexivity.
  - by destruct b.
  - apply scan_plain, number_plain.
  - apply quote_scan.
  - cbn [JSON.stringify].
    change (("[" ++ ?a) ++ rest) with (String "[" (a ++ rest)).
    rewrite scan_open by (by left).
    rewrite string_app_assoc, joinWith_scan.
    + change ("]" ++ rest) with (String "]" rest).
      apply scan_close. by left.
    + apply Forall_fmap. eapply Forall_impl; [exact IH|].
      intros item Hitem rest'. apply Hitem. lia.
  - cbn [JSON.stringify].
    change (("{" ++ ?a) ++ rest) with (String "{" (a ++ rest)).
    rewrite scan_open by (by right).
    rewrite string_app_assoc, joinWith_scan.
    + change ("}" ++ rest) with (String "}" rest).
      apply scan_close. by right.
    + apply Forall_fmap. eapply Forall_impl; [exact IH|].
      intros [k x] Hx rest'. cbn [fst snd] in *.
      rewrite string_app_assoc, quote_scan.
      change ((":" ++ ?a) ++ rest') with (String ":" (a ++ rest')).
      rewrite scan_colon by lia. apply Hx. lia.
Qed.

(** No JSON text ends, after a colon, with another JSON text: so the
    colon that [signature] puts between the tool name and the serialized
    parameters can be found again. *)
Lemma stringify_separable (v v' : JsValue) (p : string) :
  JSON.stringify v ≠ p ++ ":" ++ JSON.stringify v'.
Proof.
  intros Heq.
  pose proof (stringify_scan v 0 EmptyString ltac:(done)) as Hv.
  pose proof (stringify_scan v' 0 EmptyString ltac:(done)) as Hv'.
  rewrite Heq, string_app_assoc, scan_app in Hv.
  change (scan (0%Z, Outside) EmptyString) with (Some (0%Z, Outside)) in Hv, Hv'.
  destruct (scan (0%Z, Outside) p) as [[depth mode]|]; [|done].
  cbn [mbind option_bind] in Hv.
  change ((":" ++ ?a) ++ EmptyString) with (String ":" (a ++ EmptyString)) in Hv.
  cbn [scan] in Hv.
  destruct (scanStep (depth, mode) ":") as [[depth' mode']|] eqn:Hstep; [|done].
  unfold scanStep in Hstep. destruct mode.
  - cbn in Hstep. case_decide as Hpos; [|done]. injection Hstep as <- <-.
    pose proof (scan_shift _ _ _ depth _ ltac:(lia) Hv') as Hshift.
    cbn [fst snd] in Hshift. rewrite !Z.add_0_l in Hshift.
    rewrite Hshift in Hv. injection Hv as Hdepth. lia.
  - cbn in Hstep. injection Hstep as <- <-.
    destruct (scan_opposite _ (0%Z, Outside) (depth, Inside) _ _
                ltac:(by left) Hv' Hv) as [[? ?]|[? ?]]; done.
  - injection Hstep as <- <-.
    destruct (scan_opposite _ (0%Z, Outside) (depth, Inside) _ _
                ltac:(by left) Hv' Hv) as [[? ?]|[? ?]]; done.
Qed.

End SerializerFacts.

(** ** Retries and duplicates *)

Section CountingFacts.
Variable JSON_stringify : JsValue -> string.

Local Abbreviation signature := (TokenEfficiencyEvaluator.signature JSON_stringify).
Local Abbreviation countStep := (TokenEfficiencyEvaluator.countStep JSON_stringify).
Local Abbreviation retryStep := (TestRunner.retryStep JSON_stringify).
Local Abbreviation key := (callKey JSON_stringify).

(** The two nested [forEach] loops visit the calls of the transcript in
    order, across message boundaries. *)
Lemma nested_forEach {S : Type} (step : S → ToolCall.t → S) (st : S)
    (messages : list Message.t) :
  foldl (fun st message =>
           match Message.toolCalls message with
           | Some calls => foldl step st calls
           | None => st
           end) st messages
  = foldl step st
      (mjoin ((fun message => default [] (Message.toolCalls message))
                <$> messages)).
Proof.
  revert st. induction messages as [|msg messages IH]; intros st; [done|].
  cbn [foldl fmap list_fmap mjoin list_join]. rewrite foldl_app, IH.
  by destruct (Message.toolCalls msg).
Qed.

Lemma adjacentRepeats_cons2 {A : Type} `{EqDecision A} (x y : A) l :
  adjacentRepeats (x :: y :: l)
  = ((if decide (x = y) then 1 else 0) + adjacentRepeats (y :: l))%nat.
Proof. done. Qed.

Lemma last_cons_Some {A : Type} (z : A) l :
  last (z :: l) = Some (default z (last l)).
Proof.
  revert z. induction l as [|w l IH]; intros z; [done|].
  change (last (z :: w :: l)) with (last (w :: l)). by rewrite !IH.
Qed.

Lemma last_cons_default {A : Type} (x z : A) l :
  default x (last (z :: l)) = default z (last l).
Proof. by rewrite last_cons_Some. Qed.

Lemma adjacentRepeats_cons_snoc {A : Type} `{EqDecision A} (x : A) l y :
  adjacentRepeats (x :: (l ++ [y])%list)
  = (adjacentRepeats (x :: l)
     + if decide (default x (last l) = y) then 1 else 0)%nat.
Proof.
  revert x. induction l as [|z l IH]; intros x.
  - cbn. lia.
  - change ((z :: l) ++ [y])%list with (z :: (l ++ [y])%list).
    rewrite !adjacentRepeats_cons2, IH, last_cons_default. lia.
Qed.

(** The test of [countRetries] compares the two pairs. *)
Lemma retry_test (prev c : ToolCall.t) :
  bool_decide (ToolCall.toolName prev = ToolCall.toolName c)
  && bool_decide (JSON_stringify (ToolCall.parameters prev)
                  = JSON_stringify (ToolCall.parameters c))
  = bool_decide (key prev = key c).
Proof.
  rewrite <- bool_decide_and. apply bool_decide_ext. unfold callKey. split.
  - by intros [-> ->].
  - by intros [= -> ->].
Qed.

(** The state of [countRetries] after the calls [l], started with the
    last call [prev]. *)
Lemma retry_loop (retries : nat) (prev : ToolCall.t) (l : list ToolCall.t) :
  foldl retryStep (retries, Some prev) l
  = ((retries + adjacentRepeats (key prev :: (key <$> l)))%nat,
     Some (default prev (last l))).
Proof.
  revert retries prev. induction l as [|c l IH]; intros retries prev.
  - cbn. f_equal. lia.
  - cbn [foldl]. unfold TestRunner.retryStep at 2. rewrite IH, retry_test.
    rewrite fmap_cons, adjacentRepeats_cons2, last_cons_default.
    f_equal. destruct (decide (key prev = key c)) as [Heq|Hne].
    + rewrite bool_decide_eq_true_2 by done. lia.
    + rewrite bool_decide_eq_false_2 by done. lia.
Qed.

Lemma retry_flat (l : list ToolCall.t) :
  (foldl retryStep (0%nat, None) l).1 = adjacentRepeats (key <$> l).
Proof.
  destruct l as [|c l]; [done|].
  cbn [foldl]. unfold TestRunner.retryStep at 2. by rewrite retry_loop.
Qed.

(** The state of [countDuplicateToolCalls] after the calls [l]: every
    call either opens a new row of the table or counts as a duplicate. *)
Lemma duplicate_loop (table : gmap string nat) (duplicates : nat)
    (l : list ToolCall.t) :
  (∀ s n, table !! s = Some n → (0 < n)%nat) →
  dom (foldl countStep (table, duplicates) l).1
  = dom table ∪ list_to_set (signature <$> l)
  ∧ ((foldl countStep (table, duplicates) l).2
     + size (dom (foldl countStep (table, duplicates) l).1)
     = duplicates + size (dom table) + length l)%nat.
Proof.
  revert table duplicates.
  induction l as [|c l IH]; intros table duplicates Hpos.
  - cbn. split; [set_solver | lia].
  - cbn [foldl]. unfold TokenEfficiencyEvaluator.countStep at 2 4 6.
    set (s := signature c).
    set (count := (default 0%nat (table !! s) + 1)%nat).
    assert (∀ s' n, <[s := count]> table !! s' = Some n → (0 < n)%nat) as Hpos'.
    { intros s' n. rewrite lookup_insert. case_decide.
      - intros [= <-]. unfold count. lia.
      - apply Hpos. }
    destruct (IH (<[s := count]> table)
                 (if decide (1 < count)%nat then S duplicates else duplicates)
                 Hpos') as [Hdom Hsize].
    split.
    + rewrite Hdom, dom_insert_L, fmap_cons, list_to_set_cons.
      fold s. set_solver.
    + rewrite Hsize, dom_insert_L. cbn [length].
      destruct (table !! s) as [n|] eqn:Hs.
      * assert (s ∈ dom table) by (apply elem_of_dom; eauto).
        replace ({[s]} ∪ dom table) with (dom table) by set_solver.
        pose proof (Hpos s n Hs). subst count. rewrite ?Hs. cbv [default from_option id].
        rewrite decide_True by lia. lia.
      * assert (s ∉ dom table) by (by apply not_elem_of_dom).
        rewrite size_union by set_solver. rewrite size_singleton.
        subst count. rewrite ?Hs. cbv [default from_option id].
        rewrite decide_False by lia. lia.
Qed.

Lemma distinctCount_cons s signatures :
  distinctCount (s :: signatures)
  = if decide (s ∈ signatures) then distinctCount signatures
    else S (distinctCount signatures).
Proof.
  unfold distinctCount. cbn [list_to_set foldr].
  change (foldr _ _ signatures) with (list_to_set (C := gset string) signatures).
  case_decide as Hin.
  - f_equal. apply leibniz_equiv. set_solver.
  - rewrite size_union by set_solver. by rewrite size_singleton.
Qed.

Lemma distinctKeys_cons k keys :
  distinctKeys (k :: keys)
  = if decide (k ∈ keys) then distinctKeys keys else S (distinctKeys keys).
Proof.
  unfold distinctKeys. cbn [list_to_set foldr].
  change (foldr _ _ keys) with (list_to_set (C := gset (string * string)) keys).
  case_decide as Hin.
  - f_equal. apply leibniz_equiv. set_solver.
  - rewrite size_union by set_solver. by rewrite size_singleton.
Qed.

(** Two texts with a colon after a prefix each are equal only if the
    prefixes are, unless one of the two rests ends, after a colon, with the
    other. *)
Lemma colon_separates (name name' text text' : string) :
  (∀ p, text ≠ p ++ ":" ++ text') →
  (∀ p, text' ≠ p ++ ":" ++ text) →
  name ++ ":" ++ text = name' ++ ":" ++ text' →
  name = name' ∧ text = text'.
Proof.
  intros Htext Htext'. revert name'.
  induction name as [|c name IH]; intros [|c' name'].
  - change (EmptyString ++ ":" ++ text) with (String ":" text).
    change (EmptyString ++ ":" ++ text') with (String ":" text').
    by intros [= ->].
  - change (EmptyString ++ ":" ++ text) with (String ":" text).
    change (String c' name' ++ ":" ++ text')
      with (String c' (name' ++ ":" ++ text')).
    intros [= <- Heq]. by destruct (Htext name').
  - change (EmptyString ++ ":" ++ text') with (String ":" text').
    change (String c name ++ ":" ++ text)
      with (String c (name ++ ":" ++ text)).
    intros [= -> Heq]. by destruct (Htext' name).
  - change (String c name ++ ":" ++ text)
      with (String c (name ++ ":" ++ text)).
    change (String c' name' ++ ":" ++ text')
      with (String c' (name' ++ ":" ++ text')).
    intros [= -> Heq]. destruct (IH _ Heq) as [-> ->]. done.
Qed.

Lemma duplicate_flat (l : list ToolCall.t) :
  ((foldl countStep (∅, 0%nat) l).2 + distinctCount (signature <$> l)
   = length l)%nat.
Proof.
  destruct (duplicate_loop ∅ 0%nat l) as [Hdom Hsize].
  { intros s n. by rewrite lookup_empty. }
  unfold distinctCount. rewrite Hdom, dom_empty_L, size_empty in Hsize.
  replace (∅ ∪ list_to_set (signature <$> l))
    with (list_to_set (signature <$> l) : gset string) in Hsize by set_solver.
  lia.
Qed.

End CountingFacts.

Section CountingClaims.
Variable JSON_stringify : JsValue -> string.

Local Abbreviation signature := (TokenEfficiencyEvaluator.signature JSON_stringify).
Local Abbreviation countDuplicateToolCalls :=
  (TokenEfficiencyEvaluator.countDuplicateToolCalls JSON_stringify).
Local Abbreviation countRetries := (TestRunner.countRetries JSON_stringify).
Local Abbreviation key := (callKey JSON_stringify).

Lemma countRetries_flat conversation :
  countRetries conversation = adjacentRepeats (key <$> transcriptCalls conversation).
Proof.
  unfold TestRunner.countRetries, transcriptCalls.
  by rewrite nested_forEach, retry_flat.
Qed.

Lemma countDuplicateToolCalls_flat conversation :
  (countDuplicateToolCalls conversation
   + distinctCount (signature <$> transcriptCalls conversation)
   = length (transcriptCalls conversation))%nat.
Proof.
  unfold TokenEfficiencyEvaluator.countDuplicateToolCalls, transcriptCalls.
  rewrite nested_forEach. apply duplicate_flat.
Qed.

Lemma transcriptCalls_extend conversation message calls :
  Message.toolCalls message = Some calls →
  transcriptCalls (extend conversation message)
  = (transcriptCalls conversation ++ calls)%list.
Proof.
  intros H. unfold transcriptCalls, extend. cbn [ConversationHistory.messages].
  rewrite fmap_app, join_app. cbn. by rewrite H, app_nil_r.
Qed.

(** [JSON.stringify] never returns a text that ends, after a colon, with
    another text that it returns. *)
Hypothesis serializer_separable :
  ∀ (v v' : JsValue) (p : string),
    JSON_stringify v ≠ p ++ ":" ++ JSON_stringify v'.

(** Two calls have the same signature exactly when they have the same
    tool name and the same serialized parameters. *)
Lemma signature_key (c c' : ToolCall.t) :
  signature c = signature c' ↔ key c = key c'.
Proof.
  unfold TokenEfficiencyEvaluator.signature, callKey. split.
  - intros Heq. apply colon_separates in Heq as [-> ->];
      [done | apply serializer_separable | apply serializer_separable].
  - by intros [= -> ->].
Qed.

Lemma distinct_signatures_keys (calls : list ToolCall.t) :
  distinctCount (signature <$> calls) = distinctKeys (key <$> calls).
Proof.
  induction calls as [|c calls IH]; [done|].
  rewrite !fmap_cons, distinctCount_cons, distinctKeys_cons, IH.
  destruct (decide (signature c ∈ signature <$> calls)) as [Hin|Hin];
    destruct (decide (key c ∈ key <$> calls)) as [Hin'|Hin']; try done.
  - apply list_elem_of_fmap in Hin as (c' & Heq & Hc').
    destruct Hin'. apply list_elem_of_fmap. exists c'.
    split; [by apply signature_key | done].
  - apply list_elem_of_fmap in Hin' as (c' & Heq & Hc').
    destruct Hin. apply list_elem_of_fmap. exists c'.
    split; [by apply signature_key | done].
Qed.

(** C5. Over any conversation, the retry count is the number of tool calls
    whose pair (tool name, serialized parameters) equals the pair of the
    call just before, in the sequence of all calls of the transcript; the
    duplicate count is the number of calls minus the number of different
    pairs (tool name, serialized parameters), that is, the occurrences
    beyond the first of each pair.  In particular a further call that
    repeats the pair of an earlier call but differs from the last call
    raises the duplicate count by one and leaves the retry count as it is.
    The pairs are those of the specification; the code compares the texts
    [toolName + ':' + JSON.stringify(parameters)], which tell the pairs
    apart because of what [JSON.stringify] returns. *)
Theorem retries_and_duplicates (conversation : ConversationHistory.t) :
  let calls := transcriptCalls conversation in
  let keys := key <$> calls in
  countRetries conversation = adjacentRepeats keys
  ∧ countDuplicateToolCalls conversation
    = (length keys - distinctKeys keys)%nat
  ∧ (distinctKeys keys ≤ length keys)%nat
  ∧ ∀ (message : Message.t) (call previous : ToolCall.t),
      Message.toolCalls message = Some [call] →
      last calls = Some previous →
      key previous ≠ key call →
      key call ∈ keys →
      countRetries (extend conversation message) = countRetries conversation
      ∧ countDuplicateToolCalls (extend conversation message)
        = S (countDuplicateToolCalls conversation).
Proof.
  intros calls keys.
  pose proof (countDuplicateToolCalls_flat conversation) as Hdup.
  fold calls in Hdup. rewrite distinct_signatures_keys in Hdup. fold keys in Hdup.
  assert (length keys = length calls) as Hlen by apply length_fmap.
  split_and!.
  - apply countRetries_flat.
  - lia.
  - lia.
  - intros message call previous Hmsg Hlast Hkey Hin.
    pose proof (transcriptCalls_extend conversation message [call] Hmsg) as Hext.
    fold calls in Hext. split.
    + rewrite !countRetries_flat, Hext. fold calls.
      destruct calls as [|c0 l]; [done|].
      rewrite fmap_app, !fmap_cons. cbn [fmap list_fmap app].
      change (key c0 :: ((key <$> l) ++ [key call])%list)
        with (key c0 :: ((key <$> l) ++ [key call]))%list.
      rewrite adjacentRepeats_cons_snoc, fmap_last.
      rewrite last_cons_Some in Hlast. injection Hlast as <-.
      rewrite decide_False; [lia|].
      by destruct (last l).
    + pose proof (countDuplicateToolCalls_flat (extend conversation message))
        as Hdup'.
      rewrite distinct_signatures_keys, Hext, fmap_app, length_app in Hdup'.
      cbn [length fmap list_fmap] in Hdup'. fold keys in Hdup'.
      assert (distinctKeys (keys ++ [key call])%list = distinctKeys keys)
        as Heq.
      { unfold distinctKeys. f_equal. rewrite list_to_set_app_L.
        assert (key call ∈ (list_to_set keys : gset (string * string)))
          as Hmember by (by apply elem_of_list_to_set).
        cbn [list_to_set foldr]. apply leibniz_equiv.
        intros k. rewrite !elem_of_union, elem_of_singleton.
        split; [|by left].
        intros [?|[->|[]%elem_of_empty]]; done. }
      rewrite Heq in Hdup'. lia.
Qed.

End CountingClaims.

(** C5 on the transcript write, read, write: the second write is a
    duplicate and not a retry.  The serializer is the model of
    [JSON.stringify]. *)
Lemma retries_and_duplicates_witness :
  let conversation :=
    Sample.conversationOf
      [Sample.turn 1 (Some [Sample.writeCall]); Sample.turn 2 None;
       Sample.turn 3 (Some [Sample.readCall])] in
  let message := Sample.turn 4 (Some [Sample.writeCall]) in
  (∀ (v v' : JsValue) (p : string),
     JSON.stringify v ≠ p ++ ":" ++ JSON.stringify v')
  ∧ TestRunner.countRetries JSON.stringify (extend conversation message) = 0%nat
  ∧ TokenEfficiencyEvaluator.countDuplicateToolCalls JSON.stringify
      (extend conversation message) = 1%nat.
Proof.
  intros conversation message.
  split; [exact stringify_separable|].
  destruct (retries_and_duplicates JSON.stringify stringify_separable
              conversation)
    as (Hretries & Hdups & _ & Hstep).
  destruct (Hstep message Sample.writeCall Sample.readCall)
    as [Hr Hd].
  - reflexivity.
  - reflexivity.
  - discriminate.
  - apply (bool_decide_unpack _). by vm_compute.
  - rewrite Hr, Hd, Hretries, Hdups. split; reflexivity.
Defined.

(** ** The process-based runner *)

Section RunnerFacts.
Variable path_join : string -> string -> string.

Local Abbreviation executeTest := (ClaudeCodeRunner.executeTest path_join).

(** What a [TestResult] of [executeTest] is made of. *)
Lemma executeTest_Normal runner w content test testRunId result :
  executeTest runner w content test testRunId = Normal result →
  ∃ workspacePath executionResult,
    ClaudeCodeRunner.runClaudeCode runner w workspacePath (Test.prompt test)
      (configuredTimeout runner test) = Normal executionResult
    ∧ TestResult.metricsRaw result
      = ClaudeCodeRunner.collectMetrics w workspacePath executionResult
    ∧ TestResult.response result = ExecutionResult.output executionResult
    ∧ TestResult.responseTimeMs result = ExecutionResult.duration executionResult
    ∧ TestResult.testId result = Test.id test
    ∧ MetricScores.correctness (TestResult.scores result) = JsMath.ofZ 7
    ∧ Message.toolCalls <$> ConversationHistory.messages (TestResult.conversation result)
      = [None; None].
Proof.
  unfold ClaudeCodeRunner.executeTest, configuredTimeout.
  destruct (World.mkdir w _); [done|].
  destruct (World.writeFile w _ _); [done|].
  destruct (ClaudeCodeRunner.runClaudeCode _ _ _ _ _) as [er|] eqn:Hrun; [|done].
  intros [= <-]. eexists _, er. split_and!; done.
Qed.

(** C10. Whatever the workspace and the execution result are,
    [collectMetrics] returns no tool call and a retry count of 0; so in a
    [TestResult] of [executeTest] the retry penalty of the correctness
    evaluator leaves every score as it is, and the transcript holds no tool
    call from which a tool error could be taken. *)
Theorem collectMetrics_no_tool_calls
    (w : World.t) (workspacePath : string) (executionResult : ExecutionResult.t) :
  RawMetrics.allToolCalls
    (ClaudeCodeRunner.collectMetrics w workspacePath executionResult) = []
  ∧ RawMetrics.retryAttempts
      (ClaudeCodeRunner.collectMetrics w workspacePath executionResult) = 0%Z
  ∧ ∀ runner content test testRunId result,
      executeTest runner w content test testRunId = Normal result →
      RawMetrics.allToolCalls (TestResult.metricsRaw result) = []
      ∧ RawMetrics.retryAttempts (TestResult.metricsRaw result) = 0%Z
      ∧ (∀ score,
           CorrectnessEvaluator.retryPenalty (TestResult.metricsRaw result) score
           = score)
      ∧ transcriptCalls (TestResult.conversation result) = []
      ∧ TestRunner.extractErrors (TestResult.conversation result) = [].
Proof.
  split_and!; [done | done |].
  intros runner content test testRunId result
    (path & er & _ & Hmetrics & _ & _ & _ & _ & Hcalls)%executeTest_Normal.
  rewrite Hmetrics. split_and!; try done.
  - unfold transcriptCalls.
    destruct (ConversationHistory.messages _) as [|m1 [|m2 [|m3 l]]]; try done.
    cbn in Hcalls. injection Hcalls as H1 H2. cbn. by rewrite H1, H2.
  - unfold TestRunner.extractErrors.
    destruct (ConversationHistory.messages _) as [|m1 [|m2 [|m3 l]]]; try done.
    cbn in Hcalls. injection Hcalls as H1 H2. cbn. by rewrite H1, H2.
Qed.

(** C8, as the code has it.  When the execution exceeds the configured
    timeout, that is, when the timer that [runClaudeCode] sets with the
    configured timeout runs before the child ends, [executeTest] returns a
    result whose response is the output so far followed by the marker
    [[TIMEOUT]], whose metrics hold one error event, of type
    [execution_error] with the message ['Process timed out'], and whose
    error-recovery score is 4; its [responseTimeMs] is the difference of the
    two readings of [Date.now()], in the timer's callback and before
    [spawn]; its correctness score is the placeholder 7. *)
Theorem timeout_result
    (runner : ClaudeCodeRunner.t) (w : World.t) (content : string)
    (test : Test.t) (testRunId : Z) (claudeProcess : World.Process) :
  workspaceReady w →
  spawns w claudeProcess →
  timesOut w claudeProcess (configuredTimeout runner test) →
  let fires := World.timerAt w (configuredTimeout runner test) in
  ∃ result,
    executeTest runner w content test testRunId = Normal result
    ∧ TestResult.responseTimeMs result
      = (World.nowAt w fires - World.now_spawn w)%Z
    ∧ TestResult.response result
      = World.stdoutBy claudeProcess fires
          ++ String (ascii_of_nat 10) "[TIMEOUT]"
    ∧ RawMetrics.errorsEncountered (TestResult.metricsRaw result)
      = [ {| ErrorEvent.type := "execution_error";
             ErrorEvent.message := ErrorEvent.Text "Process timed out";
             ErrorEvent.stack := None;
             ErrorEvent.timestamp := World.now_error w;
             ErrorEvent.recovered := false |} ]
    ∧ MetricScores.errorRecovery (TestResult.scores result) = JsMath.ofZ 4
    ∧ MetricScores.correctness (TestResult.scores result) = JsMath.ofZ 7.
Proof.
  intros [Hmkdir Hwrite] Hspawn Htimer fires.
  unfold ClaudeCodeRunner.executeTest, ClaudeCodeRunner.runClaudeCode.
  rewrite Hmkdir, Hwrite, Hspawn. fold (configuredTimeout runner test). fold fires.
  unfold timesOut in Htimer. fold fires in Htimer.
  destruct (World.ending claudeProcess) as [[instant ending]|].
  - rewrite bool_decide_eq_true_2 by done.
    eexists. split; [reflexivity|]. split_and!; done.
  - eexists. split; [reflexivity|]. split_and!; done.
Qed.

End RunnerFacts.

(** C10 on a run that exits normally *)
Lemma collectMetrics_no_tool_calls_witness :
  ∃ result,
    ClaudeCodeRunner.executeTest NodePath.join Sample.runner Sample.okWorld
      (ClaudeFile.content Sample.claudeFile) Sample.test 1 = Normal result
    ∧ RawMetrics.allToolCalls (TestResult.metricsRaw result) = []
    ∧ RawMetrics.retryAttempts (TestResult.metricsRaw result) = 0%Z
    ∧ TestRunner.extractErrors (TestResult.conversation result) = [].
Proof.
  eexists. split; [reflexivity|].
  destruct (collectMetrics_no_tool_calls NodePath.join Sample.okWorld
              "test-workspaces/test-1-t1-1001"
              {| ExecutionResult.output := "Created hello.txt";
                 ExecutionResult.exitCode := 0;
                 ExecutionResult.duration := 2000;
                 ExecutionResult.error := None |})
    as (_ & _ & Hresult).
  destruct (Hresult Sample.runner (ClaudeFile.content Sample.claudeFile)
              Sample.test 1%Z _ eq_refl) as (Hcalls & Hretry & _ & _ & Herrors).
  split_and!; [exact Hcalls | exact Hretry | exact Herrors].
Defined.

(** C8 on a run whose timer of thirty seconds fires *)
Lemma timeout_result_witness :
  ∃ claudeProcess,
    workspaceReady Sample.timeoutWorld
    ∧ spawns Sample.timeoutWorld claudeProcess
    ∧ timesOut Sample.timeoutWorld claudeProcess
        (configuredTimeout Sample.runner Sample.plainTest)
    ∧ ∃ result,
        ClaudeCodeRunner.executeTest NodePath.join Sample.runner
          Sample.timeoutWorld (ClaudeFile.content Sample.claudeFile)
          Sample.plainTest 1 = Normal result
        ∧ TestResult.responseTimeMs result = 30003%Z
        ∧ TestResult.response result
          = "partial output" ++ String (ascii_of_nat 10) "[TIMEOUT]"
        ∧ MetricScores.correctness (TestResult.scores result) = JsMath.ofZ 7.
Proof.
  exists {| World.ending := None;
            World.stdoutBy := fun _ => "partial output";
            World.stderrBy := fun _ => EmptyString |}.
  assert (workspaceReady Sample.timeoutWorld) as Hready.
  { split; intros; reflexivity. }
  assert (spawns Sample.timeoutWorld
            {| World.ending := None;
               World.stdoutBy := fun _ => "partial output";
               World.stderrBy := fun _ => EmptyString |}) as Hspawn.
  { intros args cwd. reflexivity. }
  split_and!; [exact Hready | exact Hspawn | exact I |].
  destruct (timeout_result NodePath.join Sample.runner Sample.timeoutWorld
              (ClaudeFile.content Sample.claudeFile) Sample.plainTest 1
              _ Hready Hspawn I)
    as (result & Hrun & Htime & Hresponse & _ & _ & Hscore).
  exists result.
  split_and!; [exact Hrun | exact Htime | exact Hresponse | exact Hscore].
Defined.

(** C8. A run that exceeds its timeout of five milliseconds: the timer
    runs first, the result carries the marker and the error event, but its
    [responseTimeMs] is 4, below the timeout, since the two readings of
    [Date.now()] are four apart when the callback runs; and its correctness
    score is 7, not 0.  The correctness evaluator applied to the result does
    not give 0 either. *)
Lemma timeout_below_bound_and_scored :
  ∃ claudeProcess result,
    spawns Sample.earlyTimerWorld claudeProcess
    ∧ timesOut Sample.earlyTimerWorld claudeProcess
        (configuredTimeout Sample.runner Sample.quickTest)
    ∧ configuredTimeout Sample.runner Sample.quickTest = 5%Z
    ∧ ClaudeCodeRunner.executeTest NodePath.join Sample.runner
        Sample.earlyTimerWorld (ClaudeFile.content Sample.claudeFile)
        Sample.quickTest 1 = Normal result
    ∧ TestResult.response result
      = "thinking" ++ String (ascii_of_nat 10) "[TIMEOUT]"
    ∧ TestResult.responseTimeMs result = 4%Z
    ∧ ErrorEvent.type <$> RawMetrics.errorsEncountered (TestResult.metricsRaw result)
      = ["execution_error"]
    ∧ MetricScores.correctness (TestResult.scores result) = JsMath.ofZ 7
    ∧ MetricScores.correctness (TestResult.scores result) ≠ JsMath.ofZ 0
    ∧ CorrectnessEvaluator.evaluate Sample.quickTest result
        (TestResult.conversation result) (TestResult.metricsRaw result)
      ≠ JsMath.ofZ 0.
Proof.
  eexists _, _. split; [intros args cwd; reflexivity|].
  split; [exact I|]. split; [reflexivity|]. split; [reflexivity|].
  split_and!; try reflexivity.
  - intros H. apply (f_equal this) in H. vm_compute in H. discriminate.
  - intros H. apply (f_equal this) in H. vm_compute in H. discriminate.
Qed.

(** ** The suite driver *)

Section SuiteFacts.
Variable path_join : string -> string -> string.

Local Abbreviation runOne := (TestRunner.runOne path_join).
Local Abbreviation runLoop := (TestRunner.runLoop path_join).
Local Abbreviation runTestSuite := (TestRunner.runTestSuite path_join).
Local Abbreviation recorded := (recordedResult path_join).

Lemma notify_quiet {A : Type} callbacks (f : Callbacks.t → option A) call :
  (∀ cb g, callbacks = Some cb → f cb = Some g → call g = None) →
  TestRunner.notify callbacks f call = None.
Proof.
  intros H. unfold TestRunner.notify.
  destruct callbacks as [cb|]; [|done].
  destruct (f cb) as [g|] eqn:Hf; [|done]. by eapply H.
Qed.

(** With quiet observers, one round of the loop appends one result. *)
Lemma runOne_quiet this world claudeFile testRunId callbacks total i test results :
  quiet callbacks →
  runOne this world claudeFile testRunId callbacks total i test results
  = Normal (results ++ [recorded this world claudeFile testRunId i test])%list.
Proof.
  intros Hquiet. unfold TestRunner.runOne, recordedResult.
  assert (∀ t, TestRunner.notify callbacks Callbacks.onTestStart
                 (fun g => g t) = None) as Hstart.
  { intros t. apply notify_quiet. intros cb g -> Hg.
    destruct Hquiet as (H & _ & _). by eapply H. }
  assert (∀ t r, TestRunner.notify callbacks Callbacks.onTestComplete
                   (fun g => g t r) = None) as Hcomplete.
  { intros t r. apply notify_quiet. intros cb g -> Hg.
    destruct Hquiet as (_ & H & _). by eapply H. }
  assert (∀ c n, TestRunner.notify callbacks Callbacks.onProgress
                   (fun g => g c n) = None) as Hprogress.
  { intros c n. apply notify_quiet. intros cb g -> Hg.
    destruct Hquiet as (_ & _ & H). by eapply H. }
  rewrite Hstart.
  destruct (ClaudeCodeRunner.executeTest _ _ _ _ _ _) as [result|error];
    by rewrite Hcomplete, Hprogress.
Qed.

Lemma runLoop_quiet this world claudeFile testRunId callbacks total tests :
  quiet callbacks →
  ∀ i results,
    runLoop this world claudeFile testRunId callbacks total i tests results
    = Normal (results
              ++ imap (fun j => recorded this world claudeFile testRunId (i + j))
                      tests)%list.
Proof.
  intros Hquiet. induction tests as [|test tests IH]; intros i results.
  - cbn. by rewrite app_nil_r.
  - cbn [TestRunner.runLoop]. rewrite runOne_quiet by done. rewrite IH.
    rewrite imap_cons, <- app_assoc. cbn [app]. rewrite Nat.add_0_r.
    do 3 f_equal. apply imap_ext. intros j t _. cbn. f_equal. lia.
Qed.


End SuiteFacts.



(** C4 on a failed result that also has errors, retries and expected
    keywords *)
Lemma correctness_zero_on_failure_witness :
  let result := Sample.resultWith "Test failed: spawn claude ENOENT" in
  (TestResult.response result = EmptyString
   ∨ isSubstring "Test failed:" (TestResult.response result))
  ∧ CorrectnessEvaluator.evaluate Sample.test result
      (TestResult.conversation result) (TestResult.metricsRaw result)
    = JsMath.ofZ 0.
Proof.
  intros result.
  assert (TestResult.response result = EmptyString
          ∨ isSubstring "Test failed:" (TestResult.response result)) as Hfail.
  { right. exists EmptyString, " spawn claude ENOENT". reflexivity. }
  split; [exact Hfail|].
  exact (correctness_zero_on_failure Sample.test result
           (TestResult.conversation result) (TestResult.metricsRaw result) Hfail).
Defined.

(** * Further properties of the sandbox *)

Section SandboxMore.
Import VirtualFileSystem.
Variable path_join : string -> string -> string.
Variable path_normalize : string -> string.

Local Abbreviation normalizePath := (normalizePath path_join path_normalize).
Local Abbreviation write := (write path_join path_normalize).
Local Abbreviation read := (read path_join path_normalize).
Local Abbreviation edit := (edit path_join path_normalize).
Local Abbreviation delete := (delete path_join path_normalize).
Local Abbreviation listDirectory := (listDirectory path_join path_normalize).

Implicit Types (fs : t) (p q c : string) (now : Z).

Lemma JsMap_get_remove_ne {V : Type} (m : JsMap.t V) k k' :
  k ≠ k' → JsMap.get k' (JsMap.remove k m) = JsMap.get k' m.
Proof.
  intros Hne. induction m as [|[k0 v0] m IH]; simpl; [done|].
  destruct (decide (k = k0)) as [->|Hne0]; simpl.
  - by rewrite decide_False by congruence.
  - by rewrite IH.
Qed.

(** X1. Writing to a path that has an entry keeps the entry's place in the
    map and its creation time, unless that time is 0, which [||] takes for
    missing; the content, the modification time and the permissions are the
    new ones. *)
Theorem write_overwrite_keeps_creation fs p c now old :
  JsMap.get (normalizePath fs p) (files fs) = Some old →
  JsMap.get (normalizePath fs p) (files (write fs p c now).2)
  = Some {| VirtualFile.path := normalizePath fs p;
            VirtualFile.content := c;
            VirtualFile.createdAt :=
              if decide (VirtualFile.createdAt old = 0%Z) then now
              else VirtualFile.createdAt old;
            VirtualFile.modifiedAt := now;
            VirtualFile.permissions := "rw-r--r--" |}
  ∧ JsMap.keys (files (write fs p c now).2) = JsMap.keys (files fs).
Proof.
  intros Hold. unfold VirtualFileSystem.write. cbn [snd files]. split.
  - by rewrite JsMap_get_set_eq, Hold.
  - apply JsMap_keys_set_in. apply JsMap_has_keys.
    unfold JsMap.has. by rewrite Hold.
Qed.

(** X2. An operation on one path leaves what [read] returns for every
    path with another normalized form as it was: this holds for [write],
    for [delete] and for [edit], whether the edit succeeds or not. *)
Theorem operations_leave_other_paths fs p q c old new now now1 now2 now' :
  normalizePath fs q ≠ normalizePath fs p →
  (read (write fs p c now).2 q now').1 = (read fs q now').1
  ∧ (read (delete fs p now).2 q now').1 = (read fs q now').1
  ∧ (read (edit fs p old new now1 now2).2 q now').1 = (read fs q now').1.
Proof.
  intros Hne. split_and!.
  - unfold VirtualFileSystem.read, VirtualFileSystem.write,
      VirtualFileSystem.normalizePath. cbn [fst snd files workingDirectory].
    by rewrite JsMap_get_set_ne.
  - unfold VirtualFileSystem.read, VirtualFileSystem.delete,
      VirtualFileSystem.normalizePath. cbn [fst snd files workingDirectory].
    by rewrite JsMap_get_remove_ne.
  - unfold VirtualFileSystem.edit.
    destruct (JsMap.get _ _) as [file|]; [|done].
    destruct (negb _); [done|].
    unfold VirtualFileSystem.read, VirtualFileSystem.normalizePath.
    cbn [fst snd files workingDirectory].
    by rewrite JsMap_get_set_ne.
Qed.

(** X3. The last record of the log tells what the operation answered: a
    [read] is logged with [success] exactly when it returned a content, a
    [delete] with the flag it returned, and a successful [edit] with the
    very content that a [read] of the path returns afterwards; an [edit]
    that fails writes no record at all and leaves the whole state as it
    was. *)
Theorem log_matches_outcome fs p old new now now1 now2 :
  (FileOperation.success <$> last (operations (read fs p now).2)
   = Some (bool_decide (is_Some (read fs p now).1)))
  ∧ (FileOperation.success <$> last (operations (delete fs p now).2)
     = Some (delete fs p now).1)
  ∧ ((edit fs p old new now1 now2).1 = EditOk →
     (last (operations (edit fs p old new now1 now2).2) ≫= FileOperation.content)
     = (read (edit fs p old new now1 now2).2 p now).1
     ∧ length (operations (edit fs p old new now1 now2).2)
       = S (length (operations fs)))
  ∧ ((edit fs p old new now1 now2).1 ≠ EditOk →
     (edit fs p old new now1 now2).2 = fs).
Proof.
  split_and!.
  - unfold VirtualFileSystem.read. cbn [fst snd operations].
    rewrite last_snoc. cbn. by destruct (JsMap.get _ _).
  - unfold VirtualFileSystem.delete. cbn [fst snd operations].
    by rewrite last_snoc.
  - unfold VirtualFileSystem.edit.
    destruct (JsMap.get _ _) as [file|] eqn:Hfile; [|done].
    destruct (negb _); [done|]. intros _.
    unfold VirtualFileSystem.read, VirtualFileSystem.normalizePath.
    cbn [fst snd operations files workingDirectory].
    rewrite last_snoc, JsMap_get_set_eq, length_app. cbn. split; [done | lia].
  - unfold VirtualFileSystem.edit.
    destruct (JsMap.get _ _) as [file|]; [|done].
    by destruct (negb _).
Qed.

(** X4. When the new text holds no dollar sign, a successful [edit]
    replaces the first occurrence of the fragment and nothing else: the
    text before it and the text after it stay, and so do the creation time
    and the place of the file. *)
Theorem edit_replaces_first_occurrence
    fs p old new now1 now2 file pre post :
  JsMap.get (normalizePath fs p) (files fs) = Some file →
  VirtualFile.content file = pre ++ old ++ post →
  (∀ j, (j < String.length pre)%nat → ¬ occursAt (pre ++ old ++ post) old j) →
  hasDollar new = false →
  (edit fs p old new now1 now2).1 = EditOk
  ∧ JsMap.get (normalizePath fs p) (files (edit fs p old new now1 now2).2)
    = Some {| VirtualFile.path := VirtualFile.path file;
              VirtualFile.content := pre ++ new ++ post;
              VirtualFile.createdAt := VirtualFile.createdAt file;
              VirtualFile.modifiedAt := now1;
              VirtualFile.permissions := VirtualFile.permissions file |}
  ∧ JsMap.keys (files (edit fs p old new now1 now2).2) = JsMap.keys (files fs).
Proof.
  intros Hget Hcontent Hfirst Hnew.
  assert (JsString.indexOf (VirtualFile.content file) old
          = Some (String.length pre)) as Hidx.
  { rewrite Hcontent. apply indexOf_Some. split; [apply occursAt_app | done]. }
  assert (JsString.includes (VirtualFile.content file) old = true) as Hinc.
  { unfold JsString.includes. by rewrite Hidx. }
  unfold VirtualFileSystem.edit. rewrite Hget, Hinc.
  cbn [negb fst snd files]. split_and!.
  - done.
  - rewrite JsMap_get_set_eq. do 2 f_equal.
    rewrite (replace_first _ _ _ _ Hidx Hnew), Hcontent.
    by rewrite substring0_app, slice_add, !slice_app.
  - apply JsMap_keys_set_in, JsMap_has_keys. unfold JsMap.has. by rewrite Hget.
Qed.

(** X5. The empty fragment occurs at the start of every content, so an
    [edit] with an empty fragment on an existing file always succeeds and
    puts the new text (without a dollar sign) in front of the content. *)
Theorem edit_empty_fragment_prepends fs p new now1 now2 now file :
  JsMap.get (normalizePath fs p) (files fs) = Some file →
  hasDollar new = false →
  (edit fs p EmptyString new now1 now2).1 = EditOk
  ∧ (read (edit fs p EmptyString new now1 now2).2 p now).1
    = Some (new ++ VirtualFile.content file).
Proof.
  intros Hget Hnew.
  destruct (edit_plain path_join path_normalize fs p EmptyString new now1 now2
              file EmptyString (VirtualFile.content file) Hget)
    as [Hok Hread]; [done | | done |].
  - intros j Hj. cbn in Hj. lia.
  - split; [done|].
    unfold VirtualFileSystem.read in *. cbn [fst] in *.
    by rewrite Hread.
Qed.

(** X9. After [delete(p)] a [read] of the same path returns [null] and a
    second [delete] answers [false]; a later [write] starts a new entry,
    created at the time of that write. *)
Theorem delete_then_read fs p q c now now' now'' :
  sandbox_wf fs →
  normalizePath fs q = normalizePath fs p →
  (read (delete fs p now).2 q now').1 = None
  ∧ (delete (delete fs p now).2 q now').1 = false
  ∧ VirtualFile.createdAt
      <$> JsMap.get (normalizePath fs p)
            (files (write (delete fs p now).2 q c now'').2)
    = Some now''.
Proof.
  intros Hwf Hsame.
  assert (JsMap.get (normalizePath fs p) (JsMap.remove (normalizePath fs p) (files fs))
          = None) as Hgone by (by apply JsMap_get_remove_eq).
  unfold VirtualFileSystem.read, VirtualFileSystem.delete,
    VirtualFileSystem.write, VirtualFileSystem.normalizePath in *.
  cbn [fst snd files workingDirectory]. rewrite Hsame.
  split_and!.
  - by rewrite Hgone.
  - unfold JsMap.has. by rewrite Hgone.
  - by rewrite JsMap_get_set_eq, Hgone.
Qed.

End SandboxMore.

Section ListingFacts.
Import VirtualFileSystem.
Variable path_join : string -> string -> string.
Variable path_normalize : string -> string.

Local Abbreviation normalizePath := (normalizePath path_join path_normalize).
Local Abbreviation listDirectory := (listDirectory path_join path_normalize).

Lemma set_add_elem x y (entries : list string) :
  x ∈ set_add y entries ↔ x = y ∨ x ∈ entries.
Proof.
  unfold set_add. case_decide as Hin.
  - split; [by right | intros [->|?]; done].
  - rewrite elem_of_app, list_elem_of_singleton. tauto.
Qed.

Lemma set_add_NoDup y (entries : list string) :
  NoDup entries → NoDup (set_add y entries).
Proof.
  intros Hnd. unfold set_add. case_decide as Hin; [done|].
  apply NoDup_app. split_and!; [done | | apply NoDup_singleton].
  intros x Hx ->%list_elem_of_singleton. done.
Qed.

(** The loop of [listDirectory], started from the names [entries]. *)
Lemma listing_loop dir (files : JsMap.t VirtualFile.t) (entries : list string) :
  let result :=
    foldl
      (fun entries kv =>
         let filePath := kv.1 in
         if JsString.startsWith filePath dir then
           let relativePath := JsString.slice (String.length dir + 1) filePath in
           match JsString.split "/"%char relativePath with
           | part0 :: _ =>
               if JsString.truthy part0 then set_add part0 entries else entries
           | [] => entries
           end
         else entries)
      entries files in
  (NoDup entries → NoDup result)
  ∧ ∀ x, x ∈ result
         ↔ x ∈ entries ∨ ∃ kv, kv ∈ files ∧ childName dir kv.1 = Some x.
Proof.
  revert entries. induction files as [|kv files IH]; intros entries; cbn zeta.
  - cbn [foldl]. split; [done|]. intros x. split; [by left|].
    intros [?|(kv & Hin & _)]; [done|]. by apply elem_of_nil in Hin.
  - cbn [foldl]. unfold childName in *.
    destruct (JsString.startsWith kv.1 dir) eqn:Hsw.
    + destruct (JsString.split _ _) as [|part0 parts] eqn:Hsplit.
      * destruct (IH entries) as [IHnd IHin]. split; [done|].
        intros x. rewrite IHin. split.
        -- intros [?|(kv' & Hin & Hc)]; [by left|].
           right. exists kv'. split; [|done]. apply elem_of_cons. by right.
        -- intros [?|(kv' & [->|Hin]%elem_of_cons & Hc)]; [by left | |].
           ++ by rewrite Hsw, Hsplit in Hc.
           ++ right. by exists kv'.
      * destruct (JsString.truthy part0) eqn:Htruthy.
        -- destruct (IH (set_add part0 entries)) as [IHnd IHin]. split.
           ++ intros Hnd. by apply IHnd, set_add_NoDup.
           ++ intros x. rewrite IHin, set_add_elem. split.
              ** intros [[->|?]|(kv' & Hin & Hc)].
                 --- right. exists kv. split; [apply elem_of_cons; by left|].
                     by rewrite Hsw, Hsplit, Htruthy.
                 --- by left.
                 --- right. exists kv'. split; [|done].
                     apply elem_of_cons. by right.
              ** intros [?|(kv' & [->|Hin]%elem_of_cons & Hc)].
                 --- left. by right.
                 --- rewrite Hsw, Hsplit, Htruthy in Hc. injection Hc as <-.
                     left. by left.
                 --- right. by exists kv'.
        -- destruct (IH entries) as [IHnd IHin]. split; [done|].
           intros x. rewrite IHin. split.
           ++ intros [?|(kv' & Hin & Hc)]; [by left|].
              right. exists kv'. split; [|done]. apply elem_of_cons. by right.
           ++ intros [?|(kv' & [->|Hin]%elem_of_cons & Hc)]; [by left | |].
              ** by rewrite Hsw, Hsplit, Htruthy in Hc.
              ** right. by exists kv'.
    + destruct (IH entries) as [IHnd IHin]. split; [done|].
      intros x. rewrite IHin. split.
      * intros [?|(kv' & Hin & Hc)]; [by left|].
        right. exists kv'. split; [|done]. apply elem_of_cons. by right.
      * intros [?|(kv' & [->|Hin]%elem_of_cons & Hc)]; [by left | |].
        -- by rewrite Hsw in Hc.
        -- right. by exists kv'.
Qed.

Lemma split_head_no_separator sep s :
  ∃ w ws, JsString.split sep s = w :: ws ∧ containsChar sep w = false.
Proof.
  induction s as [|c s (w & ws & IH & Hw)]; cbn [JsString.split].
  - by eexists _, _.
  - destruct (Ascii.eqb c sep) eqn:Hc.
    + by eexists _, _.
    + rewrite IH. eexists _, _. split; [done|]. cbn. by rewrite Hc.
Qed.

Lemma split_head_app sep name rest :
  containsChar sep name = false →
  rest = EmptyString ∨ JsString.startsWith rest (String sep EmptyString) = true →
  ∃ ws, JsString.split sep (name ++ rest) = name :: ws.
Proof.
  intros Hname Hrest. induction name as [|c name IH].
  - change (EmptyString ++ rest) with rest.
    destruct Hrest as [->|Hrest]; [by eexists|].
    apply startsWith_true in Hrest as [t ->].
    change (String sep EmptyString ++ t) with (String sep t).
    cbn [JsString.split]. rewrite Ascii.eqb_refl. by eexists.
  - cbn in Hname. apply orb_false_iff in Hname as [Hc Hname].
    destruct (IH Hname) as [ws Hws].
    change (String c name ++ rest) with (String c (name ++ rest)).
    cbn [JsString.split]. rewrite Hc, Hws. by eexists.
Qed.

(** X6. [listDirectory] returns every name once, and a name it returns is
    not empty and holds no separator: the listing is one level deep. *)
Theorem listDirectory_names fs dirPath :
  NoDup (listDirectory fs dirPath)
  ∧ ∀ name, name ∈ listDirectory fs dirPath →
            name ≠ EmptyString ∧ containsChar "/" name = false.
Proof.
  unfold VirtualFileSystem.listDirectory.
  destruct (listing_loop (normalizePath fs dirPath) (files fs) [])
    as [Hnd Hin].
  cbn zeta in *. split; [apply Hnd, NoDup_nil_2|].
  intros name [Hname|(kv & _ & Hchild)]%Hin; [by apply elem_of_nil in Hname|].
  unfold childName in Hchild.
  destruct (JsString.startsWith _ _); [|done].
  destruct (split_head_no_separator "/"
              (JsString.slice (String.length (normalizePath fs dirPath) + 1) kv.1))
    as (w & ws & Hsplit & Hw).
  rewrite Hsplit in Hchild.
  destruct (JsString.truthy w) eqn:Htruthy; [|done].
  injection Hchild as <-. split; [|done]. by intros ->.
Qed.

(** X7. [listDirectory] matches stored paths by prefix and drops the code
    unit that follows the prefix without looking at it: a stored path made
    of the normalized directory, any one code unit [c], a name and then
    nothing or a separator puts the name in the listing.  With [c] a
    separator this is how a file or a subdirectory shows up; with any
    other [c] the name comes from a sibling whose name merely starts like
    the directory. *)
Theorem listDirectory_skips_one_code_unit fs dirPath c name rest file :
  JsMap.get (normalizePath fs dirPath ++ String c (name ++ rest)) (files fs)
  = Some file →
  name ≠ EmptyString →
  containsChar "/" name = false →
  rest = EmptyString ∨ JsString.startsWith rest "/" = true →
  name ∈ listDirectory fs dirPath.
Proof.
  intros Hget Hname Hslash Hrest.
  unfold VirtualFileSystem.listDirectory.
  destruct (listing_loop (normalizePath fs dirPath) (files fs) [])
    as [_ Hin].
  apply Hin. right. eexists. split; [by eapply JsMap_get_elem|].
  cbn [fst]. unfold childName.
  set (dir := normalizePath fs dirPath).
  assert (JsString.startsWith (dir ++ String c (name ++ rest)) dir = true)
    as -> by (apply startsWith_true; by eexists).
  replace (String.length dir + 1)%nat
    with (String.length (dir ++ String c EmptyString)).
  - replace (dir ++ String c (name ++ rest))
      with ((dir ++ String c EmptyString) ++ name ++ rest)
      by (by rewrite string_app_assoc).
    rewrite slice_app.
    destruct (split_head_app "/" name rest Hslash Hrest) as [ws ->].
    by destruct name.
  - clear. induction dir as [|d dir IH]; [done|].
    change (String d dir ++ String c EmptyString)
      with (String d (dir ++ String c EmptyString)).
    cbn [String.length]. by rewrite IH.
Qed.

End ListingFacts.

(** X7 on two files of the default workspace: the listing of
    [/workspace/a] holds [b.txt], which lies in it, and also [c.txt], cut
    out of the sibling [/workspace/abc.txt]. *)
Lemma listDirectory_skips_one_code_unit_witness :
  let fs1 :=
    (VirtualFileSystem.write NodePath.join NodePath.normalize
       (VirtualFileSystem.create "/workspace") "a/b.txt" "x" 1).2 in
  let fs2 :=
    (VirtualFileSystem.write NodePath.join NodePath.normalize fs1
       "abc.txt" "y" 2).2 in
  "b.txt" ∈ VirtualFileSystem.listDirectory NodePath.join NodePath.normalize
              fs2 "/workspace/a"
  ∧ "c.txt" ∈ VirtualFileSystem.listDirectory NodePath.join NodePath.normalize
                fs2 "/workspace/a".
Proof.
  intros fs1 fs2. split.
  - eapply (listDirectory_skips_one_code_unit NodePath.join NodePath.normalize
              fs2 "/workspace/a" "/" "b.txt" EmptyString);
      [reflexivity | discriminate | reflexivity | by left].
  - eapply (listDirectory_skips_one_code_unit NodePath.join NodePath.normalize
              fs2 "/workspace/a" "b" "c.txt" EmptyString);
      [reflexivity | discriminate | reflexivity | by left].
Defined.

Section StatsFacts.
Import VirtualFileSystem.

Lemma typeName_inj ty ty' : typeName ty = typeName ty' → ty = ty'.
Proof. by destruct ty, ty'. Qed.

(** The table of [getStats] after the records [ops], started from [acc]. *)
Lemma stats_loop (ops : list FileOperation.t) (acc : JsMap.t nat) ty :
  default 0%nat
    (JsMap.get (typeName ty)
       (foldl
          (fun acc op =>
             let type := typeName (FileOperation.type op) in
             JsMap.set type (default 0 (JsMap.get type acc) + 1)%nat acc)
          acc ops))
  = (default 0%nat (JsMap.get (typeName ty) acc) + countType ty ops)%nat.
Proof.
  revert acc. induction ops as [|op ops IH]; intros acc.
  - cbn. lia.
  - cbn [foldl]. rewrite IH. unfold countType. rewrite filter_cons.
    destruct (decide (FileOperation.type op = ty)) as [->|Hne].
    + rewrite JsMap_get_set_eq. cbn. lia.
    + rewrite JsMap_get_set_ne; [lia|]. by intros ?%typeName_inj.
Qed.

Lemma countType_total (ops : list FileOperation.t) :
  (countType op_read ops + countType op_write ops
   + countType op_delete ops + countType op_edit ops = length ops)%nat.
Proof.
  unfold countType. induction ops as [|op ops IH]; [done|].
  rewrite !filter_cons. cbn [length].
  destruct (FileOperation.type op);
    repeat (case_decide; try done); cbn [length]; lia.
Qed.

(** X8. In the statistics of a sandbox the entry of [operationsByType]
    for each of the four operation types is the number of log records of
    that type, and the four entries add up to [totalOperations]. *)
Theorem getStats_counts_by_type (fs : t) :
  let table := Stats.operationsByType (getStats fs) in
  let entry ty := default 0%nat (JsMap.get (typeName ty) table) in
  (∀ ty, entry ty = countType ty (operations fs))
  ∧ (entry op_read + entry op_write + entry op_delete + entry op_edit
     = Stats.totalOperations (getStats fs))%nat.
Proof.
  intros table entry.
  assert (∀ ty, entry ty = countType ty (operations fs)) as Hentry.
  { intros ty. unfold entry, table, getStats. cbn [Stats.operationsByType].
    by rewrite stats_loop. }
  split; [done|]. rewrite !Hentry. apply countType_total.
Qed.

End StatsFacts.

(** * Further properties of the evaluators *)

Section ClampFacts.
Import JsMath BaseEvaluator.
Implicit Types (a b v : Qc) (x y z : Z).

Lemma ofZ_le_iff x y : (ofZ x <= ofZ y)%Qc ↔ (x ≤ y)%Z.
Proof.
  unfold ofZ, Qcle, Q2Qc. cbn [this]. rewrite !Qred_correct.
  by rewrite <- Zle_Qle.
Qed.

Lemma ofZ_inj x y : ofZ x = ofZ y → x = y.
Proof.
  intros H.
  apply Z.le_antisymm; apply (proj1 (ofZ_le_iff _ _)); rewrite H;
    apply Qcle_refl.
Qed.

Lemma ofZ_minus x y : (ofZ x - ofZ y)%Qc = ofZ (x - y).
Proof.
  apply Qc_is_canon. unfold ofZ, Qcminus, Qcplus, Qcopp, Q2Qc. cbn [this].
  rewrite !Qred_correct. unfold Z.sub.
  by rewrite inject_Z_plus, inject_Z_opp.
Qed.

Lemma leb_ofZ x y : leb (ofZ x) (ofZ y) = bool_decide (x ≤ y)%Z.
Proof.
  destruct (leb (ofZ x) (ofZ y)) eqn:H.
  - apply leb_le in H. apply (proj1 (ofZ_le_iff x y)) in H.
    by rewrite bool_decide_eq_true_2.
  - rewrite bool_decide_eq_false_2; [done|]. intros Hle.
    apply (proj2 (ofZ_le_iff x y)), leb_le in Hle. congruence.
Qed.

(** The clamp on a whole number *)
Lemma normalizeScore_ofZ z : normalizeScore (ofZ z) = ofZ (Z.min 10 (Z.max 0 z)).
Proof.
  unfold normalizeScore, normalizeScoreIn, min, max. rewrite leb_ofZ.
  case_bool_decide as H0.
  - rewrite leb_ofZ. case_bool_decide as H10; f_equal; lia.
  - rewrite leb_ofZ. rewrite bool_decide_eq_false_2 by lia. f_equal. lia.
Qed.

Lemma normalizeScore_id v : inRange v → normalizeScore v = v.
Proof.
  intros [H0 H10]. unfold normalizeScore, normalizeScoreIn, min, max.
  apply leb_le in H0. rewrite H0.
  destruct (leb (ofZ 10) v) eqn:H; [|done].
  apply leb_le in H. by apply Qcle_antisym.
Qed.

Lemma normalizeScore_mono a b :
  (a <= b)%Qc → (normalizeScore a <= normalizeScore b)%Qc.
Proof.
  intros Hab. unfold normalizeScore, normalizeScoreIn, min, max.
  destruct (leb (ofZ 0) a) eqn:Ha, (leb (ofZ 0) b) eqn:Hb.
  - destruct (leb (ofZ 10) a) eqn:Ha', (leb (ofZ 10) b) eqn:Hb'.
    + apply Qcle_refl.
    + apply leb_le in Ha'. apply leb_false_le in Hb'.
      by eapply Qcle_trans.
    + by apply leb_false_le.
    + done.
  - apply leb_le in Ha. apply leb_false_le in Hb.
    assert (b = ofZ 0) as ->.
    { apply Qcle_antisym; [done|]. by eapply Qcle_trans. }
    assert (a = ofZ 0) as -> by (by apply Qcle_antisym).
    apply Qcle_refl.
  - apply leb_le in Hb. change (leb (ofZ 10) (ofZ 0)) with false.
    destruct (leb (ofZ 10) b); [apply zero_le_ten | done].
  - apply Qcle_refl.
Qed.

(** The clamp leaves a number as it is exactly when the number lies
    in [0,10]; so clamping twice is clamping once, and the clamp keeps the
    order of any two numbers. *)
Theorem normalizeScore_fixes_range v :
  (normalizeScore v = v ↔ inRange v)
  ∧ normalizeScore (normalizeScore v) = normalizeScore v
  ∧ ∀ w, (v <= w)%Qc → (normalizeScore v <= normalizeScore w)%Qc.
Proof.
  split_and!.
  - split; [|apply normalizeScore_id].
    intros <-. apply normalizeScore_range.
  - apply normalizeScore_id, normalizeScore_range.
  - intros w. apply normalizeScore_mono.
Qed.

Lemma speed_points test result conversation metrics :
  SpeedEvaluator.evaluate test result conversation metrics
  = ofZ (speedPoints (TestResult.responseTimeMs result)).
Proof.
  unfold SpeedEvaluator.evaluate, speedPoints, SpeedEvaluator.excellent,
    SpeedEvaluator.good, SpeedEvaluator.acceptable, SpeedEvaluator.slow.
  repeat case_decide; try done.
  rewrite ofZ_minus, normalizeScore_ofZ. f_equal.
  assert (0 ≤ (TestResult.responseTimeMs result - 20000) / 10000)%Z
    by (apply Z.div_pos; lia).
  lia.
Qed.

Lemma speedPoints_antitone x y : (x ≤ y)%Z → (speedPoints y ≤ speedPoints x)%Z.
Proof.
  intros Hxy. unfold speedPoints.
  assert (0 < y - 20000 → 0 ≤ (y - 20000) / 10000)%Z
    by (intros; apply Z.div_pos; lia).
  assert ((x - 20000) / 10000 ≤ (y - 20000) / 10000)%Z
    by (apply Z.div_le_mono; lia).
  repeat case_decide; lia.
Qed.

(** X10. A slower response never scores higher: the speed score does not
    grow with the response time, whatever else the two results hold. *)
Theorem speed_never_rewards_slowness
    test test' result result' conversation conversation' metrics metrics' :
  (TestResult.responseTimeMs result ≤ TestResult.responseTimeMs result')%Z →
  (SpeedEvaluator.evaluate test' result' conversation' metrics'
   <= SpeedEvaluator.evaluate test result conversation metrics)%Qc.
Proof.
  intros Htime. rewrite !speed_points.
  by apply (proj2 (ofZ_le_iff _ _)), speedPoints_antitone.
Qed.

(** X11. The speed score is 10 exactly up to 2000 ms and 0 exactly from
    50000 ms on; from 20000 ms to 29999 ms it is 3. *)
Theorem speed_extremes test result conversation metrics :
  let score := SpeedEvaluator.evaluate test result conversation metrics in
  let responseTime := TestResult.responseTimeMs result in
  (score = ofZ 10 ↔ (responseTime ≤ 2000)%Z)
  ∧ (score = ofZ 0 ↔ (50000 ≤ responseTime)%Z)
  ∧ ((20000 < responseTime < 30000)%Z → score = ofZ 3).
Proof.
  intros score responseTime. unfold score. rewrite speed_points.
  fold responseTime. unfold speedPoints.
  assert (20000 < responseTime →
          (responseTime - 20000) / 10000 * 10000 ≤ responseTime - 20000
          ∧ responseTime - 20000 < ((responseTime - 20000) / 10000 + 1) * 10000)%Z
    as Hdiv.
  { intros _.
    pose proof (Z.div_mod (responseTime - 20000) 10000 ltac:(lia)).
    pose proof (Z.mod_pos_bound (responseTime - 20000) 10000 ltac:(lia)).
    lia. }
  split_and!.
  - split.
    + intros H%ofZ_inj. repeat case_decide; try lia.
    + intros H. by rewrite decide_True.
  - split.
    + intros H%ofZ_inj. repeat case_decide; try lia.
    + intros H. repeat case_decide; try lia. f_equal. lia.
  - intros H. repeat case_decide; try lia. f_equal. lia.
Qed.

(** X21. [calculatePercentageScore] gives 10 for a total of 0, also when
    nothing was achieved, and 10 when all of the total was achieved; it
    gives 0 when nothing of a total other than 0 was achieved; its score
    always lies in [0,10], and for a positive total it does not fall when
    the achieved part grows.  (Rounding keeps each of these: the share
    [x / x] is 1 and [0 / x] is 0 in floating point as well, and division
    and multiplication by a positive number keep the order.) *)
Theorem calculatePercentageScore_share achieved total :
  (total = ofZ 0 → calculatePercentageScore achieved total = ofZ 10)
  ∧ inRange (calculatePercentageScore achieved total)
  ∧ calculatePercentageScore total total = ofZ 10
  ∧ (total ≠ ofZ 0 → calculatePercentageScore (ofZ 0) total = ofZ 0)
  ∧ ∀ achieved',
      (ofZ 0 < total)%Qc → (achieved <= achieved')%Qc →
      (calculatePercentageScore achieved total
       <= calculatePercentageScore achieved' total)%Qc.
Proof.
  unfold calculatePercentageScore. split; [|split; [|split; [|split]]].
  - intros ->. by rewrite decide_True.
  - case_decide; [by apply inRange_ofZ | apply normalizeScore_range].
  - case_decide as Hne; [done|].
    assert ((total / total * ofZ 100 / ofZ 10)%Qc = ofZ 10) as ->.
    { unfold Qcdiv. rewrite Qcmult_inv_r by done.
      apply Qc_is_canon. reflexivity. }
    apply normalizeScore_id, inRange_ofZ. lia.
  - intros Hne. rewrite decide_False by done.
    assert ((ofZ 0 / total * ofZ 100 / ofZ 10)%Qc = ofZ 0) as ->.
    { unfold Qcdiv. change (ofZ 0) with (Q2Qc 0). by rewrite !Qcmult_0_l. }
    apply normalizeScore_zero.
  - intros achieved' Hpos Hle.
    assert (total ≠ ofZ 0) as Hne.
    { intros ->. by apply Qclt_not_eq in Hpos. }
    rewrite !decide_False by done. apply normalizeScore_mono.
    apply Qcmult_le_compat_r;
      [|apply Qc_inv_nonneg; by apply ofZ_le].
    apply Qcmult_le_compat_r; [|by apply ofZ_le].
    apply Qcmult_le_compat_r; [done|].
    apply Qc_inv_nonneg. by apply Qclt_le_weak.
Qed.

End ClampFacts.

Section KeywordFacts.
Import JsMath BaseEvaluator JsString.

Lemma lowerChar_idempotent c : lowerChar (lowerChar c) = lowerChar c.
Proof. by destruct c as [[] [] [] [] [] [] [] []]. Qed.

Lemma toLowerCase_lower s : allChars isLowerCase (toLowerCase s) = true.
Proof.
  induction s as [|c s IH]; [done|]. cbn. rewrite IH, andb_true_r.
  apply bool_decide_eq_true_2, lowerChar_idempotent.
Qed.

Lemma toLowerCase_fixed s : allChars isLowerCase s = true → toLowerCase s = s.
Proof.
  induction s as [|c s IH]; [done|]. cbn.
  intros [Hc%bool_decide_eq_true_1 Hs]%andb_true_iff.
  by rewrite Hc, IH.
Qed.

(** The pieces of [split(/\W+/)] are made of word characters of the text. *)
Lemma splitNonWord_pieces (P : ascii → bool) s :
  allChars P s = true →
  ∀ piece, piece ∈ splitNonWord s →
           allChars P piece = true ∧ allChars isWordChar piece = true.
Proof.
  induction s as [|c s IH]; intros Hs piece.
  - cbn. by intros ->%list_elem_of_singleton.
  - cbn in Hs. apply andb_true_iff in Hs as [Hc Hs]. specialize (IH Hs).
    cbn [splitNonWord]. destruct (isWordChar c) eqn:Hword.
    + destruct (splitNonWord s) as [|w ws] eqn:Hsplit.
      * intros ->%list_elem_of_singleton. cbn. by rewrite Hc, Hword.
      * intros [->|Hin]%elem_of_cons.
        -- destruct (IH w) as [H1 H2]; [apply elem_of_cons; by left|].
           cbn. by rewrite Hc, Hword, H1, H2.
        -- apply IH. apply elem_of_cons. by right.
    + destruct s as [|d s'].
      * intros [->|Hin]%elem_of_cons; [done | by apply IH].
      * destruct (isWordChar d).
        -- intros [->|Hin]%elem_of_cons; [done | by apply IH].
        -- apply IH.
Qed.

(** X13. Every keyword that [extractKeywords] returns is longer than
    three code units, is made of letters, digits and underscores only, and
    is in lower case. *)
Theorem extractKeywords_shape text keyword :
  keyword ∈ CorrectnessEvaluator.extractKeywords text →
  (3 < String.length keyword)%nat
  ∧ allChars isWordChar keyword = true
  ∧ toLowerCase keyword = keyword.
Proof.
  unfold CorrectnessEvaluator.extractKeywords.
  intros [Hlen Hin]%list_elem_of_filter.
  destruct (splitNonWord_pieces isLowerCase (toLowerCase text)
              (toLowerCase_lower text) keyword Hin) as [Hlower Hword].
  split_and!; [done | done | by apply toLowerCase_fixed].
Qed.

Lemma ofNat_le (n m : nat) : (n ≤ m)%nat → (ofNat n <= ofNat m)%Qc.
Proof. intros H. apply ofZ_le. lia. Qed.

Lemma ofNat_zero (n : nat) : ofNat n = ofZ 0 → n = 0%nat.
Proof. intros H%ofZ_inj. lia. Qed.

Lemma Qc_share_le_one a b :
  (ofZ 0 <= a)%Qc → (a <= b)%Qc → b ≠ ofZ 0 → (a / b <= ofZ 1)%Qc.
Proof.
  intros Ha Hab Hb.
  replace (ofZ 1) with (b * / b)%Qc by (by apply Qcmult_inv_r).
  apply Qcmult_le_compat_r; [done|].
  apply Qc_inv_nonneg. by eapply Qcle_trans.
Qed.

Lemma calculateKeywordMatch_le_one (expected actual : list string) :
  (CorrectnessEvaluator.calculateKeywordMatch expected actual <= ofZ 1)%Qc.
Proof.
  unfold CorrectnessEvaluator.calculateKeywordMatch.
  case_decide as Hlen; [apply Qcle_refl|].
  apply Qc_share_le_one.
  - apply ofNat_nonneg.
  - apply ofNat_le, length_filter.
  - by intros ?%ofNat_zero.
Qed.

Lemma calculateKeywordMatch_all (expected actual : list string) :
  (∀ keyword, keyword ∈ expected → keyword ∈ actual) →
  CorrectnessEvaluator.calculateKeywordMatch expected actual = ofZ 1.
Proof.
  intros Hall. unfold CorrectnessEvaluator.calculateKeywordMatch.
  case_decide as Hlen; [done|].
  assert (filter (fun keyword => keyword ∈ actual) expected = expected) as ->.
  { clear Hlen. induction expected as [|k expected IH]; [done|].
    rewrite filter_cons, decide_True by (apply Hall, elem_of_cons; by left).
    f_equal. apply IH. intros k' Hk'. apply Hall, elem_of_cons. by right. }
  apply Qcmult_inv_r. by intros ?%ofNat_zero.
Qed.

Lemma calculateKeywordMatch_none (expected actual : list string) :
  expected ≠ [] →
  (∀ keyword, keyword ∈ expected → keyword ∉ actual) →
  CorrectnessEvaluator.calculateKeywordMatch expected actual = ofZ 0.
Proof.
  intros Hne Hnone. unfold CorrectnessEvaluator.calculateKeywordMatch.
  case_decide as Hlen; [by destruct expected|].
  assert (filter (fun keyword => keyword ∈ actual) expected = []) as ->.
  { clear Hlen Hne. induction expected as [|k expected IH]; [done|].
    rewrite filter_cons, decide_False by (apply Hnone, elem_of_cons; by left).
    apply IH. intros k' Hk'. apply Hnone, elem_of_cons. by right. }
  apply Qcmult_0_l.
Qed.

(** X14. The keyword match rate lies between 0 and 1; it is 1 when there
    is no expected keyword or when every expected keyword is among the
    actual ones, and 0 when there are expected keywords and none of them is
    among the actual ones. *)
Theorem calculateKeywordMatch_rate (expected actual : list string) :
  let rate := CorrectnessEvaluator.calculateKeywordMatch expected actual in
  (ofZ 0 <= rate)%Qc ∧ (rate <= ofZ 1)%Qc
  ∧ ((∀ keyword, keyword ∈ expected → keyword ∈ actual) → rate = ofZ 1)
  ∧ (expected ≠ [] → (∀ keyword, keyword ∈ expected → keyword ∉ actual) →
     rate = ofZ 0).
Proof.
  intros rate. unfold rate. split; [|split; [|split]].
  - apply calculateKeywordMatch_nonneg.
  - apply calculateKeywordMatch_le_one.
  - apply calculateKeywordMatch_all.
  - apply calculateKeywordMatch_none.
Qed.

(** X15. When a test declares expected behaviour, the correctness score
    is at most ten times the keyword match rate; so it is 0 when the
    expected behaviour has a keyword and the response holds none of the
    expected keywords, however clean the run was. *)
Theorem correctness_capped_by_keywords
    test result conversation metrics expectedBehavior :
  Test.expectedBehavior test = Some expectedBehavior →
  expectedBehavior ≠ EmptyString →
  let rate :=
    CorrectnessEvaluator.calculateKeywordMatch
      (CorrectnessEvaluator.extractKeywords expectedBehavior)
      (CorrectnessEvaluator.extractKeywords (TestResult.response result)) in
  (CorrectnessEvaluator.evaluate test result conversation metrics
   <= rate * ofZ 10)%Qc
  ∧ (CorrectnessEvaluator.extractKeywords expectedBehavior ≠ [] →
     (∀ keyword,
        keyword ∈ CorrectnessEvaluator.extractKeywords expectedBehavior →
        keyword ∉ CorrectnessEvaluator.extractKeywords (TestResult.response result)) →
     CorrectnessEvaluator.evaluate test result conversation metrics = ofZ 0).
Proof.
  intros Hexpected Hne rate.
  assert (ofZ 0 <= rate)%Qc as Hrate0 by apply calculateKeywordMatch_nonneg.
  assert (rate <= ofZ 1)%Qc as Hrate1 by apply calculateKeywordMatch_le_one.
  pose proof (calculateKeywordMatch_none
                (CorrectnessEvaluator.extractKeywords expectedBehavior)
                (CorrectnessEvaluator.extractKeywords (TestResult.response result)))
    as Hnone.
  fold rate in Hnone.
  assert (inRange (rate * ofZ 10)%Qc) as Hrange.
  { split.
    - apply Qc_mult_nonneg; [done | by apply ofZ_le].
    - replace (ofZ 10) with (ofZ 1 * ofZ 10)%Qc at 2
        by (apply Qc_is_canon; reflexivity).
      apply Qcmult_le_compat_r; [done | by apply ofZ_le]. }
  assert (JsString.truthy expectedBehavior = true) as Htruthy
    by (by destruct expectedBehavior).
  assert (∀ score,
            (normalizeScore (min score (rate * ofZ 10)%Qc) <= rate * ofZ 10)%Qc)
    as Hcap.
  { intros score. rewrite <- (normalizeScore_id (rate * ofZ 10)%Qc Hrange) at 2.
    apply normalizeScore_mono. unfold min.
    destruct (leb score (rate * ofZ 10)%Qc) eqn:Hleb.
    - by apply leb_le.
    - apply Qcle_refl. }
  unfold CorrectnessEvaluator.evaluate. rewrite Hexpected, Htruthy.
  fold rate. split; [apply Hcap|].
  intros Hkeywords Hmissing. apply Qcle_antisym.
  - assert ((rate * ofZ 10)%Qc = ofZ 0) as Hzero.
    { rewrite (Hnone Hkeywords Hmissing). apply Qcmult_0_l. }
    rewrite <- Hzero at 2. apply Hcap.
  - apply normalizeScore_range.
Qed.

(** X12. A clean run gets the full score: with no error event, no retry,
    a response that is not empty and does not hold the failure marker, and
    no expected behaviour declared, the correctness score is 10. *)
Theorem correctness_clean_run test result conversation metrics :
  RawMetrics.errorsEncountered metrics = [] →
  (RawMetrics.retryAttempts metrics ≤ 0)%Z →
  TestResult.response result ≠ EmptyString →
  ¬ isSubstring "Test failed:" (TestResult.response result) →
  Test.expectedBehavior test = None →
  CorrectnessEvaluator.evaluate test result conversation metrics = ofZ 10.
Proof.
  intros Herrors Hretry Hresponse Hmarker%includes_false Hexpected.
  unfold CorrectnessEvaluator.evaluate, CorrectnessEvaluator.errorPenalty,
    CorrectnessEvaluator.retryPenalty.
  rewrite Herrors, Hexpected, Hmarker. cbn [length].
  rewrite decide_False by lia. rewrite decide_False by lia.
  assert (JsString.truthy (TestResult.response result) = true) as ->
    by (by destruct (TestResult.response result)).
  cbn [negb orb]. apply normalizeScore_id, inRange_ofZ. lia.
Qed.

End KeywordFacts.

Section CodeQualityFacts.
Import JsMath BaseEvaluator.

Lemma countSequences_cons2 prev cur rest :
  CodeQualityEvaluator.countSequences (prev :: cur :: rest)
  = ((if bool_decide (FileOperation.path cur = FileOperation.path prev)
         || bool_decide
              (Z.abs (FileOperation.timestamp cur - FileOperation.timestamp prev)
               < 5000)%Z
      then S (CodeQualityEvaluator.countSequences (cur :: rest)).1
      else (CodeQualityEvaluator.countSequences (cur :: rest)).1),
     S (CodeQualityEvaluator.countSequences (cur :: rest)).2).
Proof.
  change (CodeQualityEvaluator.countSequences (prev :: cur :: rest))
    with (let '(c, t) := CodeQualityEvaluator.countSequences (cur :: rest) in
          (if bool_decide (FileOperation.path cur = FileOperation.path prev)
              || bool_decide
                   (Z.abs (FileOperation.timestamp cur
                           - FileOperation.timestamp prev) < 5000)%Z
           then S c else c, S t)).
  by destruct (CodeQualityEvaluator.countSequences (cur :: rest)).
Qed.

Lemma countSequences_le (ops : list FileOperation.t) :
  ((CodeQualityEvaluator.countSequences ops).1
   ≤ (CodeQualityEvaluator.countSequences ops).2)%nat.
Proof.
  induction ops as [|prev ops IH]; [done|].
  destruct ops as [|cur rest]; [done|].
  rewrite countSequences_cons2. cbn [fst snd].
  destruct (_ || _); lia.
Qed.

Lemma ofZ_plus x y : (ofZ x + ofZ y)%Qc = ofZ (x + y).
Proof.
  apply Qc_is_canon. unfold ofZ, Qcplus, Q2Qc. cbn [this].
  rewrite !Qred_correct. by rewrite inject_Z_plus.
Qed.

Lemma ofZ_mult x y : (ofZ x * ofZ y)%Qc = ofZ (x * y).
Proof.
  apply Qc_is_canon. unfold ofZ, Qcmult, Q2Qc. cbn [this].
  rewrite !Qred_correct. by rewrite inject_Z_mult.
Qed.

(** X16. The consistency of the operations is a share between 0 and 1,
    and it is 1 for fewer than two operations; so the adjustment
    [consistency * 2 - 1] that the code-quality score receives lies between
    -1 and 1, as the comment in the code says. *)
Theorem consistency_adjustment_bounded (metrics : RawMetrics.t) :
  let consistency := CodeQualityEvaluator.checkOperationConsistency metrics in
  (ofZ 0 <= consistency)%Qc ∧ (consistency <= ofZ 1)%Qc
  ∧ (ofZ (-1) <= consistency * ofZ 2 - ofZ 1)%Qc
  ∧ (consistency * ofZ 2 - ofZ 1 <= ofZ 1)%Qc
  ∧ ((length (RawMetrics.fileOperations metrics) < 2)%nat →
     consistency = ofZ 1).
Proof.
  intros consistency.
  assert ((ofZ 0 <= consistency)%Qc ∧ (consistency <= ofZ 1)%Qc) as [H0 H1].
  { unfold consistency, CodeQualityEvaluator.checkOperationConsistency.
    case_decide; [split; by apply ofZ_le|].
    pose proof (countSequences_le
                  (CodeQualityEvaluator.sortByTimestamp
                     (RawMetrics.fileOperations metrics))) as Hle.
    destruct (CodeQualityEvaluator.countSequences _) as [c t].
    cbn [fst snd] in Hle. case_decide; [|split; by apply ofZ_le].
    split.
    - apply Qc_div_nonneg; apply ofNat_nonneg.
    - apply Qc_share_le_one; [apply ofNat_nonneg | by apply ofNat_le |].
      intros ?%ofNat_zero. lia. }
  assert (ofZ 0 <= consistency * ofZ 2)%Qc as H2
    by (apply Qc_mult_nonneg; [done | by apply ofZ_le]).
  assert (consistency * ofZ 2 <= ofZ 2)%Qc as H3.
  { replace (ofZ 2) with (ofZ 1 * ofZ 2)%Qc at 2 by (by rewrite ofZ_mult).
    apply Qcmult_le_compat_r; [done | by apply ofZ_le]. }
  split_and!; [done | done | | |].
  - replace (ofZ (-1)) with (ofZ 0 - ofZ 1)%Qc by (by rewrite ofZ_minus).
    apply Qcplus_le_compat; [done | apply Qcle_refl].
  - replace (ofZ 1) with (ofZ 2 - ofZ 1)%Qc at 2 by (by rewrite ofZ_minus).
    apply Qcplus_le_compat; [done | apply Qcle_refl].
  - intros Hlen. unfold consistency,
      CodeQualityEvaluator.checkOperationConsistency.
    rewrite decide_True; [done|].
    assert (∀ ops, length (CodeQualityEvaluator.sortByTimestamp ops)
                   = length ops) as ->; [|done].
    intros ops. induction ops as [|op ops IH]; [done|].
    cbn [CodeQualityEvaluator.sortByTimestamp foldr length].
    rewrite <- IH. fold (CodeQualityEvaluator.sortByTimestamp ops).
    generalize (CodeQualityEvaluator.sortByTimestamp ops). intros sorted.
    induction sorted as [|op' sorted IHs]; [done|].
    cbn [CodeQualityEvaluator.insertByTimestamp]. case_decide; [done|].
    cbn [length]. by rewrite IHs.
Qed.

(** The loop of [countEditsWithoutRead], started with the read paths
    [readFiles] and the count [n]. *)
Lemma edits_loop (ops : list FileOperation.t) (readFiles : gset string) (n : nat) :
  let st :=
    foldl
      (fun st op =>
         let '(readFiles, editsWithoutRead) := st in
         match FileOperation.type op with
         | op_read => ({[FileOperation.path op]} ∪ readFiles, editsWithoutRead)
         | op_edit =>
             if decide (FileOperation.path op ∈ readFiles)
             then st else (readFiles, S editsWithoutRead)
         | op_write => st
         | op_delete => st
         end)
      (readFiles, n) ops in
  (n ≤ st.2)%nat
  ∧ (st.2 = n ↔
     ∀ i op, ops !! i = Some op → FileOperation.type op = op_edit →
             FileOperation.path op ∈ readFiles
             ∨ ∃ j op', (j < i)%nat ∧ ops !! j = Some op'
                        ∧ FileOperation.type op' = op_read
                        ∧ FileOperation.path op' = FileOperation.path op).
Proof.
  revert readFiles n. induction ops as [|op0 ops IH]; intros readFiles n; cbn zeta.
  - cbn [foldl snd]. split; [lia|]. split; [|done]. by intros _ i op.
  - cbn [foldl]. destruct (FileOperation.type op0) eqn:Htype.
    + (* a read *)
      destruct (IH ({[FileOperation.path op0]} ∪ readFiles) n) as [Hle Hiff].
      cbn zeta in *. split; [done|]. rewrite Hiff. split.
      * intros H [|i] op Hi Hedit.
        -- cbn in Hi. injection Hi as <-. congruence.
        -- cbn in Hi. destruct (H i op Hi Hedit) as [Hin|(j & op' & Hj & ?)].
           ++ apply elem_of_union in Hin as [->%elem_of_singleton|Hin];
                [|by left].
              right. exists 0%nat, op0. split_and!; [lia | done..].
           ++ right. exists (S j), op'. split; [lia | done].
      * intros H i op Hi Hedit.
        destruct (H (S i) op Hi Hedit) as [Hin|(j & op' & Hj & Hj' & Hread & Hp)].
        -- left. set_solver.
        -- destruct j as [|j].
           ++ cbn in Hj'. injection Hj' as <-. left. set_solver.
           ++ right. exists j, op'. split; [lia | done].
    + (* a write *)
      destruct (IH readFiles n) as [Hle Hiff].
      cbn zeta in *. split; [done|]. rewrite Hiff. split.
      * intros H [|i] op Hi Hedit.
        -- cbn in Hi. injection Hi as <-. congruence.
        -- cbn in Hi. destruct (H i op Hi Hedit) as [Hin|(j & op' & Hj & ?)].
           ++ by left.
           ++ right. exists (S j), op'. split; [lia | done].
      * intros H i op Hi Hedit.
        destruct (H (S i) op Hi Hedit) as [Hin|(j & op' & Hj & Hj' & Hread & Hp)].
        -- by left.
        -- destruct j as [|j].
           ++ cbn in Hj'. injection Hj' as <-. congruence.
           ++ right. exists j, op'. split; [lia | done].
    + (* a delete *)
      destruct (IH readFiles n) as [Hle Hiff].
      cbn zeta in *. split; [done|]. rewrite Hiff. split.
      * intros H [|i] op Hi Hedit.
        -- cbn in Hi. injection Hi as <-. congruence.
        -- cbn in Hi. destruct (H i op Hi Hedit) as [Hin|(j & op' & Hj & ?)].
           ++ by left.
           ++ right. exists (S j), op'. split; [lia | done].
      * intros H i op Hi Hedit.
        destruct (H (S i) op Hi Hedit) as [Hin|(j & op' & Hj & Hj' & Hread & Hp)].
        -- by left.
        -- destruct j as [|j].
           ++ cbn in Hj'. injection Hj' as <-. congruence.
           ++ right. exists j, op'. split; [lia | done].
    + (* an edit *)
      destruct (decide (FileOperation.path op0 ∈ readFiles)) as [Hin0|Hnin0].
      * destruct (IH readFiles n) as [Hle Hiff].
        cbn zeta in *. split; [done|]. rewrite Hiff. split.
        -- intros H [|i] op Hi Hedit.
           ++ cbn in Hi. injection Hi as <-. by left.
           ++ cbn in Hi.
              destruct (H i op Hi Hedit) as [Hin|(j & op' & Hj & ?)].
              ** by left.
              ** right. exists (S j), op'. split; [lia | done].
        -- intros H i op Hi Hedit.
           destruct (H (S i) op Hi Hedit)
             as [Hin|(j & op' & Hj & Hj' & Hread & Hp)].
           ++ by left.
           ++ destruct j as [|j].
              ** cbn in Hj'. injection Hj' as <-. congruence.
              ** right. exists j, op'. split; [lia | done].
      * destruct (IH readFiles (S n)) as [Hle Hiff].
        cbn zeta in *. split; [lia|]. split; [lia|].
        intros H. exfalso.
        destruct (H 0%nat op0 eq_refl Htype) as [?|(j & _ & Hj & _)]; [done | lia].
Qed.

(** X17. [countEditsWithoutRead] is 0 exactly when every edit in the log
    comes after a read of the same path; writes and deletes neither count
    nor excuse an edit. *)
Theorem countEditsWithoutRead_zero (fileOps : list FileOperation.t) :
  CodeQualityEvaluator.countEditsWithoutRead fileOps = 0%nat
  ↔ ∀ i op, fileOps !! i = Some op → FileOperation.type op = op_edit →
            ∃ j op', (j < i)%nat ∧ fileOps !! j = Some op'
                     ∧ FileOperation.type op' = op_read
                     ∧ FileOperation.path op' = FileOperation.path op.
Proof.
  unfold CodeQualityEvaluator.countEditsWithoutRead.
  destruct (edits_loop fileOps ∅ 0%nat) as [_ Hiff]. cbn zeta in Hiff.
  rewrite Hiff. split.
  - intros H i op Hi Hedit. destruct (H i op Hi Hedit) as [Hin|?]; [|done].
    by apply not_elem_of_empty in Hin.
  - intros H i op Hi Hedit. right. by apply H.
Qed.

End CodeQualityFacts.

Section PipelineMore.
Import JsMath BaseEvaluator.
Variable JSON_stringify : JsValue -> string.

Lemma placeholder_points test result conversation metrics :
  PlaceholderEvaluator.evaluate test result conversation metrics
  = ofZ (7
         - (if decide (0 < length (RawMetrics.errorsEncountered metrics))%nat
            then 1 else 0)
         + (if decide (String.length (TestResult.response result) < 50)%nat
            then -2
            else if decide (500 < String.length (TestResult.response result))%nat
                 then 1 else 0)).
Proof.
  unfold PlaceholderEvaluator.evaluate.
  repeat case_decide; rewrite ?ofZ_minus, ?ofZ_plus, normalizeScore_ofZ;
    f_equal; lia.
Qed.

(** X18. With the default manager the five placeholder metrics
    (documentation, security, instructionAdherence, consistency,
    errorRecovery) always carry one and the same score, and that score lies
    between 4 and 8. *)
Theorem placeholder_metrics_agree (test : Test.t) (result : TestResult.t) :
  let scores :=
    EvaluatorManager.evaluateAll (EvaluatorManager.create JSON_stringify)
      test result in
  ∃ score,
    JsMap.get "documentation" scores = Some score
    ∧ JsMap.get "security" scores = Some score
    ∧ JsMap.get "instructionAdherence" scores = Some score
    ∧ JsMap.get "consistency" scores = Some score
    ∧ JsMap.get "errorRecovery" scores = Some score
    ∧ (ofZ 4 <= score)%Qc ∧ (score <= ofZ 8)%Qc.
Proof.
  intros scores.
  exists (PlaceholderEvaluator.evaluate test result
            (TestResult.conversation result) (TestResult.metricsRaw result)).
  assert (scores
          = prod_map id (fun e => recordedScore e test result)
              <$> filter (fun kv => kv.1 ≠ "__proto__")
                         (EvaluatorManager.create JSON_stringify)) as ->.
  { apply evaluateAll_fmap. apply (managerWith_NoDup JSON_stringify []). }
  rewrite create_entries. split_and!; try reflexivity.
  - rewrite placeholder_points. apply ofZ_le. repeat case_decide; lia.
  - rewrite placeholder_points. apply ofZ_le. repeat case_decide; lia.
Qed.

Lemma ltb_lt a b : ltb a b = true → (a < b)%Qc.
Proof.
  unfold ltb. intros H%negb_true_iff. apply Qcnot_le_lt.
  intros Hle%leb_le. unfold leb in Hle. congruence.
Qed.

Lemma ratioScore_range (outputRatio : Quotient) :
  (ofZ 2 <= TokenEfficiencyEvaluator.ratioScore outputRatio)%Qc
  ∧ (TokenEfficiencyEvaluator.ratioScore outputRatio <= ofZ 10)%Qc.
Proof.
  unfold TokenEfficiencyEvaluator.ratioScore.
  destruct outputRatio as [r| | |].
  - destruct (ltb r half); [split; by apply ofZ_le|].
    destruct (ltb (ofZ 5) r) eqn:H5.
    + assert (0 ≤ floor ((r - ofZ 5) / ofZ 2))%Z as Hfloor.
      { change 0%Z with (Qfloor 0). apply Qfloor_resp_le.
        change (ofZ 0 <= (r - ofZ 5) / ofZ 2)%Qc.
        apply Qc_div_nonneg; [|by apply ofZ_le].
        apply ltb_lt, Qclt_le_weak in H5.
        by apply (proj1 (Qcle_minus_iff (ofZ 5) r)). }
      unfold min. rewrite leb_ofZ.
      case_bool_decide; rewrite ofZ_minus; split; apply ofZ_le; lia.
    + destruct (ltb (ofZ 3) r); split; by apply ofZ_le.
  - rewrite ofZ_minus. split; by apply ofZ_le.
  - split; by apply ofZ_le.
  - split; by apply ofZ_le.
Qed.

Lemma totalScore_range (totalTokens : Z) :
  (ofZ 5 <= TokenEfficiencyEvaluator.totalScore totalTokens)%Qc
  ∧ (TokenEfficiencyEvaluator.totalScore totalTokens <= ofZ 10)%Qc.
Proof.
  unfold TokenEfficiencyEvaluator.totalScore.
  repeat case_decide; split; by apply ofZ_le.
Qed.

Lemma Qc_third_mono a b : (a <= b)%Qc → (a / ofZ 3 <= b / ofZ 3)%Qc.
Proof.
  intros H. apply Qcmult_le_compat_r; [done|].
  apply Qc_inv_nonneg. by apply ofZ_le.
Qed.

(** X19. A transcript without duplicate tool calls gets a token-efficiency
    score of at least 17/3, whatever the token counts are (also when the
    input count is 0); a transcript with fifteen or more duplicate calls
    gets 0. *)
Theorem tokenEfficiency_bounds test result conversation metrics :
  let duplicates :=
    TokenEfficiencyEvaluator.countDuplicateToolCalls JSON_stringify conversation in
  let score :=
    TokenEfficiencyEvaluator.evaluate JSON_stringify test result conversation
      metrics in
  (duplicates = 0%nat → (ofZ 17 / ofZ 3 <= score)%Qc)
  ∧ ((15 ≤ duplicates)%nat → score = ofZ 0).
Proof.
  intros duplicates score. unfold score, TokenEfficiencyEvaluator.evaluate.
  fold duplicates.
  set (ratio := TokenEfficiencyEvaluator.ratioScore _).
  set (total := TokenEfficiencyEvaluator.totalScore _).
  destruct (ratioScore_range
              (div (TestResult.tokensOutput result) (TestResult.tokensInput result)))
    as [Hr2 Hr10]. fold ratio in Hr2, Hr10.
  destruct (totalScore_range
              (TestResult.tokensInput result + TestResult.tokensOutput result
               + match TestResult.tokensThinking result with
                 | Some n => n
                 | None => 0%Z
                 end)) as [Ht5 Ht10]. fold total in Ht5, Ht10.
  split.
  - intros ->. rewrite decide_False by lia.
    assert (inRange (ofZ 17 / ofZ 3)%Qc) as Hrange.
    { split.
      - apply Qc_div_nonneg; by apply ofZ_le.
      - replace (ofZ 10) with (ofZ 30 / ofZ 3)%Qc
          by (apply Qc_is_canon; reflexivity).
        apply Qc_third_mono. by apply ofZ_le. }
    rewrite <- (normalizeScore_id _ Hrange).
    apply normalizeScore_mono, Qc_third_mono.
    replace (ofZ 17) with (ofZ 2 + ofZ 5 + ofZ 10)%Qc by (by rewrite !ofZ_plus).
    repeat apply Qcplus_le_compat; try done.
  - intros Hdup. rewrite decide_True by lia.
    apply Qcle_antisym; [|apply normalizeScore_range].
    apply (Qcle_trans _ (normalizeScore (ofZ 0)));
      [|rewrite normalizeScore_zero; apply Qcle_refl].
    apply normalizeScore_mono.
    apply (Qcle_trans _ (ofZ 0 / ofZ 3)%Qc);
      [|apply (proj1 (leb_le (ofZ 0 / ofZ 3)%Qc (ofZ 0))); reflexivity].
    apply Qc_third_mono.
    replace (ofZ 0) with (ofZ 10 + ofZ 10 + ofZ (-20))%Qc
      by (by rewrite !ofZ_plus).
    repeat apply Qcplus_le_compat; try done.
    unfold ofNat. rewrite ofZ_mult, ofZ_minus. apply ofZ_le. lia.
Qed.

(** The loop of [getEvaluatorDescriptions], started from [acc]. *)
Lemma descriptions_loop (m : EvaluatorManager.t) (acc : JsMap.t string) :
  NoDup (JsMap.keys acc ++ JsMap.keys m) →
  foldl
    (fun descriptions entry =>
       EvaluatorManager.assign entry.1 (description entry.2) descriptions)
    acc m
  = (acc ++ (prod_map id description
               <$> filter (fun kv => kv.1 ≠ "__proto__") m))%list.
Proof.
  revert acc. induction m as [|[k e] m IH]; intros acc Hnd.
  - cbn [foldl]. by rewrite filter_nil, app_nil_r.
  - assert (k ∉ JsMap.keys acc) as Hfresh.
    { apply NoDup_app in Hnd as (_ & Hdisj & _). intros Hin.
      apply (Hdisj k Hin). apply elem_of_cons. by left. }
    assert (NoDup (JsMap.keys acc ++ JsMap.keys m)) as Hskip.
    { apply NoDup_app in Hnd as (Hacc & Hdisj & [_ Hm]%NoDup_cons).
      apply NoDup_app. split_and!; [done | | done].
      intros x Hx Hx'. apply (Hdisj x Hx). apply elem_of_cons. by right. }
    assert (∀ v, NoDup (JsMap.keys (JsMap.set k v acc) ++ JsMap.keys m)) as Hnd'.
    { intros v. rewrite JsMap_set_fresh; [|done]. unfold JsMap.keys in *.
      rewrite fmap_app, <- app_assoc. exact Hnd. }
    cbn [foldl fst snd]. rewrite filter_cons. cbn [fst].
    unfold EvaluatorManager.assign at 2.
    destruct (decide (k = "__proto__")) as [Hk|Hk].
    + rewrite decide_False by (by intros ?). by apply IH.
    + rewrite decide_True by done. rewrite fmap_cons, IH by apply Hnd'.
      rewrite JsMap_set_fresh by done. by rewrite <- app_assoc.
Qed.

(** X20. Registering a unit makes its description the one that
    [getEvaluatorDescriptions] reports under its name, also when the name
    was taken before; the descriptions of the other names stay, and no name
    is reported twice. *)
Theorem registered_description_is_reported
    (extra : list BaseEvaluator.t) (evaluator : BaseEvaluator.t) :
  let this :=
    EvaluatorManager.registerEvaluator evaluator
      (managerWith JSON_stringify extra) in
  let descriptions := EvaluatorManager.getEvaluatorDescriptions this in
  (metricName evaluator ≠ "__proto__" →
   JsMap.get (metricName evaluator) descriptions = Some (description evaluator))
  ∧ (∀ name, name ≠ "__proto__" → name ≠ metricName evaluator →
       JsMap.get name descriptions
       = description
           <$> JsMap.get name (managerWith JSON_stringify extra))
  ∧ NoDup (JsMap.keys descriptions).
Proof.
  intros this descriptions.
  assert (this = managerWith JSON_stringify (extra ++ [evaluator])) as Hthis.
  { unfold this, managerWith. by rewrite foldl_app. }
  assert (NoDup (JsMap.keys this)) as Hnd
    by (rewrite Hthis; apply managerWith_NoDup).
  assert (descriptions
          = prod_map id description
              <$> filter (fun kv => kv.1 ≠ "__proto__") this) as Hdesc.
  { unfold descriptions, EvaluatorManager.getEvaluatorDescriptions.
    by rewrite descriptions_loop. }
  split_and!.
  - intros Hname. rewrite Hdesc, JsMap_get_fmap, JsMap_get_own by done.
    unfold this, EvaluatorManager.registerEvaluator.
    by rewrite JsMap_get_set_eq.
  - intros name Hname Hother.
    rewrite Hdesc, JsMap_get_fmap, JsMap_get_own by done.
    unfold this, EvaluatorManager.registerEvaluator.
    by rewrite JsMap_get_set_ne.
  - rewrite Hdesc. unfold JsMap.keys. rewrite <- list_fmap_compose.
    apply NoDup_fmap_fst.
    + intros k v1 v2 [_ H1]%list_elem_of_filter [_ H2]%list_elem_of_filter.
      by eapply JsMap_elem_functional.
    + apply NoDup_filter. by apply JsMap_NoDup_entries.
Qed.

End PipelineMore.

(** * Further properties of the runner and of the suite driver *)

Section RunnerMore.
Import JsMath.
Variable path_join : string -> string -> string.

(** X22. The timer that [executeTest] sets has the delay
    [test.timeout || this.config.timeout]: the result of [executeTest]
    depends on the timer service only through what it answers for that
    delay.  The delay is never 0: a test timeout of 0 or none falls back to
    the runner's, a runner timeout of 0 or none to 120000; a test timeout
    other than 0 is taken as it is. *)
Theorem timeout_falls_back (config : ClaudeCodeRunnerConfig.t) (test : Test.t) :
  let runner := ClaudeCodeRunner.create config in
  configuredTimeout runner test ≠ 0%Z
  ∧ (Test.timeout test = None ∨ Test.timeout test = Some 0%Z →
     configuredTimeout runner test = ClaudeCodeRunner.timeout runner)
  ∧ (ClaudeCodeRunnerConfig.timeout config = None
     ∨ ClaudeCodeRunnerConfig.timeout config = Some 0%Z →
     ClaudeCodeRunner.timeout runner = 120000%Z)
  ∧ (∀ n, Test.timeout test = Some n → n ≠ 0%Z →
          configuredTimeout runner test = n)
  ∧ ∀ (w : World.t) (content : string) (testRunId : Z)
      (timerAt timerAt' : Z → Z),
      timerAt (configuredTimeout runner test)
      = timerAt' (configuredTimeout runner test) →
      ClaudeCodeRunner.executeTest path_join runner (withTimer timerAt w)
        content test testRunId
      = ClaudeCodeRunner.executeTest path_join runner (withTimer timerAt' w)
          content test testRunId.
Proof.
  intros runner.
  assert (ClaudeCodeRunner.timeout runner ≠ 0%Z) as Hrunner.
  { unfold runner, ClaudeCodeRunner.create, ClaudeCodeRunner.orNumber.
    cbn [ClaudeCodeRunner.timeout].
    destruct (ClaudeCodeRunnerConfig.timeout config) as [n|]; [|done].
    by case_decide. }
  split_and!.
  - unfold configuredTimeout, ClaudeCodeRunner.orNumber.
    destruct (Test.timeout test) as [n|]; [|done]. by case_decide.
  - unfold configuredTimeout, ClaudeCodeRunner.orNumber. by intros [->| ->].
  - unfold runner, ClaudeCodeRunner.create, ClaudeCodeRunner.orNumber.
    cbn [ClaudeCodeRunner.timeout]. by intros [->| ->].
  - unfold configuredTimeout, ClaudeCodeRunner.orNumber.
    intros n -> Hn. by rewrite decide_False.
  - intros w content testRunId timerAt timerAt' Htimer.
    unfold ClaudeCodeRunner.executeTest, ClaudeCodeRunner.runClaudeCode,
      withTimer.
    cbn [World.now_start World.now_workspace World.mkdir World.writeFile
         World.now_spawn World.spawn World.timerAt World.nowAt
         World.listFilesRecursively World.now_file World.now_error
         World.now_failure].
    fold (configuredTimeout runner test). by rewrite Htimer.
Qed.

Lemma string_length_app (a b : string) :
  String.length (a ++ b) = (String.length a + String.length b)%nat.
Proof.
  induction a as [|c a IH]; [done|].
  change (String c a ++ b) with (String c (a ++ b)). cbn [String.length].
  by rewrite IH.
Qed.

(** X23. The token estimate of a text is the least whole number that is
    at least a quarter of its length: it is 0 only for the empty text, and
    the estimate of two texts put together is at most the sum of their
    estimates. *)
Theorem estimateTokens_quarter (text more : string) :
  let tokens := ClaudeCodeRunner.estimateTokens text in
  (4 * (tokens - 1) < Z.of_nat (String.length text) ≤ 4 * tokens)%Z
  ∧ (tokens = 0%Z ↔ text = EmptyString)
  ∧ (ClaudeCodeRunner.estimateTokens (text ++ more)
     ≤ tokens + ClaudeCodeRunner.estimateTokens more)%Z.
Proof.
  intros tokens. unfold tokens, ClaudeCodeRunner.estimateTokens.
  rewrite string_length_app.
  set (n := Z.of_nat (String.length text)).
  set (k := Z.of_nat (String.length more)).
  assert (0 ≤ n)%Z by lia. assert (0 ≤ k)%Z by lia.
  pose proof (Z.div_mod (n + 3) 4 ltac:(lia)).
  pose proof (Z.mod_pos_bound (n + 3) 4 ltac:(lia)).
  pose proof (Z.div_mod (k + 3) 4 ltac:(lia)).
  pose proof (Z.mod_pos_bound (k + 3) 4 ltac:(lia)).
  split; [|split].
  - lia.
  - split.
    + intros Hzero. assert (n = 0)%Z as Hn by lia.
      destruct text; [done|]. unfold n in Hn. cbn in Hn. lia.
    + intros ->. done.
  - replace (Z.of_nat (String.length text + String.length more))
      with (n + k)%Z by lia.
    pose proof (Z.div_mod (n + k + 3) 4 ltac:(lia)).
    pose proof (Z.mod_pos_bound (n + k + 3) 4 ltac:(lia)).
    lia.
Qed.

(** X24. [collectMetrics] records at most one error event, of type
    [execution_error] and not recovered, and records none exactly when the
    exit code is 0 and there is no error text; every file operation it
    records is a successful write of a file whose name does not end with
    [CLAUDE.md]; it records no command. *)
Theorem collectMetrics_shape
    (w : World.t) (workspacePath : string) (executionResult : ExecutionResult.t) :
  let metrics := ClaudeCodeRunner.collectMetrics w workspacePath executionResult in
  (length (RawMetrics.errorsEncountered metrics) ≤ 1)%nat
  ∧ (RawMetrics.errorsEncountered metrics = []
     ↔ ExecutionResult.exitCode executionResult = 0%Z
       ∧ (ExecutionResult.error executionResult = None
          ∨ ExecutionResult.error executionResult = Some EmptyString))
  ∧ (∀ e, e ∈ RawMetrics.errorsEncountered metrics →
          ErrorEvent.type e = "execution_error"
          ∧ ErrorEvent.recovered e = false
          ∧ ∃ text, ErrorEvent.message e = ErrorEvent.Text text
                    ∧ text ≠ EmptyString)
  ∧ (∀ op, op ∈ RawMetrics.fileOperations metrics →
           FileOperation.type op = op_write
           ∧ FileOperation.success op = true
           ∧ JsString.endsWith (FileOperation.path op) "CLAUDE.md" = false
           ∧ FileOperation.path op ∈ World.listFilesRecursively w workspacePath)
  ∧ RawMetrics.commandsExecuted metrics = [].
Proof.
  intros metrics. unfold metrics, ClaudeCodeRunner.collectMetrics.
  cbn [RawMetrics.errorsEncountered RawMetrics.fileOperations
       RawMetrics.commandsExecuted].
  destruct (ExecutionResult.error executionResult) as [e|] eqn:Herror;
    [destruct (JsString.truthy e) eqn:Htruthy|];
    destruct (Z.eqb_spec (ExecutionResult.exitCode executionResult) 0)
      as [Hcode|Hcode];
    cbn [orb negb length ClaudeCodeRunner.orString]; rewrite ?Htruthy;
    (split; [|split; [|split; [|split]]];
     [ lia
     | split; [try done; intros _ | intros [? [?|?]]; try done; try congruence]
     | intros ev Hev; try (by apply elem_of_nil in Hev);
       apply list_elem_of_singleton in Hev as ->;
       cbn [ErrorEvent.type ErrorEvent.recovered ErrorEvent.message];
       (split; [done|]; split; [done|]); eexists; (split; [reflexivity|]);
       try done
     | intros op Hop; apply list_elem_of_fmap in Hop as (file & -> & Hfile);
       apply list_elem_of_filter in Hfile as [Hend Hfile]; done
     | done ]).
  all: try (by destruct e).
  all: try (split; [done|]; by destruct e; [right|]).
  split; [done|by left].
Qed.

End RunnerMore.

Section SuiteMore.
Import JsMath.
Variable path_join : string -> string -> string.
Variable JSON_stringify : JsValue -> string.

Lemma filter_imap_length {A B C : Type}
    (P : B → Prop) `{!∀ x, Decision (P x)}
    (Q : C → Prop) `{!∀ x, Decision (Q x)} (l : list A) :
  ∀ (f : nat → A → B) (g : nat → A → C),
    (∀ i x, P (f i x) ↔ Q (g i x)) →
    length (filter P (imap f l)) = length (filter Q (imap g l)).
Proof.
  induction l as [|x l IH]; intros f g Hfg; [done|].
  rewrite !imap_cons, !filter_cons.
  specialize (IH (f ∘ S) (g ∘ S) (fun i x => Hfg (S i) x)).
  destruct (decide (P (f 0%nat x))) as [HP|HP],
           (decide (Q (g 0%nat x))) as [HQ|HQ]; cbn [length];
    try (by rewrite IH).
  - by apply Hfg in HP.
  - by apply Hfg in HQ.
Qed.

Lemma recorded_failed this world claudeFile testRunId i test :
  MetricScores.correctness
    (TestResult.scores (recordedResult path_join this world claudeFile testRunId i test))
  = ofZ 0
  ↔ throws path_join this world claudeFile testRunId i test = true.
Proof.
  unfold recordedResult, throws.
  destruct (ClaudeCodeRunner.executeTest _ _ _ _ _ _) as [result|error] eqn:Hrun.
  - apply executeTest_Normal in Hrun
      as (_ & _ & _ & _ & _ & _ & _ & Hscore & _).
    rewrite Hscore. split; [|done]. by intros ?%ofZ_inj.
  - done.
Qed.

(** X25. With observers that do not throw, the summary of a suite run
    counts as failed exactly the tests whose execution threw (the workspace
    could not be set up, or the process could not be started); a test whose
    process ran counts as passed, whatever its exit code was. *)
Theorem suite_failures_are_throws
    (this : TestRunner.t) (world : nat → World.t) (claudeFile : ClaudeFile.t)
    (testSuite : TestSuite.t) (testRunId : Z)
    (callbacks : option Callbacks.t) (startedAt completedAt : Z) :
  quiet callbacks →
  ∃ testRun results summary,
    TestRunner.runTestSuite path_join this world claudeFile testSuite testRunId
      callbacks startedAt completedAt = Normal (testRun, results, summary)
    ∧ TestSummary.totalTests summary = length (TestSuite.tests testSuite)
    ∧ TestSummary.failedTests summary
      = length (filter (fun thrown : bool => thrown = true)
                  (imap (throws path_join this world claudeFile testRunId)
                        (TestSuite.tests testSuite)))
    ∧ (TestSummary.passedTests summary + TestSummary.failedTests summary
       = length (TestSuite.tests testSuite))%nat.
Proof.
  intros Hquiet. unfold TestRunner.runTestSuite.
  rewrite (runLoop_quiet path_join) by done. cbn [app].
  eexists _, _, _. split; [reflexivity|].
  set (results := imap _ _).
  assert (length results = length (TestSuite.tests testSuite)) as Hlen
    by (unfold results; by rewrite length_imap).
  assert (length (filter (fun r => MetricScores.correctness (TestResult.scores r)
                                   = ofZ 0) results)
          = length (filter (fun thrown : bool => thrown = true)
                      (imap (throws path_join this world claudeFile testRunId)
                            (TestSuite.tests testSuite)))) as Hfailed.
  { unfold results. apply filter_imap_length. intros i x.
    apply recorded_failed. }
  unfold TestRunner.calculateSummary.
  cbn [TestSummary.totalTests TestSummary.failedTests TestSummary.passedTests].
  rewrite Hfailed, Hlen. split_and!; [done|done|].
  pose proof (length_filter (fun thrown : bool => thrown = true)
                (imap (throws path_join this world claudeFile testRunId)
                      (TestSuite.tests testSuite))) as Hle.
  rewrite length_imap in Hle. lia.
Qed.

Lemma Qc_share_one a b : b ≠ ofZ 0 → (a / b)%Qc = ofZ 1 → a = b.
Proof.
  intros Hb Hshare. rewrite <- (Qcmult_div_r a b) by done.
  rewrite Hshare. change (ofZ 1) with 1%Qc. ring.
Qed.

Lemma Qc_share_zero a b : b ≠ ofZ 0 → (a / b)%Qc = ofZ 0 → a = ofZ 0.
Proof.
  intros Hb Hshare. rewrite <- (Qcmult_div_r a b) by done.
  rewrite Hshare. change (ofZ 0) with 0%Qc. ring.
Qed.

(** X26. In every summary the passed and the failed tests add up to the
    total and the success rate lies between 0 and 1; the summary of no
    results has rate 0 and average scores 0; in a summary of some results
    the rate is 1 exactly when no test failed and 0 exactly when no test
    passed. *)
Theorem calculateSummary_bounds (results : list TestResult.t) :
  let summary := TestRunner.calculateSummary results in
  (TestSummary.passedTests summary + TestSummary.failedTests summary
   = TestSummary.totalTests summary)%nat
  ∧ (ofZ 0 <= TestSummary.successRate summary)%Qc
  ∧ (TestSummary.successRate summary <= ofZ 1)%Qc
  ∧ (results = [] →
     TestSummary.successRate summary = ofZ 0
     ∧ TestSummary.averageScores summary = TestRunner.zeroScores)
  ∧ (results ≠ [] →
     (TestSummary.successRate summary = ofZ 1
      ↔ TestSummary.failedTests summary = 0%nat)
     ∧ (TestSummary.successRate summary = ofZ 0
        ↔ TestSummary.passedTests summary = 0%nat)).
Proof.
  intros summary. unfold summary, TestRunner.calculateSummary.
  cbn [TestSummary.passedTests TestSummary.failedTests TestSummary.totalTests
       TestSummary.successRate TestSummary.averageScores
       MetricScores.correctness].
  set (failed := length (filter _ results)).
  assert (failed ≤ length results)%nat as Hfailed by apply length_filter.
  split; [lia|]. split; [|split; [|split]].
  - case_decide; [|apply Qcle_refl].
    apply Qcle_trans with (ofZ 0 * / ofNat (length results))%Qc.
    + change (ofZ 0) with (Q2Qc 0). rewrite Qcmult_0_l. apply Qcle_refl.
    + apply Qcmult_le_compat_r; [apply (ofNat_le 0); lia|].
      apply Qc_inv_nonneg. apply (ofNat_le 0). lia.
  - case_decide; [|by apply ofZ_le].
    apply Qc_share_le_one.
    + apply (ofNat_le 0). lia.
    + apply ofNat_le. lia.
    + intros H'%ofNat_zero. lia.
  - intros ->. done.
  - intros Hne.
    assert (0 < length results)%nat as Hpos by (destruct results; cbn; [done|lia]).
    assert (ofNat (length results) ≠ ofZ 0) as Htotal
      by (intros H'%ofNat_zero; lia).
    rewrite decide_True by done. split; split.
    + intros Hrate%Qc_share_one; [|done].
      apply ofZ_inj in Hrate. lia.
    + intros Hzero. rewrite Hzero, Nat.sub_0_r. by apply Qcmult_inv_r.
    + intros Hrate%Qc_share_zero; [|done].
      apply (ofZ_inj _ 0) in Hrate. lia.
    + intros ->. unfold Qcdiv. change (ofNat 0) with (Q2Qc 0).
      by rewrite Qcmult_0_l.
Qed.

Lemma extractErrors_inner (msg : Message.t) (calls : list ToolCall.t) :
  ∀ errors : list ErrorEvent.t,
    foldl
      (fun (errors : list ErrorEvent.t) call =>
         match ToolCall.error call with
         | Some e =>
             if JsString.truthy e then
               (errors ++
                 [ {| ErrorEvent.type := "tool_error";
                      ErrorEvent.message := ErrorEvent.Text e;
                      ErrorEvent.stack := None;
                      ErrorEvent.timestamp := Message.timestamp msg;
                      ErrorEvent.recovered := false |} ])%list
             else errors
         | None => errors
         end)
      errors calls
    = (errors
       ++ ((fun call =>
              {| ErrorEvent.type := "tool_error";
                 ErrorEvent.message :=
                   ErrorEvent.Text (default EmptyString (ToolCall.error call));
                 ErrorEvent.stack := None;
                 ErrorEvent.timestamp := Message.timestamp msg;
                 ErrorEvent.recovered := false |})
             <$> filter (fun call => hasError call) calls))%list.
Proof.
  induction calls as [|call calls IH]; intros errors.
  - cbn. by rewrite app_nil_r.
  - cbn [foldl]. rewrite IH, filter_cons.
    destruct (ToolCall.error call) as [e|] eqn:He;
      [destruct (JsString.truthy e) eqn:Ht|].
    + rewrite decide_True by (unfold hasError; rewrite He, Ht; exact I).
      rewrite fmap_cons, He, <- app_assoc. done.
    + by rewrite decide_False by (unfold hasError; rewrite He, Ht; exact id).
    + by rewrite decide_False by (unfold hasError; rewrite He; exact id).
Qed.

Lemma extractErrors_outer (messages : list Message.t) :
  ∀ errors : list ErrorEvent.t,
    ErrorEvent.message <$>
      foldl
        (fun (errors : list ErrorEvent.t) msg =>
           match Message.toolCalls msg with
           | Some calls =>
               foldl
                 (fun (errors : list ErrorEvent.t) call =>
                    match ToolCall.error call with
                    | Some e =>
                        if JsString.truthy e then
                          (errors ++
                            [ {| ErrorEvent.type := "tool_error";
                                 ErrorEvent.message := ErrorEvent.Text e;
                                 ErrorEvent.stack := None;
                                 ErrorEvent.timestamp := Message.timestamp msg;
                                 ErrorEvent.recovered := false |} ])%list
                        else errors
                    | None => errors
                    end)
                 errors calls
           | None => errors
           end)
        errors messages
    = ((ErrorEvent.message <$> errors)
       ++ ((fun call => ErrorEvent.Text (default EmptyString (ToolCall.error call)))
             <$> filter (fun call => hasError call)
                   (mjoin ((fun message => default [] (Message.toolCalls message))
                             <$> messages))))%list
    ∧ (Forall (fun e => ErrorEvent.type e = "tool_error"
                        ∧ ErrorEvent.recovered e = false
                        ∧ ∃ text, ErrorEvent.message e = ErrorEvent.Text text
                                  ∧ text ≠ EmptyString) errors →
       Forall (fun e => ErrorEvent.type e = "tool_error"
                        ∧ ErrorEvent.recovered e = false
                        ∧ ∃ text, ErrorEvent.message e = ErrorEvent.Text text
                                  ∧ text ≠ EmptyString)
         (foldl
            (fun (errors : list ErrorEvent.t) msg =>
               match Message.toolCalls msg with
               | Some calls =>
                   foldl
                     (fun (errors : list ErrorEvent.t) call =>
                        match ToolCall.error call with
                        | Some e =>
                            if JsString.truthy e then
                              (errors ++
                                [ {| ErrorEvent.type := "tool_error";
                                     ErrorEvent.message := ErrorEvent.Text e;
                                     ErrorEvent.stack := None;
                                     ErrorEvent.timestamp := Message.timestamp msg;
                                     ErrorEvent.recovered := false |} ])%list
                            else errors
                        | None => errors
                        end)
                     errors calls
               | None => errors
               end)
            errors messages)).
Proof.
  induction messages as [|msg messages IH]; intros errors.
  - cbn. by rewrite app_nil_r.
  - cbn [foldl fmap list_fmap mjoin list_join].
    destruct (Message.toolCalls msg) as [calls|] eqn:Hcalls.
    + rewrite extractErrors_inner.
      destruct (IH (errors
       ++ ((fun call =>
              {| ErrorEvent.type := "tool_error";
                 ErrorEvent.message :=
                   ErrorEvent.Text (default EmptyString (ToolCall.error call));
                 ErrorEvent.stack := None;
                 ErrorEvent.timestamp := Message.timestamp msg;
                 ErrorEvent.recovered := false |})
             <$> filter (fun call => hasError call) calls))%list)
        as [IHm IHf].
      split.
      * rewrite IHm. cbn [default from_option id].
        rewrite filter_app, !fmap_app, <- app_assoc. do 2 f_equal.
        by rewrite <- list_fmap_compose.
      * intros Hall. apply IHf. apply Forall_app. split; [done|].
        apply Forall_fmap, Forall_forall. intros call Hcall.
        apply list_elem_of_filter in Hcall as [Herr _]. cbn.
        split; [done|]. split; [done|].
        eexists. split; [reflexivity|].
        unfold hasError in Herr.
        destruct (ToolCall.error call) as [e|]; [|done].
        cbn. by destruct e.
    + destruct (IH errors) as [IHm IHf]. split; [|done].
      rewrite IHm. done.
Qed.

(** X27. [extractErrors] reports one event for each tool call of the
    transcript that carries a non-empty error text, in the order of the
    calls: the messages of the events are those error texts, and every event
    has type [tool_error] and is not recovered.  A call whose error text is
    empty is not reported. *)
Theorem extractErrors_reports_failed_calls (conversation : ConversationHistory.t) :
  let errors := TestRunner.extractErrors conversation in
  ErrorEvent.message <$> errors
  = (fun call => ErrorEvent.Text (default EmptyString (ToolCall.error call)))
      <$> filter (fun call => hasError call) (transcriptCalls conversation)
  ∧ length errors
    = length (filter (fun call => hasError call) (transcriptCalls conversation))
  ∧ Forall (fun e => ErrorEvent.type e = "tool_error"
                     ∧ ErrorEvent.recovered e = false
                     ∧ ∃ text, ErrorEvent.message e = ErrorEvent.Text text
                                  ∧ text ≠ EmptyString) errors.
Proof.
  intros errors. unfold errors, TestRunner.extractErrors, transcriptCalls.
  destruct (extractErrors_outer (ConversationHistory.messages conversation) [])
    as [Hm Hf].
  split; [exact Hm|]. split; [|apply Hf; constructor].
  apply (f_equal length) in Hm.
  rewrite length_app, !length_fmap in Hm. exact Hm.
Qed.

Lemma repeats_and_distinct (calls : list ToolCall.t) :
  (adjacentRepeats (callKey JSON_stringify <$> calls)
   + distinctCount (TokenEfficiencyEvaluator.signature JSON_stringify <$> calls)
   ≤ length calls)%nat.
Proof.
  induction calls as [|x [|y calls] IH]; [done|cbn; unfold distinctCount; cbn| ].
  - rewrite union_empty_r_L, size_singleton. done.
  - rewrite fmap_cons.
    change (callKey JSON_stringify <$> y :: calls)
      with (callKey JSON_stringify y :: (callKey JSON_stringify <$> calls)).
    rewrite adjacentRepeats_cons2.
    rewrite fmap_cons, distinctCount_cons.
    change (callKey JSON_stringify y :: (callKey JSON_stringify <$> calls))
      with (callKey JSON_stringify <$> y :: calls).
    cbn [length] in *.
    destruct (decide (callKey JSON_stringify x = callKey JSON_stringify y))
      as [Hkey|Hkey].
    + rewrite decide_True; [lia|].
      rewrite fmap_cons. apply elem_of_cons. left.
      unfold callKey in Hkey. injection Hkey as Hname Hparams.
      unfold TokenEfficiencyEvaluator.signature. by rewrite Hname, Hparams.
    + case_decide; lia.
Qed.

(** X28. Every retry is a duplicate: over any conversation the retry count
    of the suite driver is at most the duplicate count of the
    token-efficiency evaluator. *)
Theorem retries_at_most_duplicates (conversation : ConversationHistory.t) :
  (TestRunner.countRetries JSON_stringify conversation
   ≤ TokenEfficiencyEvaluator.countDuplicateToolCalls JSON_stringify conversation)%nat.
Proof.
  rewrite countRetries_flat.
  pose proof (countDuplicateToolCalls_flat JSON_stringify conversation) as Hdup.
  pose proof (repeats_and_distinct (transcriptCalls conversation)) as Hle.
  lia.
Qed.

End SuiteMore.

(** * Further properties of the simulated shell *)

Section ShellFacts.
Variable path_join : string -> string -> string.
Variable path_normalize : string -> string.

Local Abbreviation executeVirtualCommand :=
  (ClaudeClient.executeVirtualCommand path_join path_normalize).

Lemma split_no_separator sep s :
  containsChar sep s = false → JsString.split sep s = [s].
Proof.
  induction s as [|c s IH]; [done|]. cbn [containsChar JsString.split].
  intros [Hc Hs]%orb_false_iff. rewrite Hc, IH by done. done.
Qed.

(** X29. Every command of the simulated shell adds one record to the
    history, holding the command and the answer; the exit code is 0 or 1,
    and 1 only for a [cat]; no command changes a file of the sandbox, and
    only a [cat] that names a path adds a record to the operation log. *)
Theorem shell_records_and_keeps_files
    (this : ClaudeClient.t) (command : string) (now : Z) (random : Qc)
    (nowRead : Z) :
  let answer := executeVirtualCommand this command now random nowRead in
  (∃ record,
      ClaudeClient.commandHistory answer.2
      = (ClaudeClient.commandHistory this ++ [record])%list
      ∧ CommandExecution.command record = command
      ∧ CommandExecution.output record = answer.1.1
      ∧ CommandExecution.exitCode record = answer.1.2
      ∧ CommandExecution.timestamp record = now)
  ∧ (answer.1.2 = 0%Z ∨ answer.1.2 = 1%Z)
  ∧ (answer.1.2 = 1%Z →
     JsString.startsWith command "cat" = true
     ∧ JsString.startsWith command "ls" = false)
  ∧ VirtualFileSystem.files (ClaudeClient.virtualFS answer.2)
    = VirtualFileSystem.files (ClaudeClient.virtualFS this)
  ∧ (JsString.startsWith command "cat" = false
     ∨ JsString.startsWith command "ls" = true →
     ClaudeClient.virtualFS answer.2 = ClaudeClient.virtualFS this).
Proof.
  intros answer. unfold answer, ClaudeClient.executeVirtualCommand.
  destruct (JsString.startsWith command "ls") eqn:Hls;
    [|destruct (JsString.startsWith command "cat") eqn:Hcat;
      [destruct (JsString.split " " command !! 1%nat) as [path|];
       [destruct (JsString.truthy path);
        [destruct (VirtualFileSystem.read _ _ _ _ _) as [content fs] eqn:Hread;
         assert (VirtualFileSystem.files fs
                 = VirtualFileSystem.files (ClaudeClient.virtualFS this))
           as Hfiles
           by (unfold VirtualFileSystem.read in Hread; by injection Hread as _ <-);
         destruct content as [text|]; [destruct (JsString.truthy text)|]
        |]
       |]
      |destruct (JsString.startsWith command "echo");
       [|case_decide]]];
    cbn; split_and!; try done; try (by eexists); try (by left);
    try (by right); try (by intros [|]).
Qed.

(** X30. [cat] after [write]: for a path without a space, [cat] prints the
    content that was written and exits with 0 when the content is not
    empty; when the file was written with an empty content, [cat] reports
    [No such file or directory] with exit code 1, although a [read] of the
    path returns the empty content. *)
Theorem cat_after_write
    (this : ClaudeClient.t) (path content : string)
    (nowWrite now : Z) (random : Qc) (nowRead : Z) :
  containsChar " " path = false →
  path ≠ EmptyString →
  let fs :=
    (VirtualFileSystem.write path_join path_normalize
       (ClaudeClient.virtualFS this) path content nowWrite).2 in
  let written :=
    {| ClaudeClient.virtualFS := fs;
       ClaudeClient.commandHistory := ClaudeClient.commandHistory this |} in
  (executeVirtualCommand written ("cat " ++ path) now random nowRead).1
  = (if JsString.truthy content then (content, 0%Z)
     else ("cat: " ++ path ++ ": No such file or directory", 1%Z))
  ∧ (VirtualFileSystem.read path_join path_normalize fs path nowRead).1
    = Some content.
Proof.
  intros Hspace Hpath fs written.
  assert ((VirtualFileSystem.read path_join path_normalize fs path nowRead).1
          = Some content) as Hread.
  { unfold VirtualFileSystem.read, fs, VirtualFileSystem.write.
    cbn [fst snd VirtualFileSystem.files].
    change (VirtualFileSystem.normalizePath path_join path_normalize _ path)
      with (VirtualFileSystem.normalizePath path_join path_normalize
              (ClaudeClient.virtualFS this) path).
    by rewrite JsMap_get_set_eq. }
  split; [|exact Hread].
  unfold ClaudeClient.executeVirtualCommand.
  change ("cat " ++ path)
    with (String "c" (String "a" (String "t" (String " " path)))).
  cbn [JsString.startsWith JsString.split Ascii.eqb Bool.eqb].
  rewrite split_no_separator by done.
  cbn [lookup list_lookup].
  assert (JsString.truthy path = true) as -> by (by destruct path).
  unfold written. cbn [ClaudeClient.virtualFS ClaudeClient.commandHistory].
  destruct (VirtualFileSystem.read _ _ _ _ _) as [result fs'] eqn:Hrun.
  cbn [fst] in Hread. subst result.
  by destruct (JsString.truthy content).
Qed.

End ShellFacts.

(** * The further properties on the sample data *)

(** X1 on the sample sandbox: a second write to [a.txt] keeps the creation
    time 1 of the first. *)
Lemma write_overwrite_keeps_creation_witness :
  VirtualFile.createdAt
    <$> JsMap.get "/workspace/a.txt"
          (VirtualFileSystem.files
             (VirtualFileSystem.write NodePath.join NodePath.normalize
                Sample.sandbox "a.txt" "y" 9).2)
  = Some 1%Z.
Proof.
  destruct (write_overwrite_keeps_creation NodePath.join NodePath.normalize
              Sample.sandbox "a.txt" "y" 9
              {| VirtualFile.path := "/workspace/a.txt";
                 VirtualFile.content := "abcabc";
                 VirtualFile.createdAt := 1;
                 VirtualFile.modifiedAt := 1;
                 VirtualFile.permissions := "rw-r--r--" |} eq_refl) as [H _].
  exact (f_equal (fmap VirtualFile.createdAt) H).
Defined.

(** X2 on the sample sandbox: writing, deleting or editing [b.txt] leaves
    the content of [a.txt]. *)
Lemma operations_leave_other_paths_witness :
  (VirtualFileSystem.read NodePath.join NodePath.normalize
     (VirtualFileSystem.write NodePath.join NodePath.normalize
        Sample.sandbox "b.txt" "new" 3).2 "a.txt" 4).1 = Some "abcabc"
  ∧ (VirtualFileSystem.read NodePath.join NodePath.normalize
       (VirtualFileSystem.delete NodePath.join NodePath.normalize
          Sample.sandbox "b.txt" 3).2 "a.txt" 4).1 = Some "abcabc"
  ∧ (VirtualFileSystem.read NodePath.join NodePath.normalize
       (VirtualFileSystem.edit NodePath.join NodePath.normalize
          Sample.sandbox "b.txt" "old" "new" 3 3).2 "a.txt" 4).1
    = Some "abcabc".
Proof.
  assert (VirtualFileSystem.normalizePath NodePath.join NodePath.normalize
            Sample.sandbox "a.txt"
          ≠ VirtualFileSystem.normalizePath NodePath.join NodePath.normalize
              Sample.sandbox "b.txt") as Hne
    by (vm_compute; discriminate).
  exact (operations_leave_other_paths NodePath.join NodePath.normalize
           Sample.sandbox "b.txt" "a.txt" "new" "old" "new" 3 3 3 4 Hne).
Defined.

(** X4 on the sample sandbox: editing [abcabc] with the fragment [b] gives
    [aXcabc]. *)
Lemma edit_replaces_first_occurrence_witness :
  (VirtualFileSystem.edit NodePath.join NodePath.normalize
     Sample.sandbox "a.txt" "b" "X" 3 3).1 = VirtualFileSystem.EditOk
  ∧ VirtualFile.content
      <$> JsMap.get "/workspace/a.txt"
            (VirtualFileSystem.files
               (VirtualFileSystem.edit NodePath.join NodePath.normalize
                  Sample.sandbox "a.txt" "b" "X" 3 3).2)
    = Some "aXcabc".
Proof.
  assert (∀ j, (j < String.length "a")%nat →
               ¬ occursAt ("a" ++ "b" ++ "cabc") "b" j) as Hfirst.
  { intros j Hj. assert (j = 0%nat) as -> by (cbn in Hj; lia).
    unfold occursAt. vm_compute. discriminate. }
  destruct (edit_replaces_first_occurrence NodePath.join NodePath.normalize
              Sample.sandbox "a.txt" "b" "X" 3 3
              {| VirtualFile.path := "/workspace/a.txt";
                 VirtualFile.content := "abcabc";
                 VirtualFile.createdAt := 1;
                 VirtualFile.modifiedAt := 1;
                 VirtualFile.permissions := "rw-r--r--" |}
              "a" "cabc" eq_refl eq_refl Hfirst eq_refl) as (H1 & H2 & _).
  split; [exact H1|].
  exact (f_equal (fmap VirtualFile.content) H2).
Defined.

(** X5 on the sample sandbox: an edit with the empty fragment puts the new
    text in front. *)
Lemma edit_empty_fragment_prepends_witness :
  (VirtualFileSystem.read NodePath.join NodePath.normalize
     (VirtualFileSystem.edit NodePath.join NodePath.normalize
        Sample.sandbox "b.txt" EmptyString "very " 3 3).2 "b.txt" 4).1
  = Some "very old".
Proof.
  exact (proj2 (edit_empty_fragment_prepends NodePath.join NodePath.normalize
                  Sample.sandbox "b.txt" "very " 3 3 4
                  {| VirtualFile.path := "/workspace/b.txt";
                     VirtualFile.content := "old";
                     VirtualFile.createdAt := 2;
                     VirtualFile.modifiedAt := 2;
                     VirtualFile.permissions := "rw-r--r--" |}
                  eq_refl eq_refl)).
Defined.

(** X9 on the sample sandbox, with two spellings of the path *)
Lemma delete_then_read_witness :
  sandbox_wf Sample.sandbox
  ∧ (VirtualFileSystem.read NodePath.join NodePath.normalize
       (VirtualFileSystem.delete NodePath.join NodePath.normalize
          Sample.sandbox "a.txt" 3).2 "/workspace/a.txt" 4).1 = None
  ∧ (VirtualFileSystem.delete NodePath.join NodePath.normalize
       (VirtualFileSystem.delete NodePath.join NodePath.normalize
          Sample.sandbox "a.txt" 3).2 "/workspace/a.txt" 4).1 = false.
Proof.
  assert (sandbox_wf Sample.sandbox) as Hwf
    by (apply write_wf, write_wf, create_wf).
  destruct (delete_then_read NodePath.join NodePath.normalize
              Sample.sandbox "a.txt" "/workspace/a.txt" "z" 3 4 5 Hwf eq_refl)
    as (H1 & H2 & _).
  split_and!; [exact Hwf | exact H1 | exact H2].
Defined.

(** X10 on two results, of 2500 ms and of 25000 ms *)
Lemma speed_never_rewards_slowness_witness :
  (SpeedEvaluator.evaluate Sample.plainTest (Sample.resultAt 25000)
     (TestResult.conversation (Sample.resultAt 25000)) Sample.cleanMetrics
   <= SpeedEvaluator.evaluate Sample.test (Sample.resultAt 2500)
        (TestResult.conversation (Sample.resultAt 2500)) Sample.metrics)%Qc.
Proof.
  apply speed_never_rewards_slowness. cbn. lia.
Defined.

(** X13 on a keyword of a mixed-case text *)
Lemma extractKeywords_shape_witness :
  "hello" ∈ CorrectnessEvaluator.extractKeywords "Creates a HELLO file"
  ∧ (3 < String.length "hello")%nat.
Proof.
  assert ("hello" ∈ CorrectnessEvaluator.extractKeywords "Creates a HELLO file")
    as Hin by (apply (list_elem_of_lookup_2 _ 1%nat); reflexivity).
  split; [exact Hin|].
  exact (proj1 (extractKeywords_shape "Creates a HELLO file" "hello" Hin)).
Defined.

(** X15 on a clean run whose response holds none of the expected
    keywords: the score is 0. *)
Lemma correctness_capped_by_keywords_witness :
  CorrectnessEvaluator.evaluate Sample.test (Sample.resultAt 2500)
    (TestResult.conversation (Sample.resultAt 2500)) Sample.cleanMetrics
  = JsMath.ofZ 0.
Proof.
  assert ("creates hello file" ≠ EmptyString) as Hne by discriminate.
  apply (proj2 (correctness_capped_by_keywords Sample.test (Sample.resultAt 2500)
                  (TestResult.conversation (Sample.resultAt 2500))
                  Sample.cleanMetrics "creates hello file" eq_refl Hne)).
  - vm_compute. discriminate.
  - apply Forall_forall. apply (bool_decide_unpack _). vm_compute. exact I.
Defined.

(** X12 on a clean run of a test without expected behaviour: the score
    is 10. *)
Lemma correctness_clean_run_witness :
  CorrectnessEvaluator.evaluate Sample.plainTest (Sample.resultAt 2500)
    (TestResult.conversation (Sample.resultAt 2500)) Sample.cleanMetrics
  = JsMath.ofZ 10.
Proof.
  apply correctness_clean_run.
  - reflexivity.
  - cbn. lia.
  - discriminate.
  - apply (proj1 (includes_false _ _)). reflexivity.
  - reflexivity.
Defined.

(** X25 on the suite of three tests: only the test whose workspace cannot
    be created counts as failed; the test that timed out counts as
    passed. *)
Lemma suite_failures_are_throws_witness :
  quiet (Some Sample.observers)
  ∧ ∃ testRun results summary,
      TestRunner.runTestSuite NodePath.join Sample.testRunner Sample.worlds
        Sample.claudeFile Sample.suite 1 (Some Sample.observers) 10 20
      = Normal (testRun, results, summary)
      ∧ TestSummary.failedTests summary = 1%nat
      ∧ TestSummary.passedTests summary = 2%nat.
Proof.
  assert (quiet (Some Sample.observers)) as Hquiet.
  { split_and!; intros g [= <-]; reflexivity || discriminate. }
  split; [exact Hquiet|].
  destruct (suite_failures_are_throws NodePath.join Sample.testRunner
              Sample.worlds Sample.claudeFile Sample.suite 1
              (Some Sample.observers) 10 20 Hquiet)
    as (testRun & results & summary & Hrun & _ & Hfailed & Hsum).
  exists testRun, results, summary.
  assert (TestSummary.failedTests summary = 1%nat) as Hone
    by (rewrite Hfailed; reflexivity).
  split_and!; [exact Hrun | exact Hone |].
  rewrite Hone in Hsum. cbn in Hsum. lia.
Defined.

(** X30 on a file written with an empty content: [cat] reports it as
    missing, [read] returns the empty content. *)
Lemma cat_after_write_witness :
  let fs :=
    (VirtualFileSystem.write NodePath.join NodePath.normalize
       (VirtualFileSystem.create "/workspace") "notes.txt" EmptyString 1).2 in
  (ClaudeClient.executeVirtualCommand NodePath.join NodePath.normalize
     {| ClaudeClient.virtualFS := fs; ClaudeClient.commandHistory := [] |}
     "cat notes.txt" 2 JsMath.half 3).1
  = ("cat: notes.txt: No such file or directory", 1%Z)
  ∧ (VirtualFileSystem.read NodePath.join NodePath.normalize
       fs "notes.txt" 3).1 = Some EmptyString.
Proof.
  assert ("notes.txt" ≠ EmptyString) as Hne by discriminate.
  exact (cat_after_write NodePath.join NodePath.normalize ClaudeClient.create
           "notes.txt" EmptyString 1 2 JsMath.half 3 eq_refl Hne).
Defined.
